(** * The kite shared worker: one WebSocket multiplexed between browser tabs

    A shallow embedding of the shared worker (the connection multiplexer)
    and of the tab-side [KiteChat.onZippedMessage], followed by the
    properties of the outgoing queue, the message history, the join
    handling and the reconnection policy.

    The worker is single threaded: every handler runs to completion on the
    module-level variables.  A handler is embedded as a function on the
    record [Worker] of those variables.  What a handler does to the outside
    (messages posted to tab ports, frames written to the socket, sockets
    created and closed, timers armed) is appended to the [effects] log of
    the record, in program order.  A handler that throws keeps the writes it
    made before the throw, as in JavaScript. *)

(** Further parts embed what else the sources hold: the timeline
    container mixin ([Timeline]), the chat element ([Element]), the
    broadcast channel by which the tabs settle who connects ([Channel]),
    and the event listeners that are bound where they are registered
    ([Listeners]).  Each has its definitions with the worker's and its
    properties after the worker's. *)

From stdpp Require Import base numbers list strings.

Local Open Scope Z_scope.
Local Open Scope string_scope.
Local Open Scope list_scope.

(** ** Messages (kite-types) *)

Inductive MsgStatus := unknown | sent | delivered | read | failed.

Record File := { name : string; type : string; size : Z }.

Inductive Body :=
| PlaintextBody (text : string)
| FileBody (file : File) (batchId : option string) (totalFiles : option Z).

(** [ContentMsg = PlaintextMsg | FileMsg]: the fields of [BaseMsg] and the
    body that tells the two apart. *)
Record ContentMsg := {
  messageId : string;
  timestamp : Z;
  status : MsgStatus;
  edited : bool;
  body : Body }.

(** [eagerlyConnect] is optional in the join options: [None] is the
    JavaScript [undefined]. *)
Record JoinChannel := {
  endpoint : string;
  memberId : string;
  memberName : option string;
  eagerlyConnect : option bool }.

Record Upload := {
  up_messageId : string;
  fileName : string;
  fileType : string;
  fileSize : Z }.

Record BinMsg := {
  bin_messageId : string;
  bin_timestamp : Z;
  bin_status : MsgStatus;
  bin_edited : bool;
  url : string }.

(** The field name [destiationMessageId] is the source's spelling. *)
Record MsgAck := {
  ack_messageId : string;
  destiationMessageId : string;
  ack_timestamp : Z }.

Record ErrorResponse := { code : Z; reason : string }.

(** The tags the worker and the tab switch on.  [MsgType] is declared in
    kite-types; the constructors before [ZIPPED] are the members the
    sources name.

    Modelled from the spec: [ZIPPED] and [FAILED] stand for the backend's
    batch/zip notification and for the failed-message event; their place
    in the enumeration is not among the sources, only the tab callbacks
    [onZippedMessage] and [onFailedMessage] that receive them. *)
Inductive MsgType :=
| JOIN | PLAINTEXT | FILE | UPLOAD | BIN | ACK | ERROR
| CONNECTED | DISCONNECTED | ONLINE | OFFLINE
| ZIPPED | FAILED.

Inductive KiteMsg :=
| Join (j : JoinChannel)
| Content (m : ContentMsg)
| UploadMsg (u : Upload)
| Bin (b : BinMsg)
| Ack (a : MsgAck)
| ErrorMsg (e : ErrorResponse)
| Connected (messageHistory : list ContentMsg)
| Disconnected
| Online
| Offline (sessionDurationMs : Z)
| Zipped (zipId : string) (zippedIds : list string) (archive : File)
| Failed (failedId : string) (why : string) (description : option string).

Definition msgType (m : KiteMsg) : MsgType :=
  match m with
  | Join _ => JOIN
  | Content c =>
      match body c with PlaintextBody _ => PLAINTEXT | FileBody _ _ _ => FILE end
  | UploadMsg _ => UPLOAD
  | Bin _ => BIN
  | Ack _ => ACK
  | ErrorMsg _ => ERROR
  | Connected _ => CONNECTED
  | Disconnected => DISCONNECTED
  | Online => ONLINE
  | Offline _ => OFFLINE
  | Zipped _ _ _ => ZIPPED
  | Failed _ _ _ => FAILED
  end.

(** JavaScript truthiness of an optional boolean, and [a || b] on it. *)
Definition truthy (b : option bool) : bool :=
  match b with Some true => true | _ => false end.

Definition js_or (a b : option bool) : option bool :=
  if truthy a then a else b.

(** ** The worker's variables *)

Inductive ReadyState := CONNECTING | OPEN | CLOSING | CLOSED.

(** The socket object the variable [ws] refers to.  [wsId] numbers the
    sockets in creation order; [readyState] is written by the browser. *)
Record WebSocket := {
  wsId : nat;
  wsUrl : string;
  readyState : ReadyState }.

Definition KiteMessagePort := nat.

Inductive Effect :=
| PostMessage (port : KiteMessagePort) (msg : KiteMsg)
| PortClose (port : KiteMessagePort)
| WsNew (id : nat) (wsEndpoint : string)
| WsSend (id : nat) (payload : KiteMsg)
| WsClose (id : nat) (closeCode : option Z) (closeReason : option string)
| SetTimeout (delayMs : Z)
| UnhandledRejection (message : string).

(** [tabPorts] is a JavaScript [Set]: no duplicates, iterated in insertion
    order.  [outgoingQueue] holds values; in the source a queued plaintext
    message is the same object as its [messageHistory] entry, the model
    keeps the copy taken when it was queued. *)
Record Worker := {
  ws : option WebSocket;
  joinChannel : option JoinChannel;
  messageHistory : list ContentMsg;
  outgoingQueue : list KiteMsg;
  tabPorts : list KiteMessagePort;
  online : bool;
  connectedTimestampMs : Z;
  reconnectionAttempts : nat;
  effects : list Effect }.

Definition WS_CLOSE_REASON_GONE_AWAY : Z := 1001.
Definition MIN_RECONNECTION_INTERVAL_MS : Z := 1000 * 60.

(** The worker as the script leaves it after its top level has run;
    [navigatorOnLine] is [self.navigator.onLine] at that moment. *)
Definition created (navigatorOnLine : bool) : Worker :=
  {| ws := None; joinChannel := None; messageHistory := [];
     outgoingQueue := []; tabPorts := []; online := navigatorOnLine;
     connectedTimestampMs := 0; reconnectionAttempts := 0%nat;
     effects := [] |}.

Definition set_ws (v : option WebSocket) (w : Worker) : Worker :=
  {| ws := v; joinChannel := joinChannel w;
     messageHistory := messageHistory w; outgoingQueue := outgoingQueue w;
     tabPorts := tabPorts w; online := online w;
     connectedTimestampMs := connectedTimestampMs w;
     reconnectionAttempts := reconnectionAttempts w; effects := effects w |}.

Definition set_joinChannel (v : option JoinChannel) (w : Worker) : Worker :=
  {| ws := ws w; joinChannel := v;
     messageHistory := messageHistory w; outgoingQueue := outgoingQueue w;
     tabPorts := tabPorts w; online := online w;
     connectedTimestampMs := connectedTimestampMs w;
     reconnectionAttempts := reconnectionAttempts w; effects := effects w |}.

Definition set_messageHistory (v : list ContentMsg) (w : Worker) : Worker :=
  {| ws := ws w; joinChannel := joinChannel w;
     messageHistory := v; outgoingQueue := outgoingQueue w;
     tabPorts := tabPorts w; online := online w;
     connectedTimestampMs := connectedTimestampMs w;
     reconnectionAttempts := reconnectionAttempts w; effects := effects w |}.

Definition set_outgoingQueue (v : list KiteMsg) (w : Worker) : Worker :=
  {| ws := ws w; joinChannel := joinChannel w;
     messageHistory := messageHistory w; outgoingQueue := v;
     tabPorts := tabPorts w; online := online w;
     connectedTimestampMs := connectedTimestampMs w;
     reconnectionAttempts := reconnectionAttempts w; effects := effects w |}.

Definition set_tabPorts (v : list KiteMessagePort) (w : Worker) : Worker :=
  {| ws := ws w; joinChannel := joinChannel w;
     messageHistory := messageHistory w; outgoingQueue := outgoingQueue w;
     tabPorts := v; online := online w;
     connectedTimestampMs := connectedTimestampMs w;
     reconnectionAttempts := reconnectionAttempts w; effects := effects w |}.

Definition set_online (v : bool) (w : Worker) : Worker :=
  {| ws := ws w; joinChannel := joinChannel w;
     messageHistory := messageHistory w; outgoingQueue := outgoingQueue w;
     tabPorts := tabPorts w; online := v;
     connectedTimestampMs := connectedTimestampMs w;
     reconnectionAttempts := reconnectionAttempts w; effects := effects w |}.

Definition set_connectedTimestampMs (v : Z) (w : Worker) : Worker :=
  {| ws := ws w; joinChannel := joinChannel w;
     messageHistory := messageHistory w; outgoingQueue := outgoingQueue w;
     tabPorts := tabPorts w; online := online w;
     connectedTimestampMs := v;
     reconnectionAttempts := reconnectionAttempts w; effects := effects w |}.

Definition set_reconnectionAttempts (v : nat) (w : Worker) : Worker :=
  {| ws := ws w; joinChannel := joinChannel w;
     messageHistory := messageHistory w; outgoingQueue := outgoingQueue w;
     tabPorts := tabPorts w; online := online w;
     connectedTimestampMs := connectedTimestampMs w;
     reconnectionAttempts := v; effects := effects w |}.

Definition set_effects (v : list Effect) (w : Worker) : Worker :=
  {| ws := ws w; joinChannel := joinChannel w;
     messageHistory := messageHistory w; outgoingQueue := outgoingQueue w;
     tabPorts := tabPorts w; online := online w;
     connectedTimestampMs := connectedTimestampMs w;
     reconnectionAttempts := reconnectionAttempts w; effects := v |}.

(** ** Handlers as state transformers that may throw *)

Inductive Completion (A : Type) :=
| Normal (a : A)
| Throw (message : string).
Arguments Normal {A} a.
Arguments Throw {A} message.

Definition M (A : Type) : Type := Worker -> Worker * Completion A.

Definition ret {A} (a : A) : M A := fun w => (w, Normal a).
Definition throw {A} (message : string) : M A := fun w => (w, Throw message).
Definition bind {A B} (m : M A) (k : A -> M B) : M B :=
  fun w =>
    match m w with
    | (w', Normal a) => k a w'
    | (w', Throw e) => (w', Throw e)
    end.
Definition gets {A} (f : Worker -> A) : M A := fun w => (w, Normal (f w)).
Definition modify (f : Worker -> Worker) : M unit := fun w => (f w, Normal tt).
Definition emit (e : Effect) : M unit :=
  modify (fun w => set_effects (effects w ++ [e]) w).
Definition when (b : bool) (m : M unit) : M unit := if b then m else ret tt.

Declare Scope worker_scope.
Delimit Scope worker_scope with worker.
Notation "x <- m ;; k" := (bind m (fun x => k))
  (at level 100, m at next level, right associativity) : worker_scope.
Notation "m ;; k" := (bind m (fun _ => k))
  (at level 100, right associativity) : worker_scope.
Local Open Scope worker_scope.

(** [assert(condition, message)] *)
Definition assert (condition : bool) (message : string) : M unit :=
  if condition then ret tt else throw message.

Definition state_of {A} (r : Worker * Completion A) : Worker := fst r.
Definition completion_of {A} (r : Worker * Completion A) : Completion A := snd r.

(** ** Ports and sockets *)

(** [tabPorts.add(port)] and [tabPorts.delete(port)] *)
Definition ports_add (port : KiteMessagePort) (ports : list KiteMessagePort)
  : list KiteMessagePort :=
  if existsb (Nat.eqb port) ports then ports else ports ++ [port].

Definition ports_delete (port : KiteMessagePort) (ports : list KiteMessagePort)
  : list KiteMessagePort :=
  filter (fun p => p ≠ port) ports.

(** The posts of one [broadcast(msg, exclude)] call, in iteration order. *)
Definition posts (msg : KiteMsg) (exclude : option KiteMessagePort)
    (ports : list KiteMessagePort) : list Effect :=
  map (fun p => PostMessage p msg)
      (filter (fun p => exclude ≠ Some p) ports).

Definition broadcast (msg : KiteMsg) (exclude : option KiteMessagePort) : M unit :=
  modify (fun w => set_effects (effects w ++ posts msg exclude (tabPorts w)) w).

(** [ws?.close(code, reason)]: nothing on [null].  The browser's [close]
    checks its arguments before anything else: a code that is neither
    1000 nor in 3000..4999 makes it throw InvalidAccessError, a reason of
    more than 123 bytes SyntaxError, and the socket is left as it was.
    Otherwise the call is logged and an open or connecting socket starts
    closing. *)
Definition closing (s : WebSocket) : WebSocket :=
  {| wsId := wsId s; wsUrl := wsUrl s;
     readyState := match readyState s with CLOSED => CLOSED | _ => CLOSING end |}.

Definition code_accepted (closeCode : option Z) : bool :=
  match closeCode with
  | Some code => (code =? 1000)%Z || ((3000 <=? code)%Z && (code <=? 4999)%Z)
  | None => true
  end.

Definition reason_accepted (closeReason : option string) : bool :=
  match closeReason with
  | Some reason => (String.length reason <=? 123)%nat
  | None => true
  end.

Definition ws_close (closeCode : option Z) (closeReason : option string) : M unit :=
  cur <- gets ws ;;
  match cur with
  | None => ret tt
  | Some s =>
      assert (code_accepted closeCode) "InvalidAccessError" ;;
      assert (reason_accepted closeReason) "SyntaxError" ;;
      emit (WsClose (wsId s) closeCode closeReason) ;;
      modify (set_ws (Some (closing s)))
  end.

Definition is_open (s : WebSocket) : bool :=
  match readyState s with OPEN => true | _ => false end.

(** [send(payload)]: the two assertions, then [ws.send(encodeKiteMsg(payload))].
    The codec is opaque: the log keeps the payload that was encoded. *)
Definition send (payload : KiteMsg) : M unit :=
  cur <- gets ws ;;
  match cur with
  | None => throw "No Websocket connection"
  | Some s =>
      assert (is_open s) "Websocket is not ready" ;;
      emit (WsSend (wsId s) payload)
  end.

(** ** The outgoing queue *)

Definition shift (w : Worker) : Worker :=
  set_outgoingQueue (tail (outgoingQueue w)) w.

Section OutgoingQueue.

(** The loop of [flushQueue] over any [send]. *)
Variable send : KiteMsg -> M unit.

(** [while (queueSize-- > 0) { payload = outgoingQueue[0]; send(payload);
    outgoingQueue.shift(); }].  [queueSize] starts at the length and one
    entry leaves per round, so the queue is never empty at
    [outgoingQueue[0]]; the first branch is there for totality. *)
Fixpoint flushLoop (queueSize : nat) : M unit :=
  match queueSize with
  | O => ret tt
  | S rest =>
      fun w =>
        match outgoingQueue w with
        | [] => (w, Normal tt)
        | payload :: _ =>
            (send payload ;; modify shift ;; flushLoop rest) w
        end
  end.

Definition flushQueue_with : M unit :=
  queueSize <- gets (fun w => length (outgoingQueue w)) ;;
  if (queueSize <=? 0)%nat then ret tt else flushLoop queueSize.

(** [sent_in_order es w w']: starting in [w], the sends of [es], each
    followed by the removal of the head of the queue, all return and
    leave the worker in [w']. *)
Inductive sent_in_order : list KiteMsg -> Worker -> Worker -> Prop :=
| sent_none w : sent_in_order [] w w
| sent_next e es w w1 w2 :
    send e w = (w1, Normal tt) ->
    sent_in_order es (shift w1) w2 ->
    sent_in_order (e :: es) w w2.

End OutgoingQueue.

Definition flushQueue : M unit := flushQueue_with send.

(** ** Connection handling *)

(** [new WebSocket(endpoint, SUBPROTOCOL)] is numbered with the value
    [reconnectionAttempts] had before [reconnectionAttempts++].  The
    constructor throws SyntaxError for an endpoint the browser refuses
    (one it cannot parse, one that is no WebSocket address, one with a
    fragment), with the counter raised and [ws] as it was; which
    endpoints those are is the browser's business.  The definition is
    the call in which the constructor returns, as it did in every run in
    which the socket later opens, closes or carries a frame. *)
Definition triggerWsConnection : M unit :=
  attempt <- gets reconnectionAttempts ;;
  modify (set_reconnectionAttempts (S attempt)) ;;
  jc <- gets joinChannel ;;
  match jc with
  | None => throw "Missing websocket connection configuration"
  | Some j =>
      emit (WsNew attempt (endpoint j)) ;;
      modify (set_ws (Some {| wsId := attempt; wsUrl := endpoint j;
                              readyState := CONNECTING |}))
  end.

Definition onTabConnected (port : KiteMessagePort) : M unit :=
  modify (fun w => set_tabPorts (ports_add port (tabPorts w)) w) ;;
  history <- gets messageHistory ;;
  emit (PostMessage port (Connected history)).

Definition onOnline : M unit :=
  modify (set_online true) ;;
  tabs <- gets tabPorts ;;
  if (length tabs =? 0)%nat then ret tt
  else
    queue <- gets outgoingQueue ;;
    jc <- gets joinChannel ;;
    if (0 <? length queue)%nat then triggerWsConnection
    else if truthy (jc ≫= eagerlyConnect) then triggerWsConnection
    else ret tt.

(** [ws?.readyState === ws?.OPEN] holds for an open socket and also for
    [ws === null], where both sides are [undefined]. *)
Definition onOffline : M unit :=
  modify (set_online false) ;;
  cur <- gets ws ;;
  when (match cur with None => true | Some s => is_open s end)
       (ws_close None None) ;;
  modify (set_ws None).

Definition flush_or_connect : M unit :=
  cur <- gets ws ;;
  match cur with
  | Some s => when (is_open s) flushQueue
  | None =>
      on <- gets online ;;
      when on triggerWsConnection
  end.

Definition onPlaintextMessage (payload : ContentMsg) (tabPort : KiteMessagePort)
  : M unit :=
  modify (fun w => set_messageHistory (messageHistory w ++ [payload]) w) ;;
  modify (fun w => set_outgoingQueue (outgoingQueue w ++ [Content payload]) w) ;;
  broadcast (Content payload) (Some tabPort) ;;
  flush_or_connect.

(** [file] is [payload.file]. *)
Definition onFileMessage (payload : ContentMsg) (file : File)
    (tabPort : KiteMessagePort) : M unit :=
  modify (fun w => set_messageHistory (messageHistory w ++ [payload]) w) ;;
  broadcast (Content payload) (Some tabPort) ;;
  let upload :=
    {| up_messageId := messageId payload; fileName := name file;
       fileType := type file; fileSize := size file |} in
  modify (fun w => set_outgoingQueue (outgoingQueue w ++ [UploadMsg upload]) w) ;;
  flush_or_connect.

Definition with_eagerlyConnect (v : option bool) (j : JoinChannel) : JoinChannel :=
  {| endpoint := endpoint j; memberId := memberId j;
     memberName := memberName j; eagerlyConnect := v |}.

Definition conflict_message : string :=
  "Cannot use different chat endpoints for the same domain".

Definition onJoinChannel (payload : JoinChannel) : M unit :=
  stored <- gets joinChannel ;;
  let current := match stored with Some j => j | None => payload end in
  let merged :=
    with_eagerlyConnect
      (js_or (eagerlyConnect current) (eagerlyConnect payload)) current in
  modify (set_joinChannel (Some merged)) ;;
  assert (String.eqb (endpoint merged) (endpoint payload))
         conflict_message ;;
  cur <- gets ws ;;
  when (match cur with None => truthy (eagerlyConnect merged) | Some _ => false end)
       triggerWsConnection.

Definition onTabDisconnected (port : KiteMessagePort) : M unit :=
  emit (PortClose port) ;;
  modify (fun w => set_tabPorts (ports_delete port (tabPorts w)) w) ;;
  tabs <- gets tabPorts ;;
  when (length tabs =? 0)%nat
       (ws_close (Some WS_CLOSE_REASON_GONE_AWAY) (Some "all active tabs closed")).

(** The [switch] of [onTabMessage]; the other tags fall through. *)
Definition onTabMessage (tabPort : KiteMessagePort) (payload : KiteMsg) : M unit :=
  match payload with
  | Join j => onJoinChannel j
  | Content m =>
      match body m with
      | PlaintextBody _ => onPlaintextMessage m tabPort
      | FileBody file _ _ => onFileMessage m file tabPort
      end
  | Disconnected => onTabDisconnected tabPort
  | _ => ret tt
  end.

(** [now] is [Date.now()]. *)
Definition onWsOpen (now : Z) : M unit :=
  modify (set_connectedTimestampMs now) ;;
  jc <- gets joinChannel ;;
  match jc with
  | None => throw "no pending joinChannel message"
  | Some j =>
      send (Join j) ;;
      flushQueue ;;
      broadcast Online None
  end.

(** [connectedTimestampMs ? Date.now() - connectedTimestampMs : 0] *)
Definition sessionDuration (now connected : Z) : Z :=
  if (connected =? 0)%Z then 0 else now - connected.

Definition onWsClose (now : Z) : M unit :=
  connected <- gets connectedTimestampMs ;;
  let sessionDurationMs := sessionDuration now connected in
  broadcast (Offline sessionDurationMs) None ;;
  on <- gets online ;;
  if negb on then modify (set_ws None)
  else
    tabs <- gets tabPorts ;;
    if (length tabs =? 0)%nat then modify (set_ws None)
    else
      let timeToReconnect := MIN_RECONNECTION_INTERVAL_MS - sessionDurationMs in
      if (timeToReconnect >? 0)%Z then emit (SetTimeout timeToReconnect)
      else triggerWsConnection.

Definition onWsError : M unit := ret tt.

(** ** Frames from the backend *)

Definition onWsPlaintextMessage (payload : ContentMsg) : M unit :=
  modify (fun w => set_messageHistory (messageHistory w ++ [payload]) w) ;;
  broadcast (Content payload) None.

(** A promise that has settled. *)
Inductive Settled (A : Type) :=
| Resolved (a : A)
| Rejected (message : string).
Arguments Resolved {A} a.
Arguments Rejected {A} message.

(** An [async] function stopped at its [await]: the awaited promise and
    the rest of the body.  Nothing of the body has run before the [await]
    of [onWsFileMessage] except the call that made the promise. *)
Record Async := {
  awaited : Settled File;
  resume : File -> M unit }.

(** The rest of the body runs when the promise resolves, on the worker as
    it is then.  When the promise rejects the body is abandoned and the
    promise of the [async] function rejects; no caller holds it, which the
    browser reports as an unhandled rejection. *)
Definition settle (a : Async) : M unit :=
  match awaited a with
  | Resolved file => resume a file
  | Rejected message => emit (UnhandledRejection message)
  end.

(** [throw new Error('Not implemented downloading of ' + url)] in an
    [async] function: the promise it returns is rejected. *)
Definition downloadUrl (url : string) : Settled File :=
  Rejected ("Not implemented downloading of " ++ url).

(** [{...payload, type: MsgType.FILE, file}] *)
Definition incomingFile (payload : BinMsg) (file : File) : ContentMsg :=
  {| messageId := bin_messageId payload; timestamp := bin_timestamp payload;
     status := bin_status payload; edited := bin_edited payload;
     body := FileBody file None None |}.

Section Download.

(** [onWsFileMessage] over any [downloadUrl]. *)
Variable downloadUrl : string -> Settled File.

Definition onWsFileMessage_with (payload : BinMsg) : Async :=
  {| awaited := downloadUrl (url payload);
     resume := fun file =>
       let incoming := incomingFile payload file in
       modify (fun w => set_messageHistory (messageHistory w ++ [incoming]) w) ;;
       broadcast (Content incoming) None |}.

End Download.

Definition onWsFileMessage : BinMsg -> Async := onWsFileMessage_with downloadUrl.

(** [messageHistory.findLast(pred)]: the last entry that satisfies [pred],
    with its position, since the caller writes to the entry itself. *)
Fixpoint findLast {A} (pred : A -> bool) (l : list A) : option (nat * A) :=
  match l with
  | [] => None
  | x :: rest =>
      match findLast pred rest with
      | Some (i, y) => Some (S i, y)
      | None => if pred x then Some (0%nat, x) else None
      end
  end.

(** [msg.messageId = payload.destiationMessageId; msg.status = delivered] *)
Definition acked (payload : MsgAck) (msg : ContentMsg) : ContentMsg :=
  {| messageId := destiationMessageId payload; timestamp := timestamp msg;
     status := delivered; edited := edited msg; body := body msg |}.

(** The entry is rewritten where it stands in the history.  In the source
    a plaintext message that is still queued is the same object as its
    history entry, so that there the rewrite shows in the queued envelope
    as well; [outgoingQueue] holds values and keeps the envelope as it was
    queued.  The two agree wherever the acknowledged message has left the
    queue. *)
Definition onMessageAck (payload : MsgAck) : M unit :=
  history <- gets messageHistory ;;
  match findLast
          (fun msg => String.eqb (messageId msg) (ack_messageId payload)) history with
  | Some (i, msg) => modify (set_messageHistory (<[i := acked payload msg]> history))
  | None => ret tt
  end ;;
  broadcast (Ack payload) None.

Definition onErrorResponse (payload : ErrorResponse) : M unit := ret tt.

Section Incoming.

(** [event.data], the codec's [decodeKiteMsg], and the casts
    [payload as PlaintextMsg], [payload as BinMsg], [payload as MsgAck],
    [payload as ErrorResponse]: the handlers are handed [payload], the
    frame as it came, not the decoded [kiteMsg]. *)
Variable Raw : Type.
Variable decodeKiteMsg : Raw -> KiteMsg.
Variable asPlaintextMsg : Raw -> ContentMsg.
Variable asBinMsg : Raw -> BinMsg.
Variable asMsgAck : Raw -> MsgAck.
Variable asErrorResponse : Raw -> ErrorResponse.

(** The result is the promise [onWsFileMessage] returns, which the
    handler drops. *)
Definition onWsMessage (payload : Raw) : M (option Async) :=
  let kiteMsg := decodeKiteMsg payload in
  match msgType kiteMsg with
  | PLAINTEXT => onWsPlaintextMessage (asPlaintextMsg payload) ;; ret None
  | BIN => ret (Some (onWsFileMessage (asBinMsg payload)))
  | ACK => onMessageAck (asMsgAck payload) ;; ret None
  | ERROR => onErrorResponse (asErrorResponse payload) ;; ret None
  | _ => ret None
  end.

(** One frame, with the promise settled right after the handler. *)
Definition deliver (payload : Raw) : M unit :=
  pending <- onWsMessage payload ;;
  match pending with
  | Some a => settle a
  | None => ret tt
  end.

End Incoming.

(** ** The events the browser delivers *)

(** A frame from the backend as [onWsMessage] gets to see it: the message
    the codec decodes it to, and the frame itself read through each of the
    four casts. *)
Record Frame := {
  decoded : KiteMsg;
  seenAsPlaintextMsg : ContentMsg;
  seenAsBinMsg : BinMsg;
  seenAsMsgAck : MsgAck;
  seenAsErrorResponse : ErrorResponse }.

Inductive Event :=
| TabConnect (port : KiteMessagePort)
| TabMessage (port : KiteMessagePort) (payload : KiteMsg)
| NetOnline
| NetOffline
| SocketOpen (id : nat)
| SocketClose (id : nat)
| SocketError (id : nat)
| TimerFired
| SocketMessage (data : Frame).

(** The browser writes [readyState] before it calls [onopen] or [onclose]. *)
Definition browser_sets (id : nat) (rs : ReadyState) (w : Worker) : Worker :=
  match ws w with
  | Some s =>
      if (wsId s =? id)%nat
      then set_ws (Some {| wsId := wsId s; wsUrl := wsUrl s; readyState := rs |}) w
      else w
  | None => w
  end.

(** One event at clock reading [now]; [TimerFired] is the callback armed by
    [setTimeout(triggerWsConnection, timeToReconnect)], and a frame is
    handled together with the promise it may leave behind. *)
Definition step (now : Z) (ev : Event) : M unit :=
  match ev with
  | TabConnect port => onTabConnected port
  | TabMessage port payload => onTabMessage port payload
  | NetOnline => onOnline
  | NetOffline => onOffline
  | SocketOpen id => modify (browser_sets id OPEN) ;; onWsOpen now
  | SocketClose id => modify (browser_sets id CLOSED) ;; onWsClose now
  | SocketError _ => onWsError
  | TimerFired => triggerWsConnection
  | SocketMessage data =>
      deliver Frame decoded seenAsPlaintextMsg seenAsBinMsg seenAsMsgAck
              seenAsErrorResponse data
  end.

Fixpoint run (w : Worker) (trace : list (Z * Event)) : Worker :=
  match trace with
  | [] => w
  | (now, ev) :: rest => run (state_of (step now ev w)) rest
  end.

(** The clock readings of the events during which [triggerWsConnection]
    ran, read off the counter it increments. *)
Fixpoint attemptTimes (w : Worker) (trace : list (Z * Event)) : list Z :=
  match trace with
  | [] => []
  | (now, ev) :: rest =>
      let w' := state_of (step now ev w) in
      (if (reconnectionAttempts w <? reconnectionAttempts w')%nat then [now] else [])
        ++ attemptTimes w' rest
  end.

(** ** The tab side: [KiteChat.onZippedMessage] *)

Module Tab.

(** [{file} as ContentMsg] and the like: the fields an update carries. *)
Record Partial := {
  p_messageId : option string;
  p_status : option MsgStatus;
  p_file : option File }.

(** The tab as [update] and [delete] see it: whether [this.element] is
    there, and the [kite-msg] elements of the document in document
    order.  The calls into kite-storage, which is not among the sources,
    are left out; they do not touch the elements. *)
Record KiteChat := {
  element : bool;
  msgElements : list ContentMsg }.

(** What [document.querySelector(selector)] finds among the [kite-msg]
    elements: that the selector does not parse (the call throws
    SyntaxError), that nothing matches, or the first match by its
    position in document order. *)
Inductive Selected :=
| NoParse
| NoMatch
| Match (position : nat).

(** The double quote, and the characters that do not stand for
    themselves between the quotes of a selector: the quote, the
    backslash, the line breaks and the null character. *)
Definition quote : string := String (Ascii.ascii_of_nat 34) EmptyString.

Definition plain (c : Ascii.ascii) : bool :=
  negb (existsb (Nat.eqb (Ascii.nat_of_ascii c))
          [34; 92; 10; 13; 12; 0]%nat).

Fixpoint selectorSafe (id : string) : bool :=
  match id with
  | EmptyString => true
  | String c rest => plain c && selectorSafe rest
  end.

(** The first element that carries the id, by its position. *)
Fixpoint firstWithId (id : string) (els : list ContentMsg) : option nat :=
  match els with
  | [] => None
  | el :: rest =>
      if String.eqb (messageId el) id then Some 0%nat
      else S <$> firstWithId id rest
  end.

(** The elements with the one at [position] taken out. *)
Definition removed (position : nat) (els : list ContentMsg) : list ContentMsg :=
  take position els ++ drop (S position) els.

(** The elements once the first that carries the id is taken out. *)
Fixpoint removeFirst (id : string) (els : list ContentMsg) : list ContentMsg :=
  match els with
  | [] => []
  | el :: rest =>
      if String.eqb (messageId el) id then rest else el :: removeFirst id rest
  end.

Section Component.

(** [KiteChatElement.editMsg], which the component sources here do not
    have, acting on the elements. *)
Variable editMsg : string -> Partial -> list ContentMsg -> list ContentMsg.

(** [KiteMsgElement.TAG], and [document.querySelector] over the
    [kite-msg] elements: the document and [KiteMsgElement] are not among
    the sources. *)
Variable TAG : string.
Variable querySelector : string -> list ContentMsg -> Selected.

Definition update (id : string) (updatedMsg : Partial) (k : KiteChat) : KiteChat :=
  if element k
  then {| element := true; msgElements := editMsg id updatedMsg (msgElements k) |}
  else k.

(** The template literal of [delete]: the id goes between the quotes as
    it is. *)
Definition selector (id : string) : string :=
  (TAG ++ "[messageId=" ++ quote) ++ id ++ quote ++ "]".

Definition delete (id : string) (k : KiteChat) : KiteChat * Completion unit :=
  match querySelector (selector id) (msgElements k) with
  | NoParse => (k, Throw "SyntaxError")
  | NoMatch => (k, Normal tt)
  | Match position =>
      ({| element := element k;
          msgElements := removed position (msgElements k) |}, Normal tt)
  end.

(** [ids.forEach(id => this.delete(id))]: a call that throws ends the
    loop. *)
Fixpoint deleteEach (ids : list string) (k : KiteChat) : KiteChat * Completion unit :=
  match ids with
  | [] => (k, Normal tt)
  | id :: rest =>
      match delete id k with
      | (k', Normal _) => deleteEach rest k'
      | (k', Throw e) => (k', Throw e)
      end
  end.

Definition onZippedMessage (id : string) (zippedIds : list string) (file : File)
    (k : KiteChat) : KiteChat * Completion unit :=
  let k1 :=
    update id {| p_messageId := None; p_status := None; p_file := Some file |} k in
  deleteEach zippedIds k1.

(** What is taken of the document and of [kite-msg]: for an id that
    stands for itself between the quotes, the selector matches the
    elements that carry just this id. *)
Definition selects_by_id : Prop :=
  forall id els,
    selectorSafe id = true ->
    querySelector (selector id) els =
      match firstWithId id els with
      | Some position => Match position
      | None => NoMatch
      end.

End Component.

(** A [querySelector] for the selectors of [delete]: it reads the id
    back from between the quotes. *)
Fixpoint after (start text : string) : option string :=
  match start, text with
  | EmptyString, _ => Some text
  | String a start', String b text' =>
      if Ascii.eqb a b then after start' text' else None
  | String _ _, EmptyString => None
  end.

Fixpoint quoted (text : string) : option (string * string) :=
  match text with
  | EmptyString => None
  | String c rest =>
      if Ascii.eqb c (Ascii.ascii_of_nat 34) then Some (EmptyString, rest)
      else if plain c then
        match quoted rest with
        | Some (id, tail) => Some (String c id, tail)
        | None => None
        end
      else None
  end.

Definition byAttribute (TAG : string) (selector : string) (els : list ContentMsg)
    : Selected :=
  match after (TAG ++ "[messageId=" ++ quote) selector with
  | Some rest =>
      match quoted rest with
      | Some (id, tail) =>
          if String.eqb tail "]" then
            match firstWithId id els with
            | Some position => Match position
            | None => NoMatch
            end
          else NoParse
      | None => NoParse
      end
  | None => NoParse
  end.

End Tab.

(** ** Reading runs *)

(** The worker after the joins [js] have been handled one after another;
    a join that throws ends its own handler only. *)
Definition joins (w : Worker) (js : list JoinChannel) : Worker :=
  fold_left (fun acc j => state_of (onJoinChannel j acc)) js w.

(** The joins the tabs send in a trace, in trace order. *)
Definition joined (ev : Event) : list JoinChannel :=
  match ev with
  | TabMessage _ (Join j) => [j]
  | _ => []
  end.

Definition joinsOf (trace : list (Z * Event)) : list JoinChannel :=
  flat_map (fun timed => joined (snd timed)) trace.

Definition eager (j : JoinChannel) : bool := truthy (eagerlyConnect j).

(** The content messages a trace appends to the history, in trace order:
    those the tabs hand over and the plaintext frames of the backend.  A
    binary reference appends nothing, its fetch never resolves. *)
Definition pushed (ev : Event) : list ContentMsg :=
  match ev with
  | TabMessage _ (Content m) => [m]
  | SocketMessage data =>
      match msgType (decoded data) with
      | PLAINTEXT => [seenAsPlaintextMsg data]
      | _ => []
      end
  | _ => []
  end.

Definition is_ack (ev : Event) : bool :=
  match ev with
  | SocketMessage data =>
      match msgType (decoded data) with ACK => true | _ => false end
  | _ => false
  end.

Definition contents (trace : list (Z * Event)) : list ContentMsg :=
  flat_map (fun timed => pushed (snd timed)) trace.

(** What an Ack leaves of an entry. *)
Definition skeleton (m : ContentMsg) : Z * bool * Body :=
  (timestamp m, edited m, body m).

(** ** Sample workers and traces *)

Definition text_msg (id text : string) : ContentMsg :=
  {| messageId := id; timestamp := 0; status := unknown; edited := false;
     body := PlaintextBody text |}.

Definition file_msg (id fname : string) : ContentMsg :=
  {| messageId := id; timestamp := 0; status := unknown; edited := false;
     body := FileBody {| name := fname; type := "image/png"; size := 10 |}
                      None None |}.

(** A transport that takes the first frame and is gone for the second. *)
Definition gone_after_one (e : KiteMsg) : M unit :=
  logged <- gets effects ;;
  if (length logged <? 1)%nat then emit (WsSend 0 e) else throw "gone".

Definition three_queued : Worker :=
  set_outgoingQueue
    [Content (text_msg "m1" "a"); Content (text_msg "m2" "b");
     Content (text_msg "m3" "c")]
    (created true).

Definition cfg_lazy : JoinChannel :=
  {| endpoint := "wss://chat.example/ws?c=support"; memberId := "u1";
     memberName := None; eagerlyConnect := Some false |}.

Definition cfg_eager : JoinChannel :=
  {| endpoint := "wss://chat.example/ws?c=support"; memberId := "u2";
     memberName := Some "Ann"; eagerlyConnect := Some true |}.

Definition cfg_elsewhere : JoinChannel :=
  {| endpoint := "wss://other.example/ws?c=sales"; memberId := "u3";
     memberName := None; eagerlyConnect := Some true |}.

Definition open_socket : WebSocket :=
  {| wsId := 0; wsUrl := "wss://chat.example/ws?c=support"; readyState := OPEN |}.

Definition sample_upload : Upload :=
  {| up_messageId := "f1"; fileName := "a.png"; fileType := "image/png";
     fileSize := 10 |}.

(** Two tabs, an open socket, a stored join and two envelopes waiting. *)
Definition two_tabs_open : Worker :=
  {| ws := Some open_socket; joinChannel := Some cfg_lazy;
     messageHistory := [text_msg "m1" "hi"; file_msg "f1" "a.png"];
     outgoingQueue := [Content (text_msg "m1" "hi"); UploadMsg sample_upload];
     tabPorts := [1%nat; 2%nat]; online := true;
     connectedTimestampMs := 0; reconnectionAttempts := 1%nat; effects := [] |}.

(** One tab and a history of one message that waits for its Ack. *)
Definition one_unacked : Worker :=
  set_tabPorts [7%nat] (set_messageHistory [text_msg "L" "hi"] (created true)).

Definition ack_L_C : MsgAck :=
  {| ack_messageId := "L"; destiationMessageId := "C"; ack_timestamp := 5 |}.

(** A session that lasts a minute, after which the backend cannot be
    reached: each new socket closes without having opened. *)
Definition minute_then_unreachable : list (Z * Event) :=
  [(0, TabConnect 1%nat); (1, TabMessage 1%nat (Join cfg_eager));
   (1000, SocketOpen 0%nat); (61000, SocketClose 0%nat);
   (61001, SocketClose 1%nat); (61002, SocketClose 2%nat)].

(** The only tab queues a message and leaves before the socket opens; the
    connection then fails. *)
Definition last_tab_leaves : list (Z * Event) :=
  [(0, TabConnect 1%nat); (1, TabMessage 1%nat (Join cfg_lazy));
   (2, TabMessage 1%nat (Content (text_msg "m1" "hi")));
   (3, TabMessage 1%nat Disconnected); (4, SocketClose 0%nat)].

Definition tab_returns : list (Z * Event) :=
  [(5, TabConnect 2%nat); (6, TabMessage 2%nat (Join cfg_lazy))].

Definition sample_bin : BinMsg :=
  {| bin_messageId := "b1"; bin_timestamp := 3; bin_status := unknown;
     bin_edited := false; url := "https://files.example/b1" |}.

Definition archive_file : File :=
  {| name := "files.zip"; type := "application/zip"; size := 20 |}.

(** One tab and the two file messages that the backend then archives. *)
Definition two_files_shown : Worker :=
  set_tabPorts [1%nat]
    (set_messageHistory [file_msg "f1" "a.png"; file_msg "f2" "b.png"]
       (created true)).

Definition zip_report : KiteMsg := Zipped "m200" ["f1"; "f2"] archive_file.

(** ** Counting what a tab shows *)

Fixpoint occurrences (id : string) (ids : list string) : nat :=
  match ids with
  | [] => 0%nat
  | x :: rest => ((if String.eqb x id then 1 else 0) + occurrences id rest)%nat
  end.

(** How many [kite-msg] elements carry the id. *)
Definition shown (id : string) (els : list ContentMsg) : nat :=
  occurrences id (map messageId els).

(** [{file}] *)
Definition only_file (file : File) : Tab.Partial :=
  {| Tab.p_messageId := None; Tab.p_status := None; Tab.p_file := Some file |}.

(** A frame that decodes to the zip report, and a frame that decodes to a
    binary reference; the casts read nothing the handlers of these two
    tags use besides the fields of [sample_bin]. *)
Definition decodes_to (m : KiteMsg) (_ : unit) : KiteMsg := m.
Definition read_plaintext (_ : unit) : ContentMsg := text_msg "" "".
Definition read_bin (_ : unit) : BinMsg := sample_bin.
Definition read_ack (_ : unit) : MsgAck := ack_L_C.
Definition read_error (_ : unit) : ErrorResponse := {| code := 0; reason := "" |}.

(** A fetch that succeeds. *)
Definition fetched (_ : string) : Settled File := Resolved archive_file.

(** An [editMsg] that swaps the file of the element with the given id, and
    a tab that shows two files and the message that will archive them. *)
Definition edit_file (id : string) (updatedMsg : Tab.Partial)
    (els : list ContentMsg) : list ContentMsg :=
  map (fun el =>
         match Tab.p_file updatedMsg with
         | Some file =>
             if String.eqb (messageId el) id
             then {| messageId := messageId el; timestamp := timestamp el;
                     status := status el; edited := edited el;
                     body := FileBody file None None |}
             else el
         | None => el
         end) els.

Definition tab_with_files : Tab.KiteChat :=
  {| Tab.element := true;
     Tab.msgElements :=
       [file_msg "f1" "a.png"; file_msg "f2" "b.png"; file_msg "m200" "c.png"] |}.

(** ** Invariants of the worker *)

(** The first frame written to socket [id], if there is one. *)
Fixpoint first_send (id : nat) (log : list Effect) : option KiteMsg :=
  match log with
  | [] => None
  | WsSend i payload :: rest =>
      if (i =? id)%nat then Some payload else first_send id rest
  | _ :: rest => first_send id rest
  end.

Definition is_join (m : KiteMsg) : bool :=
  match m with Join _ => true | _ => false end.

(** Effects that write nothing to a socket. *)
Definition quiet (e : Effect) : bool :=
  match e with WsSend _ _ => false | _ => true end.

(** [preserves f m]: running [m] does not change the reading [f] of the
    worker, whether [m] returns or throws. *)
Definition preserves {X A} (f : Worker -> X) (m : M A) : Prop :=
  forall w, f (state_of (m w)) = f w.

(** [keeps I m]: running [m] from a worker in [I] ends in [I], whether [m]
    returns or throws. *)
Definition keeps {A} (I : Worker -> Prop) (m : M A) : Prop :=
  forall w, I w -> I (state_of (m w)).

(** Every socket was first written to with a join. *)
Definition joined_first (w : Worker) : Prop :=
  forall id p, first_send id (effects w) = Some p -> is_join p = true.

(** A socket is only held once a join is stored. *)
Definition configured (w : Worker) : Prop :=
  forall s, ws w = Some s -> is_Some (joinChannel w).

(** An open socket that is held has been written to. *)
Definition greeted (w : Worker) : Prop :=
  forall s, ws w = Some s -> is_open s = true ->
            is_Some (first_send (wsId s) (effects w)).

Definition wire_ok (w : Worker) : Prop :=
  joined_first w /\ configured w /\ greeted w.

(** ** Envelopes *)

(** The [upload] object that [onFileMessage] queues in place of the file. *)
Definition upload_intent (payload : ContentMsg) (file : File) : Upload :=
  {| up_messageId := messageId payload; fileName := name file;
     fileType := type file; fileSize := size file |}.

(** What a content message from a tab leaves on the queue. *)
Definition envelope_of (m : ContentMsg) : KiteMsg :=
  match body m with
  | PlaintextBody _ => Content m
  | FileBody file _ _ => UploadMsg (upload_intent m file)
  end.

(** The worker once a content message from [port] is in the history and
    on the queue and the other tabs have been told, before the flush or
    the connection attempt. *)
Definition received (m : ContentMsg) (port : KiteMessagePort) (w : Worker) : Worker :=
  set_effects (effects w ++ posts (Content m) (Some port) (tabPorts w))
    (set_outgoingQueue (outgoingQueue w ++ [envelope_of m])
       (set_messageHistory (messageHistory w ++ [m]) w)).

(** The socket [triggerWsConnection] makes for the stored join [j]. *)
Definition connecting (attempt : nat) (j : JoinChannel) : WebSocket :=
  {| wsId := attempt; wsUrl := endpoint j; readyState := CONNECTING |}.

(** The envelopes the tabs hand over in a trace, in trace order. *)
Definition enqueued (ev : Event) : list KiteMsg :=
  match ev with
  | TabMessage _ (Content m) => [envelope_of m]
  | _ => []
  end.

Definition envelopes (trace : list (Z * Event)) : list KiteMsg :=
  flat_map (fun timed => enqueued (snd timed)) trace.

(** The frames written to the sockets, joins left out, in writing order. *)
Fixpoint envelope_frames (log : list Effect) : list KiteMsg :=
  match log with
  | [] => []
  | WsSend _ payload :: rest =>
      if is_join payload then envelope_frames rest
      else payload :: envelope_frames rest
  | _ :: rest => envelope_frames rest
  end.

(** No join waits on the queue. *)
Definition pending_ok (w : Worker) : Prop :=
  Forall (fun payload => is_join payload = false) (outgoingQueue w).

(** [handed_over es w]: the envelopes [es] are, in this order, the frames
    already written followed by the envelopes still queued. *)
Definition handed_over (es : list KiteMsg) (w : Worker) : Prop :=
  pending_ok w /\ envelope_frames (effects w) ++ outgoingQueue w = es.


(** A tab joins, sends a message that has to wait for the socket, and
    sends a file once the socket is open. *)
Definition send_wait_open_send : list (Z * Event) :=
  [(0, TabConnect 1%nat); (1, TabMessage 1%nat (Join cfg_lazy));
   (2, TabMessage 1%nat (Content (text_msg "m1" "hi")));
   (3, SocketOpen 0%nat);
   (4, TabMessage 1%nat (Content (file_msg "f1" "a.png")))].


(** Content messages from tabs, one event each. *)
Definition tab_sends (msgs : list (KiteMessagePort * ContentMsg)) : list (Z * Event) :=
  map (fun pm => (0, TabMessage (fst pm) (Content (snd pm)))) msgs.

Definition all_received (msgs : list (KiteMessagePort * ContentMsg)) (w : Worker)
  : Worker :=
  fold_left (fun acc pm => received (snd pm) (fst pm) acc) msgs w.

(** The posts that tell the other tabs of each message in turn. *)
Definition told (msgs : list (KiteMessagePort * ContentMsg))
    (tabs : list KiteMessagePort) : list Effect :=
  flat_map (fun pm => posts (Content (snd pm)) (Some (fst pm)) tabs) msgs.

(** What [ws?.close()] in [onOffline] logs. *)
Definition offline_close (w : Worker) : list Effect :=
  match ws w with
  | Some s => if is_open s then [WsClose (wsId s) None None] else []
  | None => []
  end.

(** The network goes down, the tabs send [msgs], the network comes back
    and the socket made then opens. *)
Definition offline_then_back (w : Worker)
    (msgs : list (KiteMessagePort * ContentMsg)) (back opened : Z)
  : list (Z * Event) :=
  (0, NetOffline) :: tab_sends msgs
    ++ [(back, NetOnline); (opened, SocketOpen (reconnectionAttempts w))].


(** Effects that reach a tab or are the report of a dropped promise. *)
Definition to_tabs_only (e : Effect) : bool :=
  match e with
  | PostMessage _ _ | UnhandledRejection _ => true
  | _ => false
  end.

(** The endpoints of the sockets created so far. *)
Definition dialled (log : list Effect) : list string :=
  flat_map (fun e => match e with WsNew _ ep => [ep] | _ => [] end) log.

(** Every socket was created for the endpoint of the stored join. *)
Definition dials_stored (w : Worker) : Prop :=
  forall ep, ep ∈ dialled (effects w) ->
             exists cfg, joinChannel w = Some cfg /\ endpoint cfg = ep.

(** A tab joins lazily, another joins for a different endpoint and asks
    for an eager connection, a message is sent, the socket opens and
    closes after more than a minute. *)
Definition two_endpoints_asked : list (Z * Event) :=
  [(0, TabConnect 1%nat); (1, TabMessage 1%nat (Join cfg_lazy));
   (2, TabConnect 2%nat); (3, TabMessage 2%nat (Join cfg_elsewhere));
   (4, TabMessage 1%nat (Content (text_msg "m1" "hi")));
   (5, SocketOpen 0%nat); (70000, SocketClose 0%nat)].


(** ** The timeline container (the mixin of the same file) *)

Module Timeline.

(** The type of [el.timestamp] and of a [Date]; [new Date(timestamp)],
    and [formatDate] of utils, which is not among the sources.  What
    [new Date()] gives is read anew by every call of [appendDivider]: it
    is the argument [now] of the definitions below. *)
Class Calendar := {
  Timestamp : Type;
  Date : Type;
  newDate : Timestamp -> Date;
  formatDate : Date -> string }.

Section Dates.

Context {calendar : Calendar}.

(** An element assigned to the default slot: a [kite-date-divider] with
    its [date] ([None] when it is not set), or an element with a
    [timestamp] ([None] when it is falsy). *)
Inductive SlotElement :=
| Divider (date : option string)
| Timestamped (stamp : option Timestamp).

Definition isDivider (el : SlotElement) : bool :=
  match el with
  | Divider _ => true
  | Timestamped _ => false
  end.

(** [findLastIndex(pred)]: [-1] when nothing satisfies [pred]. *)
Definition findLastIndex {A} (pred : A -> bool) (l : list A) : Z :=
  match findLast pred l with
  | Some (i, _) => Z.of_nat i
  | None => -1
  end.

(** [el.timestamp] of an element read as a [TimestampElement]: a divider
    has none. *)
Definition timestampOf (el : SlotElement) : option Timestamp :=
  match el with
  | Timestamped stamp => stamp
  | Divider _ => None
  end.

(** [formatDate(el.timestamp ? new Date(el.timestamp) : new Date())] *)
Definition formatted (now : Date) (el : SlotElement) : string :=
  formatDate match timestampOf el with
             | Some stamp => newDate stamp
             | None => now
             end.

(** [currentDate === formatted], with [currentDate : string | null]. *)
Definition sameDate (currentDate : option string) (date : string) : bool :=
  match currentDate with
  | Some current => String.eqb current date
  | None => false
  end.

(** The loop over [toUpdate]: the first element whose date is not
    [currentDate] gets a divider of its date inserted before it, and the
    method returns. *)
Fixpoint insertDivider (now : Date) (currentDate : option string)
    (toUpdate : list SlotElement) : list SlotElement :=
  match toUpdate with
  | [] => []
  | el :: rest =>
      if sameDate currentDate (formatted now el)
      then el :: insertDivider now currentDate rest
      else Divider (Some (formatted now el)) :: el :: rest
  end.

(** The elements of the default slot after [appendDivider] has run on
    them, at a moment when [new Date()] gives [now]. *)
Definition appendDivider (now : Date) (els : list SlotElement) : list SlotElement :=
  let lastDivider := findLastIndex isDivider els in
  let toUpdate := drop (Z.to_nat (lastDivider + 1)) els in
  let currentDate :=
    match (if (lastDivider <? 0)%Z then None else els !! Z.to_nat lastDivider) with
    | Some (Divider (Some date)) => Some date
    | _ => None
    end in
  take (Z.to_nat (lastDivider + 1)) els ++ insertDivider now currentDate toUpdate.

(** [handleSlotchange] several times in a row, as an inserted divider
    changes the slot again: one call for each of [clocks], the moments
    of the calls. *)
Fixpoint slotchanges (clocks : list Date) (els : list SlotElement)
    : list SlotElement :=
  match clocks with
  | [] => els
  | now :: later => slotchanges later (appendDivider now els)
  end.

(** The slot after elements were appended one at a time, the slot change
    of each handled before the next: each arrival is the moment of the
    call and the timestamp of the element. *)
Definition appended (arrivals : list (Date * option Timestamp)) : list SlotElement :=
  fold_left
    (fun els arrival =>
       appendDivider (fst arrival) (els ++ [Timestamped (snd arrival)]))
    arrivals [].

(** The moments [clocks] date the elements [els] as [now] does. *)
Definition datedAlike (now : Date) (clocks : list Date) (els : list SlotElement)
    : Prop :=
  forall clock el, clock ∈ clocks -> el ∈ els -> formatted clock el = formatted now el.

(** *** Reading a timeline *)

Definition notDivider (el : SlotElement) : bool := negb (isDivider el).

(** No divider among [els]. *)
Definition undivided (els : list SlotElement) : bool := forallb notDivider els.

(** The elements that are not dividers, in slot order. *)
Definition timestamped (els : list SlotElement) : list SlotElement :=
  List.filter notDivider els.

(** The date of the last divider, [current] when there is none. *)
Fixpoint dateAtEnd (current : option string) (els : list SlotElement)
    : option string :=
  match els with
  | [] => current
  | Divider date :: rest => dateAtEnd date rest
  | Timestamped _ :: rest => dateAtEnd current rest
  end.

(** Every element that is not a divider has, read at [now], the date of
    the nearest divider before it. *)
Fixpoint wellDated (now : Date) (current : option string) (els : list SlotElement)
    : bool :=
  match els with
  | [] => true
  | Divider date :: rest => wellDated now date rest
  | el :: rest => sameDate current (formatted now el) && wellDated now current rest
  end.

(** A divider before every element whose date is not the one before it. *)
Fixpoint divided (now : Date) (current : option string) (els : list SlotElement)
    : list SlotElement :=
  match els with
  | [] => []
  | el :: rest =>
      if sameDate current (formatted now el)
      then el :: divided now current rest
      else Divider (Some (formatted now el)) :: el
             :: divided now (Some (formatted now el)) rest
  end.

(** [head] is empty, or ends with a divider, whose date is [current]. *)
Definition endsWithDivider (current : option string) (head : list SlotElement)
    : Prop :=
  (head = [] /\ current = None) \/
  exists before, head = before ++ [Divider current].

End Dates.

End Timeline.

(** A calendar in hours since the first day. *)
Definition dayOfHour (hour : Z) : string :=
  if (hour <? 24)%Z then "day 1" else if (hour <? 48)%Z then "day 2" else "later".

#[local] Instance hours : Timeline.Calendar :=
  {| Timeline.Timestamp := Z; Timeline.Date := Z;
     Timeline.newDate := fun hour => hour;
     Timeline.formatDate := dayOfHour |}.

(** An element of the first day under its divider, and the divider
    repeated. *)
Definition first_day_divided : list (@Timeline.SlotElement hours) :=
  [Timeline.Divider (Some "day 1"); Timeline.Timestamped (Some 1);
   Timeline.Divider (Some "day 1")].

(** One more of the first day and two of the second. *)
Definition three_undivided : list (@Timeline.SlotElement hours) :=
  [Timeline.Timestamped (Some 3); Timeline.Timestamped (Some 30);
   Timeline.Timestamped (Some 31)].

(** Three elements arrive on the first day: one of that day, one without
    a timestamp, and one that is stamped with the second day. *)
Definition three_arrivals : list (Z * option Z) :=
  [(5, Some 3); (6, None); (7, Some 40)].


(** ** The chat element (kite-chat-component) *)

Module Element.

(** [KiteMsg = PlaintextMsg | FileMsg] of the component: the optional
    fields of [BaseMsg] and what tells the two apart ([batchId] and
    [totalFiles] are not read by the element). *)
Inductive Content :=
| Text (text : string)
| Attached (file : File).

Record KiteMsg := {
  messageId : option string;
  timestamp : option Z;
  status : option MsgStatus;
  content : Content }.

(** A [kite-msg] child as [appendMsg] builds it: [innerText] or one
    [kite-file] child. *)
Record KiteMsgElement := {
  el_messageId : string;
  el_timestamp : Z;
  el_status : option MsgStatus;
  el_content : Content }.

(** The custom events of the element: [kite-chat.show], [kite-chat.hide]
    and [kite-chat.send] with its [detail]. *)
Inductive ChatEvent :=
| ShowEvent
| HideEvent
| SendEvent (detail : KiteMsg).

(** The element: its reactive fields, the [value] of its textarea, its
    slotted [kite-msg] children in document order, and the events it has
    dispatched so far. *)
Record KiteChatElement := {
  open : bool;
  sendEnabled : bool;
  selectedMessages : list string;
  textarea : string;
  messageElements : list KiteMsgElement;
  dispatched : list ChatEvent }.

Definition set_open (v : bool) (k : KiteChatElement) : KiteChatElement :=
  {| open := v; sendEnabled := sendEnabled k;
     selectedMessages := selectedMessages k; textarea := textarea k;
     messageElements := messageElements k; dispatched := dispatched k |}.

Definition set_sendEnabled (v : bool) (k : KiteChatElement) : KiteChatElement :=
  {| open := open k; sendEnabled := v;
     selectedMessages := selectedMessages k; textarea := textarea k;
     messageElements := messageElements k; dispatched := dispatched k |}.

Definition set_selectedMessages (v : list string) (k : KiteChatElement)
    : KiteChatElement :=
  {| open := open k; sendEnabled := sendEnabled k;
     selectedMessages := v; textarea := textarea k;
     messageElements := messageElements k; dispatched := dispatched k |}.

Definition set_textarea (v : string) (k : KiteChatElement) : KiteChatElement :=
  {| open := open k; sendEnabled := sendEnabled k;
     selectedMessages := selectedMessages k; textarea := v;
     messageElements := messageElements k; dispatched := dispatched k |}.

Definition set_messageElements (v : list KiteMsgElement) (k : KiteChatElement)
    : KiteChatElement :=
  {| open := open k; sendEnabled := sendEnabled k;
     selectedMessages := selectedMessages k; textarea := textarea k;
     messageElements := v; dispatched := dispatched k |}.

Definition set_dispatched (v : list ChatEvent) (k : KiteChatElement)
    : KiteChatElement :=
  {| open := open k; sendEnabled := sendEnabled k;
     selectedMessages := selectedMessages k; textarea := textarea k;
     messageElements := messageElements k; dispatched := v |}.

(** The element as its class fields initialise it, with no children. *)
Definition created : KiteChatElement :=
  {| open := false; sendEnabled := false; selectedMessages := [];
     textarea := ""; messageElements := []; dispatched := [] |}.

Section Listeners.

(** The listeners on the element, as far as the element can tell:
    whether one of them calls [preventDefault] on the event.  They are
    taken not to call back into the element while it dispatches. *)
Variable defaultPrevented : ChatEvent -> bool.

(** [this.dispatchEvent(e)] *)
Definition dispatchEvent (e : ChatEvent) (k : KiteChatElement) : KiteChatElement :=
  set_dispatched (dispatched k ++ [e]) k.

Definition _dispatchMsg (detail : KiteMsg) (k : KiteChatElement)
    : KiteChatElement * bool :=
  (dispatchEvent (SendEvent detail) k, negb (defaultPrevented (SendEvent detail))).

Definition hide (k : KiteChatElement) : KiteChatElement :=
  if negb (open k) then k
  else
    let k := dispatchEvent HideEvent k in
    if negb (defaultPrevented HideEvent) then set_open false k else k.

Definition show (k : KiteChatElement) : KiteChatElement :=
  if open k then k
  else
    let k := dispatchEvent ShowEvent k in
    if negb (defaultPrevented ShowEvent) then set_open true k else k.

Definition _toggleOpen (k : KiteChatElement) : KiteChatElement :=
  if open k then hide k else show k.

(** [randomId] and [now] are the [randomStringId()] and [new Date()] of
    the defaults, evaluated only where a field is missing. *)
Definition appendMsg (randomId : string) (now : Z) (msg : KiteMsg)
    (k : KiteChatElement) : KiteChatElement :=
  let msgElement :=
    {| el_messageId := default randomId (messageId msg);
       el_timestamp := default now (timestamp msg);
       el_status := status msg;
       el_content := content msg |} in
  show (set_messageElements (messageElements k ++ [msgElement]) k).

Definition _handleEnabled (k : KiteChatElement) : KiteChatElement :=
  set_sendEnabled (0 <? String.length (textarea k))%nat k.

(** [randomId] and [now] are the [randomStringId()] and [new Date()] of
    the message. *)
Definition _sendText (randomId : string) (now : Z) (k : KiteChatElement)
    : KiteChatElement :=
  if (0 <? String.length (textarea k))%nat then
    let message :=
      {| messageId := Some randomId; timestamp := Some now;
         status := Some unknown; content := Text (textarea k) |} in
    let (k, notPrevented) := _dispatchMsg message k in
    if notPrevented
    then _handleEnabled (set_textarea "" (appendMsg randomId now message k))
    else k
  else k.

Definition _handleKeyUp (key : string) (ctrlKey : bool) (randomId : string)
    (now : Z) (k : KiteChatElement) : KiteChatElement :=
  if String.eqb key "Enter" && ctrlKey then _sendText randomId now k else k.

(** The loop over [target.files]; each file comes with the id and the
    date its message gets. *)
Definition _sendFile (files : list (File * string * Z)) (k : KiteChatElement)
    : KiteChatElement :=
  fold_left
    (fun k '(file, randomId, now) =>
       let message :=
         {| messageId := Some randomId; timestamp := Some now;
            status := Some unknown; content := Attached file |} in
       let (k, notPrevented) := _dispatchMsg message k in
       if notPrevented then appendMsg randomId now message k else k)
    files k.

(** [target] is the [messageId] of [e.target] when that is a [kite-msg],
    [selected] is [e.detail.selected]. *)
Definition onMsgSelected (target : option string) (selected : bool)
    (k : KiteChatElement) : KiteChatElement :=
  match target with
  | Some id =>
      if selected
      then set_selectedMessages (selectedMessages k ++ [id]) k
      else set_selectedMessages
             (List.filter (fun other => negb (String.eqb id other))
                (selectedMessages k)) k
  | None => k
  end.

(** [selectedMessages.includes(id)] *)
Definition includes (id : string) (ids : list string) : bool :=
  existsb (String.eqb id) ids.

Definition _delete (k : KiteChatElement) : KiteChatElement :=
  set_selectedMessages []
    (set_messageElements
       (List.filter
          (fun msgElement =>
             negb (includes (el_messageId msgElement) (selectedMessages k)))
          (messageElements k)) k).

(** What reaches the element: the user at the textarea, the send
    control, the keyboard, the file input, the toggle, the close and the
    delete control, a [select] event of a child, and the page calling the
    public methods or writing the public property [open] (or its
    attribute, which the property reflects). *)
Inductive Action :=
| TypeText (value : string)
| ClickSend (randomId : string) (now : Z)
| KeyUp (key : string) (ctrlKey : bool) (randomId : string) (now : Z)
| ChooseFiles (files : list (File * string * Z))
| ClickToggle
| SelectEvent (target : option string) (selected : bool)
| ClickDelete
| CallAppendMsg (randomId : string) (now : Z) (msg : KiteMsg)
| CallShow
| CallHide
| SetOpen (value : bool).

(** One action.  Typing sets the [value] of the textarea and fires
    [input]; a write of [open] dispatches nothing. *)
Definition act (a : Action) (k : KiteChatElement) : KiteChatElement :=
  match a with
  | TypeText value => _handleEnabled (set_textarea value k)
  | ClickSend randomId now => _sendText randomId now k
  | KeyUp key ctrlKey randomId now => _handleKeyUp key ctrlKey randomId now k
  | ChooseFiles files => _sendFile files k
  | ClickToggle => _toggleOpen k
  | SelectEvent target selected => onMsgSelected target selected k
  | ClickDelete => _delete k
  | CallAppendMsg randomId now msg => appendMsg randomId now msg k
  | CallShow => show k
  | CallHide => hide k
  | SetOpen value => set_open value k
  end.

(** The page writes [open] itself. *)
Definition writesOpen (a : Action) : bool :=
  match a with
  | SetOpen _ => true
  | _ => false
  end.

Definition acts (k : KiteChatElement) (actions : list Action) : KiteChatElement :=
  fold_left (fun k a => act a k) actions k.

(** *** Reading runs of the element *)

(** [open] as a listener can follow it from the events alone. *)
Definition heard (open : bool) (e : ChatEvent) : bool :=
  match e with
  | ShowEvent => if defaultPrevented ShowEvent then open else true
  | HideEvent => if defaultPrevented HideEvent then open else false
  | SendEvent _ => open
  end.

(** Whether [id] is selected after the actions, when it was [before]:
    the last [select] event of a child with this id decides, and the
    delete control clears. *)
Definition chosen (id : string) (before : bool) (a : Action) : bool :=
  match a with
  | SelectEvent (Some target) selected =>
      if String.eqb target id then selected else before
  | ClickDelete => false
  | _ => before
  end.

(** What a handler may have done to the element between [k] and [k']:
    dispatch events, and open or close as those events went. *)
Definition follows (k k' : KiteChatElement) : Prop :=
  exists new,
    dispatched k' = dispatched k ++ new /\
    open k' = fold_left heard new (open k).

(** The fields no event dispatch touches. *)
Definition draft (k : KiteChatElement) : string * bool * list string :=
  (textarea k, sendEnabled k, selectedMessages k).

End Listeners.

End Element.

(** Listeners that veto nothing, as the tab controller's. *)
Definition no_veto (e : Element.ChatEvent) : bool := false.

(** Listeners that veto every [kite-chat.send]. *)
Definition veto_send (e : Element.ChatEvent) : bool :=
  match e with
  | Element.SendEvent _ => true
  | _ => false
  end.

Definition draft_hello : Element.KiteChatElement :=
  Element.set_sendEnabled true (Element.set_textarea "hello" Element.created).


(** ** The tabs among themselves (the broadcast channel of [KiteChat]) *)

Module Channel.

(** The two timer callbacks of [initClient]: the outer one, which
    announces, and the one it schedules, which connects a tab that has no
    [kiteWebsocket]. *)
Inductive Callback := Announce | ConnectIfIdle.

(** What the tab does to the outside, in program order. *)
Inductive Did :=
| PostMessage (type : MsgType)
| SetTimeout (id : nat) (callback : Callback) (delay : Z)
| ClearTimeout (id : nat)
| NewKiteWebsocket
| KiteJoin
| KiteDisconnect.

(** The tab: whether [kiteWebsocket] is set, the timer id in
    [connectionTimeout] (ids are positive, so a set field is truthy), and
    of the browser the timers that are armed and neither fired nor
    cleared, and the id the next timer gets. *)
Record KiteChat := {
  kiteWebsocket : bool;
  connectionTimeout : option nat;
  timers : list (nat * Callback);
  nextTimer : nat;
  did : list Did }.

Definition KITE_RECONNECT_TIMEOUT : Z := 1000.

(** A tab before [initClient]. *)
Definition constructed : KiteChat :=
  {| kiteWebsocket := false; connectionTimeout := None; timers := [];
     nextTimer := 1; did := [] |}.

Definition does (d : Did) (k : KiteChat) : KiteChat :=
  {| kiteWebsocket := kiteWebsocket k; connectionTimeout := connectionTimeout k;
     timers := timers k; nextTimer := nextTimer k; did := did k ++ [d] |}.

Definition set_kiteWebsocket (v : bool) (k : KiteChat) : KiteChat :=
  {| kiteWebsocket := v; connectionTimeout := connectionTimeout k;
     timers := timers k; nextTimer := nextTimer k; did := did k |}.

Definition set_connectionTimeout (v : option nat) (k : KiteChat) : KiteChat :=
  {| kiteWebsocket := kiteWebsocket k; connectionTimeout := v;
     timers := timers k; nextTimer := nextTimer k; did := did k |}.

(** [setTimeout(callback, delay)], which returns the new id. *)
Definition setTimeout (callback : Callback) (delay : Z) (k : KiteChat)
    : KiteChat * nat :=
  let id := nextTimer k in
  ({| kiteWebsocket := kiteWebsocket k; connectionTimeout := connectionTimeout k;
      timers := timers k ++ [(id, callback)]; nextTimer := S id;
      did := did k ++ [SetTimeout id callback delay] |}, id).

Definition disarmed (id : nat) (pending : list (nat * Callback))
    : list (nat * Callback) :=
  List.filter (fun timer => negb (fst timer =? id)%nat) pending.

(** [clearTimeout(id)] *)
Definition clearTimeout (id : nat) (k : KiteChat) : KiteChat :=
  {| kiteWebsocket := kiteWebsocket k; connectionTimeout := connectionTimeout k;
     timers := disarmed id (timers k); nextTimer := nextTimer k;
     did := did k ++ [ClearTimeout id] |}.

Section Options.

(** Whether [new URL(opts.endpoint)] parses and passes the two asserts
    of [connect]. *)
Variable endpointAccepted : bool.

Definition initClient (k : KiteChat) : KiteChat :=
  let k := does (PostMessage JOIN) k in
  let (k, id) := setTimeout Announce KITE_RECONNECT_TIMEOUT k in
  set_connectionTimeout (Some id) k.

(** [connect]; where the endpoint is refused it throws with the new
    [KiteWebsocket] dropped. *)
Definition connect (k : KiteChat) : KiteChat :=
  let k := does NewKiteWebsocket k in
  if endpointAccepted then set_kiteWebsocket true (does KiteJoin k) else k.

Definition disconnect (k : KiteChat) : KiteChat :=
  set_kiteWebsocket false
    (if kiteWebsocket k then does KiteDisconnect k else k).

Definition onChannelMessage (type : MsgType) (k : KiteChat) : KiteChat :=
  match type with
  | CONNECTED => disconnect k
  | JOIN =>
      match connectionTimeout k with
      | Some id => clearTimeout id k
      | None => k
      end
  | _ => k
  end.

(** The body of a timer callback. *)
Definition callback (c : Callback) (k : KiteChat) : KiteChat :=
  match c with
  | Announce =>
      let k := does (PostMessage CONNECTED) k in
      fst (setTimeout ConnectIfIdle 0 k)
  | ConnectIfIdle => if negb (kiteWebsocket k) then connect k else k
  end.

(** What the browser runs on the tab: [initClient] (from the constructor
    and whenever the page becomes visible), a message of another tab on
    the channel, and a timer that is due, which runs only if it is still
    armed. *)
Inductive Task :=
| InitClient
| ChannelMessage (type : MsgType)
| Due (id : nat).

Definition armed (id : nat) (pending : list (nat * Callback)) : option Callback :=
  snd <$> List.find (fun timer => (fst timer =? id)%nat) pending.

Definition task (t : Task) (k : KiteChat) : KiteChat :=
  match t with
  | InitClient => initClient k
  | ChannelMessage type => onChannelMessage type k
  | Due id =>
      match armed id (timers k) with
      | Some c =>
          callback c
            {| kiteWebsocket := kiteWebsocket k;
               connectionTimeout := connectionTimeout k;
               timers := disarmed id (timers k); nextTimer := nextTimer k;
               did := did k |}
      | None => k
      end
  end.

Definition tasks (k : KiteChat) (ts : list Task) : KiteChat :=
  fold_left (fun k t => task t k) ts k.

(** *** Reading runs of a tab *)

Definition isInit (t : Task) : bool :=
  match t with InitClient => true | _ => false end.

Definition isMessage (t : Task) : bool :=
  match t with ChannelMessage _ => true | _ => false end.

(** A message of another tab that is not a join. *)
Definition isOtherMessage (t : Task) : bool :=
  match t with
  | ChannelMessage JOIN => false
  | ChannelMessage _ => true
  | _ => false
  end.

Definition posted (type : MsgType) (d : Did) : bool :=
  match d, type with
  | PostMessage JOIN, JOIN => true
  | PostMessage CONNECTED, CONNECTED => true
  | _, _ => false
  end.

Definition created (d : Did) : bool :=
  match d with NewKiteWebsocket => true | _ => false end.

Definition count {A} (pred : A -> bool) (l : list A) : nat :=
  length (List.filter pred l).

Arguments count : simpl never.

Definition waiting (c : Callback) (timer : nat * Callback) : bool :=
  match snd timer, c with
  | Announce, Announce => true
  | ConnectIfIdle, ConnectIfIdle => true
  | _, _ => false
  end.

(** Every socket was announced, every announcement was preceded by a
    join of this tab, the timers that are still to run counted in. *)
Definition announced (k : KiteChat) : Prop :=
  (count created (did k) + count (waiting ConnectIfIdle) (timers k)
   <= count (posted CONNECTED) (did k))%nat /\
  (count (posted CONNECTED) (did k) + count (waiting Announce) (timers k)
   <= count (posted JOIN) (did k))%nat.

End Options.

End Channel.


(** ** Listeners that are bound where they are registered *)

Module Listeners.

(** A function object, by its identity.  [f.bind(this)] makes a new
    function object on every call: the counter [nextBound] of a record
    below is the identity the next one gets. *)
Definition Fn := nat.

(** The listeners of one event target for one event type, in the order
    they were registered.  [addEventListener] ignores a listener that is
    registered already, [removeEventListener] removes the listener that
    is the same function object. *)
Definition registered (f : Fn) (listeners : list Fn) : bool :=
  existsb (Nat.eqb f) listeners.

Definition addEventListener (f : Fn) (listeners : list Fn) : list Fn :=
  if registered f listeners then listeners else listeners ++ [f].

Definition removeEventListener (f : Fn) (listeners : list Fn) : list Fn :=
  List.filter (fun g => negb (g =? f)%nat) listeners.

(** *** anchor-controller *)

(** The controller: the [resize] listeners of the window and the
    [toggle] listeners of the popover, its field [handleToggleBound],
    and whether the shadow root holds the popover, which it does once
    the host has rendered. *)
Record AnchorController := {
  resize : list Fn;
  toggle : list Fn;
  handleToggleBound : option Fn;
  popoverElement : bool;
  nextBound : Fn }.

Definition constructed : AnchorController :=
  {| resize := []; toggle := []; handleToggleBound := None;
     popoverElement := false; nextBound := 0%nat |}.

(** Three calls of [bind]: for the window, for the field, and for the
    observer. *)
Definition hostConnected (c : AnchorController) : AnchorController :=
  let forWindow := nextBound c in
  let forToggle := S forWindow in
  let forObserver := S forToggle in
  {| resize := addEventListener forWindow (resize c);
     toggle := toggle c;
     handleToggleBound := Some forToggle;
     popoverElement := popoverElement c;
     nextBound := S forObserver |}.

Definition hostUpdate (c : AnchorController) : AnchorController :=
  if popoverElement c then
    {| resize := resize c;
       toggle := match handleToggleBound c with
                 | Some f => removeEventListener f (toggle c)
                 | None => toggle c
                 end;
       handleToggleBound := handleToggleBound c;
       popoverElement := true;
       nextBound := nextBound c |}
  else c.

(** The host has rendered by now. *)
Definition hostUpdated (c : AnchorController) : AnchorController :=
  {| resize := resize c;
     toggle := match handleToggleBound c with
               | Some f => addEventListener f (toggle c)
               | None => toggle c
               end;
     handleToggleBound := handleToggleBound c;
     popoverElement := true;
     nextBound := nextBound c |}.

Definition hostDisconnected (c : AnchorController) : AnchorController :=
  let bound := nextBound c in
  {| resize := removeEventListener bound (resize c);
     toggle := toggle c;
     handleToggleBound := handleToggleBound c;
     popoverElement := popoverElement c;
     nextBound := S bound |}.

Inductive Callback := HostConnected | HostUpdate | HostUpdated | HostDisconnected.

Definition call (cb : Callback) (c : AnchorController) : AnchorController :=
  match cb with
  | HostConnected => hostConnected c
  | HostUpdate => hostUpdate c
  | HostUpdated => hostUpdated c
  | HostDisconnected => hostDisconnected c
  end.

Definition calls (c : AnchorController) (cbs : list Callback) : AnchorController :=
  fold_left (fun c cb => call cb c) cbs c.

Definition isHostConnected (cb : Callback) : bool :=
  match cb with HostConnected => true | _ => false end.

(** *** The slot of the timeline container *)

(** The [slotchange] listeners of the default slot. *)
Record Slot := {
  slotchange : list Fn;
  slotNextBound : Fn }.

Definition firstUpdated (s : Slot) : Slot :=
  {| slotchange := addEventListener (slotNextBound s) (slotchange s);
     slotNextBound := S (slotNextBound s) |}.

Definition disconnectedCallback (s : Slot) : Slot :=
  {| slotchange := removeEventListener (slotNextBound s) (slotchange s);
     slotNextBound := S (slotNextBound s) |}.

Inductive SlotCallback := FirstUpdated | DisconnectedCallback.

Definition slotCalls (s : Slot) (cbs : list SlotCallback) : Slot :=
  fold_left (fun s cb => match cb with
                         | FirstUpdated => firstUpdated s
                         | DisconnectedCallback => disconnectedCallback s
                         end) cbs s.

Definition isFirstUpdated (cb : SlotCallback) : bool :=
  match cb with FirstUpdated => true | _ => false end.

(** *** The click listener of [KiteChat] *)

(** The [click] listeners of the window and the number of calls of
    [Notification.requestPermission]. *)
Record Page := {
  click : list Fn;
  permissionRequests : nat;
  pageNextBound : Fn }.

(** The last statement of the constructor of [KiteChat]. *)
Definition listenForClick (p : Page) : Page :=
  {| click := addEventListener (pageNextBound p) (click p);
     permissionRequests := permissionRequests p;
     pageNextBound := S (pageNextBound p) |}.

Definition handleUserInteraction (p : Page) : Page :=
  {| click := removeEventListener (pageNextBound p) (click p);
     permissionRequests := S (permissionRequests p);
     pageNextBound := S (pageNextBound p) |}.

(** One click: the listeners registered when it is dispatched run in
    order, each unless it was removed meanwhile; each is a bound
    [handleUserInteraction]. *)
Definition clicked (p : Page) : Page :=
  fold_left
    (fun p f => if registered f (click p) then handleUserInteraction p else p)
    (click p) p.

(** [chats] instances of [KiteChat] constructed, then [clicks] clicks. *)
Definition visited (chats clicks : nat) : Page :=
  Nat.iter clicks clicked
    (Nat.iter chats listenForClick
       {| click := []; permissionRequests := 0; pageNextBound := 0%nat |}).

(** Every listener was bound before [next]. *)
Definition bound_before (next : Fn) (listeners : list Fn) : Prop :=
  Forall (fun f => (f < next)%nat) listeners.

End Listeners.


(** A tab joins eagerly and queues a message while the socket is
    connecting; the network goes down before the socket has opened. *)
Definition offline_while_connecting : list (Z * Event) :=
  [(0, TabConnect 1%nat); (1, TabMessage 1%nat (Join cfg_eager));
   (2, TabMessage 1%nat (Content (text_msg "m1" "hi"))); (3, NetOffline)].


(** * Properties *)

(** ** Reading the monad *)

Lemma bind_normal {A B} (m : M A) (k : A -> M B) w w' a :
  m w = (w', Normal a) -> bind m k w = k a w'.
Proof. intros H. unfold bind. by rewrite H. Qed.

Lemma bind_throw {A B} (m : M A) (k : A -> M B) w w' e :
  m w = (w', Throw e) -> bind m k w = (w', Throw e).
Proof. intros H. unfold bind. by rewrite H. Qed.

(** ** The outgoing queue *)

Section OutgoingQueueFacts.

Variable send_any : KiteMsg -> M unit.

(** [send] does not write to the queue. *)
Hypothesis send_keeps_queue :
  forall e w, outgoingQueue (state_of (send_any e w)) = outgoingQueue w.

Lemma flushLoop_all_sent es :
  forall n w w',
    outgoingQueue w = es ->
    (length es <= n)%nat ->
    sent_in_order send_any es w w' ->
    flushLoop send_any n w = (w', Normal tt) /\ outgoingQueue w' = [].
Proof.
  induction es as [|e es IH]; intros n w w' Hq Hn Hs.
  - inversion Hs; subst. split; [|done].
    destruct n; simpl; [done|]. by rewrite Hq.
  - inversion Hs as [|? ? ? w1 ? Hsend Hrest]; subst.
    destruct n as [|n]; [simpl in Hn; lia|].
    simpl. rewrite Hq.
    rewrite (bind_normal _ _ _ _ _ Hsend).
    unfold bind at 1. simpl.
    apply IH; [|simpl in Hn; lia|done].
    unfold shift. simpl.
    pose proof (send_keeps_queue e w) as Hk.
    rewrite Hsend, Hq in Hk. simpl in Hk. by rewrite Hk.
Qed.

Lemma flushLoop_first_failure pre :
  forall n w w1 w2 e post x,
    outgoingQueue w = pre ++ e :: post ->
    (length pre < n)%nat ->
    sent_in_order send_any pre w w1 ->
    send_any e w1 = (w2, Throw x) ->
    flushLoop send_any n w = (w2, Throw x) /\ outgoingQueue w2 = e :: post.
Proof.
  induction pre as [|p pre IH]; intros n w w1 w2 e post x Hq Hn Hs Hfail.
  - inversion Hs; subst.
    destruct n as [|n]; [lia|].
    simpl. rewrite Hq. simpl.
    rewrite (bind_throw _ _ _ _ _ Hfail). split; [done|].
    pose proof (send_keeps_queue e w1) as Hk.
    rewrite Hfail in Hk. simpl in Hk. by rewrite Hk, Hq.
  - inversion Hs as [|? ? ? w0 ? Hsend Hrest]; subst.
    destruct n as [|n]; [lia|].
    simpl. rewrite Hq. simpl.
    rewrite (bind_normal _ _ _ _ _ Hsend).
    unfold bind at 1. simpl.
    apply (IH n (shift w0) w1); [|simpl in Hn; lia|done|done].
    unfold shift. simpl.
    pose proof (send_keeps_queue p w) as Hk.
    rewrite Hsend, Hq in Hk. simpl in Hk. by rewrite Hk.
Qed.

(** Every flush is one of the two cases above. *)
Lemma sent_or_first_failure es :
  forall w, outgoingQueue w = es ->
    (exists w', sent_in_order send_any es w w') \/
    (exists pre e post w1 w2 x,
        es = pre ++ e :: post /\ sent_in_order send_any pre w w1 /\
        send_any e w1 = (w2, Throw x)).
Proof.
  induction es as [|e es IH]; intros w Hq.
  - left. exists w. constructor.
  - destruct (send_any e w) as [w1 [[]|x]] eqn:Hsend.
    + assert (outgoingQueue (shift w1) = es) as Hq1.
      { unfold shift. simpl.
        pose proof (send_keeps_queue e w) as Hk.
        rewrite Hsend, Hq in Hk. simpl in Hk. by rewrite Hk. }
      destruct (IH _ Hq1) as [[w' Hs]|(pre & e' & post & wa & wb & x & -> & Hs & Hf)].
      * left. exists w'. by econstructor.
      * right. exists (e :: pre), e', post, wa, wb, x.
        split; [done|]. split; [by econstructor|done].
    + right. exists [], e, es, w, w1, x. split; [done|]. split; [constructor|done].
Qed.

End OutgoingQueueFacts.

Lemma flushQueue_with_empty send_any w :
  outgoingQueue w = [] -> flushQueue_with send_any w = (w, Normal tt).
Proof. intros Hq. unfold flushQueue_with, bind, gets. simpl. by rewrite Hq. Qed.

Lemma flushQueue_with_loop send_any w :
  flushQueue_with send_any w = flushLoop send_any (length (outgoingQueue w)) w.
Proof.
  unfold flushQueue_with, bind, gets. simpl.
  destruct (outgoingQueue w) eqn:Hq; simpl; [done|done].
Qed.

(** C1.  Whatever [send] is, as long as it leaves the queue alone:
    flushing an empty queue changes nothing and returns; when the sends of
    the whole queue return one after another, in queue order, the flush
    returns with the queue empty; when the sends of the envelopes before
    envelope [e] return and the send of [e] throws, the flush throws the
    same error right there, with [e] and everything behind it still
    queued in the original order; and every queue is in one of the last
    two cases. *)
Theorem flushQueue_fifo_stops_at_first_failure
    (send_any : KiteMsg -> M unit)
    (send_keeps_queue :
       forall e w, outgoingQueue (state_of (send_any e w)) = outgoingQueue w)
    (w : Worker) :
  (outgoingQueue w = [] -> flushQueue_with send_any w = (w, Normal tt)) /\
  (forall w',
      sent_in_order send_any (outgoingQueue w) w w' ->
      flushQueue_with send_any w = (w', Normal tt) /\ outgoingQueue w' = []) /\
  (forall pre e post w1 w2 x,
      outgoingQueue w = pre ++ e :: post ->
      sent_in_order send_any pre w w1 ->
      send_any e w1 = (w2, Throw x) ->
      flushQueue_with send_any w = (w2, Throw x) /\
      outgoingQueue w2 = e :: post) /\
  ((exists w', sent_in_order send_any (outgoingQueue w) w w') \/
   (exists pre e post w1 w2 x,
       outgoingQueue w = pre ++ e :: post /\
       sent_in_order send_any pre w w1 /\
       send_any e w1 = (w2, Throw x))).
Proof.
  split; [apply flushQueue_with_empty|].
  split.
  { intros w' Hs. rewrite flushQueue_with_loop.
    by apply (flushLoop_all_sent send_any send_keeps_queue (outgoingQueue w)). }
  split.
  { intros pre e post w1 w2 x Hq Hs Hf. rewrite flushQueue_with_loop.
    apply (flushLoop_first_failure send_any send_keeps_queue pre _ w w1); try done.
    rewrite Hq, length_app. simpl. lia. }
  by apply sent_or_first_failure.
Qed.

Lemma flushQueue_fifo_stops_at_first_failure_witness :
  let w1 := set_effects [WsSend 0 (Content (text_msg "m1" "a"))] (shift three_queued) in
  (forall e w, outgoingQueue (state_of (gone_after_one e w)) = outgoingQueue w) /\
  flushQueue_with gone_after_one three_queued = (w1, Throw "gone") /\
  outgoingQueue w1 = [Content (text_msg "m2" "b"); Content (text_msg "m3" "c")].
Proof.
  intros w1.
  assert (forall e w, outgoingQueue (state_of (gone_after_one e w)) = outgoingQueue w)
    as Hkeeps.
  { intros e w. unfold gone_after_one, bind, gets, emit, modify, throw. simpl.
    destruct (length (effects w) <? 1)%nat; reflexivity. }
  split; [exact Hkeeps|].
  destruct (flushQueue_fifo_stops_at_first_failure gone_after_one Hkeeps three_queued)
    as (_ & _ & Hfail & _).
  apply (Hfail [Content (text_msg "m1" "a")] (Content (text_msg "m2" "b"))
               [Content (text_msg "m3" "c")] w1 w1 "gone").
  - reflexivity.
  - eapply sent_next; [reflexivity|]. apply sent_none.
  - reflexivity.
Defined.

(** ** The worker's own [send] *)

Lemma send_keeps_queue e w : outgoingQueue (state_of (send e w)) = outgoingQueue w.
Proof.
  unfold send, bind, gets, assert, emit, modify, throw, ret. simpl.
  destruct (ws w) as [s|]; [|done]. by destruct (is_open s).
Qed.

Lemma send_open e w s :
  ws w = Some s -> is_open s = true ->
  send e w = (set_effects (effects w ++ [WsSend (wsId s) e]) w, Normal tt).
Proof.
  intros Hws Hopen. unfold send, bind, gets, assert, emit, modify, ret. simpl.
  by rewrite Hws, Hopen.
Qed.

Lemma send_not_open e w :
  match ws w with Some s => is_open s | None => false end = false ->
  exists x, send e w = (w, Throw x).
Proof.
  intros H. unfold send, bind, gets, assert, emit, modify, throw, ret. simpl.
  destruct (ws w) as [s|]; [|by eexists]. rewrite H. by eexists.
Qed.

Lemma flushLoop_open s :
  forall queue n w,
    ws w = Some s -> is_open s = true ->
    outgoingQueue w = queue -> (length queue <= n)%nat ->
    flushLoop send n w =
      (set_outgoingQueue []
         (set_effects (effects w ++ map (WsSend (wsId s)) queue) w), Normal tt).
Proof.
  induction queue as [|e queue IH]; intros n w Hws Hopen Hq Hn.
  - destruct w; simpl in *; subst.
    unfold set_outgoingQueue, set_effects. simpl. rewrite app_nil_r.
    destruct n; reflexivity.
  - destruct n as [|n]; [simpl in Hn; lia|].
    simpl. rewrite Hq.
    rewrite (bind_normal _ _ _ _ _ (send_open e w s Hws Hopen)).
    unfold bind at 1. simpl.
    rewrite (IH n).
    + destruct w; simpl in *; subst.
      unfold shift, set_outgoingQueue, set_effects. simpl.
      by rewrite <- app_assoc.
    + done.
    + done.
    + unfold shift. simpl. by rewrite Hq.
    + simpl in Hn. lia.
Qed.

Lemma flushQueue_open w s :
  ws w = Some s -> is_open s = true ->
  flushQueue w =
    (set_outgoingQueue []
       (set_effects (effects w ++ map (WsSend (wsId s)) (outgoingQueue w)) w),
     Normal tt).
Proof.
  intros Hws Hopen. unfold flushQueue. rewrite flushQueue_with_loop.
  by apply (flushLoop_open s).
Qed.

(** What [onWsOpen] writes when the held socket is open. *)
Lemma onWsOpen_result (now : Z) (w : Worker)
    (s : WebSocket) (j : JoinChannel) :
  ws w = Some s ->
  readyState s = OPEN ->
  joinChannel w = Some j ->
  onWsOpen now w =
    (set_effects
       (effects w
          ++ WsSend (wsId s) (Join j)
             :: map (WsSend (wsId s)) (outgoingQueue w)
          ++ posts Online None (tabPorts w))
       (set_outgoingQueue [] (set_connectedTimestampMs now w)),
     Normal tt).
Proof.
  intros Hws Hready Hjoin.
  assert (is_open s = true) as Hopen by (unfold is_open; by rewrite Hready).
  unfold onWsOpen.
  unfold bind at 1. simpl.
  unfold bind at 1. simpl. rewrite Hjoin.
  rewrite (bind_normal _ _ _ _ _
             (send_open (Join j) (set_connectedTimestampMs now w) s Hws Hopen)).
  erewrite bind_normal; [|apply (flushQueue_open _ s); done].
  unfold broadcast, modify. simpl. f_equal.
  destruct w; simpl in *.
  unfold set_effects, set_outgoingQueue, set_connectedTimestampMs. simpl.
  f_equal. rewrite <- !app_assoc. reflexivity.
Qed.

(** ** Joins *)

Lemma truthy_js_or a b : truthy (js_or a b) = truthy a || truthy b.
Proof. unfold js_or. destruct (truthy a) eqn:Ha; simpl; [done|done]. Qed.

Lemma js_or_same a : js_or a a = a.
Proof. unfold js_or. by destruct (truthy a). Qed.

(** The stored configuration after one join, thrown or not. *)
Lemma onJoinChannel_stored j w :
  let current := default j (joinChannel w) in
  joinChannel (state_of (onJoinChannel j w)) =
    Some (with_eagerlyConnect
            (js_or (eagerlyConnect current) (eagerlyConnect j)) current).
Proof.
  unfold onJoinChannel, bind, gets, modify, assert, when, triggerWsConnection,
    emit, modify, throw, ret, state_of.
  simpl.
  destruct (joinChannel w) as [cfg|]; simpl.
  - destruct (String.eqb (endpoint cfg) (endpoint j)); simpl; [|done].
    destruct (ws w); simpl; [done|].
    destruct (truthy (js_or (eagerlyConnect cfg) (eagerlyConnect j))); done.
  - rewrite String.eqb_refl. simpl.
    destruct (ws w); simpl; [done|].
    destruct (truthy (js_or (eagerlyConnect j) (eagerlyConnect j))); done.
Qed.

(** A join for another endpoint: the flag is merged, then the assertion
    throws; nothing else is written. *)
Lemma onJoinChannel_conflict j w cfg :
  joinChannel w = Some cfg ->
  endpoint j <> endpoint cfg ->
  onJoinChannel j w =
    (set_joinChannel
       (Some (with_eagerlyConnect
                (js_or (eagerlyConnect cfg) (eagerlyConnect j)) cfg)) w,
     Throw conflict_message).
Proof.
  intros Hcfg Hne.
  unfold onJoinChannel, bind, gets, modify, assert, throw. simpl.
  rewrite Hcfg. simpl.
  destruct (String.eqb_spec (endpoint cfg) (endpoint j)) as [Heq|_]; [|done].
  by destruct Hne.
Qed.

Lemma joins_stored js :
  forall w cfg,
    joinChannel w = Some cfg ->
    exists flag,
      joinChannel (joins w js) = Some (with_eagerlyConnect flag cfg) /\
      truthy flag =
        truthy (eagerlyConnect cfg)
        || existsb (fun j => truthy (eagerlyConnect j)) js.
Proof.
  induction js as [|j js IH]; intros w cfg Hcfg.
  - exists (eagerlyConnect cfg). simpl. rewrite orb_false_r.
    split; [|done]. rewrite Hcfg. by destruct cfg.
  - simpl.
    pose proof (onJoinChannel_stored j w) as Hstep. simpl in Hstep.
    rewrite Hcfg in Hstep. simpl in Hstep.
    destruct (IH _ _ Hstep) as (flag & Hflag & Htruthy).
    exists flag. split; [exact Hflag|].
    rewrite Htruthy. simpl. rewrite truthy_js_or. by rewrite orb_assoc.
Qed.

Lemma joins_first first later w :
  joinChannel w = None ->
  exists flag,
    joinChannel (joins w (first :: later)) = Some (with_eagerlyConnect flag first) /\
    truthy flag = existsb (fun j => truthy (eagerlyConnect j)) (first :: later).
Proof.
  intros Hnone. simpl.
  pose proof (onJoinChannel_stored first w) as Hstep. simpl in Hstep.
  rewrite Hnone in Hstep. simpl in Hstep. rewrite js_or_same in Hstep.
  destruct (joins_stored later _ _ Hstep) as (flag & Hflag & Htruthy).
  exists flag. split; [exact Hflag|exact Htruthy].
Qed.

(** ** Acknowledgements *)

Lemma findLast_Some {A} (pred : A -> bool) (l : list A) :
  forall i x,
    findLast pred l = Some (i, x) ->
    l !! i = Some x /\ pred x = true /\
    (forall j y, (i < j)%nat -> l !! j = Some y -> pred y = false).
Proof.
  induction l as [|a l IH]; intros i x H; simpl in H; [done|].
  destruct (findLast pred l) as [[k y]|] eqn:Hrest.
  - inversion H; subst. destruct (IH _ _ eq_refl) as (Hl & Hp & Hlast).
    split; [done|]. split; [done|].
    intros j z Hj Hz. destruct j as [|j]; [lia|].
    apply (Hlast j); [lia|done].
  - destruct (pred a) eqn:Ha; [|done]. inversion H; subst.
    split; [done|]. split; [done|].
    intros j z Hj Hz. destruct j as [|j]; [lia|]. simpl in Hz.
    clear -Hrest Hz. revert j Hz.
    induction l as [|b l IHl]; intros j Hz; [done|].
    simpl in Hrest.
    destruct (findLast pred l) as [[k y]|] eqn:Hl; [done|].
    destruct (pred b) eqn:Hb; [done|].
    destruct j as [|j]; simpl in Hz; [by inversion Hz; subst|].
    by apply (IHl eq_refl j).
Qed.

Lemma findLast_None {A} (pred : A -> bool) (l : list A) :
  findLast pred l = None -> forall x, x ∈ l -> pred x = false.
Proof.
  induction l as [|a l IH]; intros H x Hx; [by apply elem_of_nil in Hx|].
  simpl in H.
  destruct (findLast pred l) as [[k y]|] eqn:Hl; [done|].
  destruct (pred a) eqn:Ha; [done|].
  apply elem_of_cons in Hx as [->|Hx]; [done|]. by apply IH.
Qed.

Lemma findLast_by_id (L : string) (history : list ContentMsg) :
  L ∈ map messageId history ->
  exists i msg,
    findLast (fun m => String.eqb (messageId m) L) history = Some (i, msg).
Proof.
  intros Hin.
  destruct (findLast (fun m => String.eqb (messageId m) L) history)
    as [[i msg]|] eqn:Hfind; [by eauto|].
  apply list_elem_of_fmap in Hin as (m & -> & Hm).
  pose proof (findLast_None _ _ Hfind m Hm) as Hfalse. simpl in Hfalse.
  by rewrite String.eqb_refl in Hfalse.
Qed.

Lemma onMessageAck_found a w i msg :
  findLast (fun m => String.eqb (messageId m) (ack_messageId a)) (messageHistory w)
    = Some (i, msg) ->
  onMessageAck a w =
    (set_effects (effects w ++ posts (Ack a) None (tabPorts w))
       (set_messageHistory (<[i := acked a msg]> (messageHistory w)) w),
     Normal tt).
Proof.
  intros Hfind. unfold onMessageAck, bind, gets, modify, broadcast, modify.
  simpl. by rewrite Hfind.
Qed.

(** C2, as the worker does it by design.  When [onMessageAck] is called
    with an Ack for local id [L] and canonical id [C] and the history has
    an entry with id [L], the handler returns; the last such entry, at
    position [i], is rewritten where it stands: it now has id [C] and
    status delivered and is otherwise as before, no other entry moves or
    changes, and if ids were unique beforehand no entry other than the
    rewritten one has id [L] afterwards.  What goes to the tabs is the
    Ack itself, to every tab, and nothing else.  The statement is about
    the history and the posts of the handler: how the frame handler
    reads the Ack off the socket and what the rewrite does to an envelope
    that is still queued are not part of it. *)
Theorem ack_rewrites_last_entry_and_forwards_ack (w : Worker) (a : MsgAck) :
  ack_messageId a ∈ map messageId (messageHistory w) ->
  exists i msg,
    messageHistory w !! i = Some msg /\
    messageId msg = ack_messageId a /\
    (forall j m, (i < j)%nat -> messageHistory w !! j = Some m ->
                 messageId m <> ack_messageId a) /\
    completion_of (onMessageAck a w) = Normal tt /\
    messageHistory (state_of (onMessageAck a w))
      = <[i := acked a msg]> (messageHistory w) /\
    effects (state_of (onMessageAck a w))
      = effects w ++ posts (Ack a) None (tabPorts w) /\
    <[i := acked a msg]> (messageHistory w) !! i =
      Some {| messageId := destiationMessageId a; timestamp := timestamp msg;
              status := delivered; edited := edited msg; body := body msg |} /\
    (forall j, j <> i ->
        <[i := acked a msg]> (messageHistory w) !! j = messageHistory w !! j) /\
    (NoDup (map messageId (messageHistory w)) ->
     forall j m, j <> i ->
        <[i := acked a msg]> (messageHistory w) !! j = Some m ->
        messageId m <> ack_messageId a).
Proof.
  intros Hin.
  destruct (findLast_by_id _ _ Hin) as (i & msg & Hfind).
  destruct (findLast_Some _ _ _ _ Hfind) as (Hi & Hid & Hlast).
  apply String.eqb_eq in Hid.
  exists i, msg.
  split; [done|]. split; [done|].
  split.
  { intros j m Hj Hm Heq. specialize (Hlast j m Hj Hm). simpl in Hlast.
    apply String.eqb_neq in Hlast. done. }
  rewrite (onMessageAck_found a w i msg Hfind).
  split; [done|]. split; [done|]. split; [done|].
  split.
  { apply list_lookup_insert_eq. by eapply lookup_lt_Some. }
  split.
  { intros j Hj. by apply list_lookup_insert_ne. }
  intros Hnodup j m Hj Hm Heq.
  rewrite list_lookup_insert_ne in Hm by done.
  apply Hj. apply (NoDup_lookup _ j i (ack_messageId a) Hnodup).
  - by rewrite list_lookup_fmap, Hm; simpl; rewrite Heq.
  - by rewrite list_lookup_fmap, Hi; simpl; rewrite Hid.
Qed.

Lemma ack_rewrites_last_entry_and_forwards_ack_witness :
  ack_messageId ack_L_C ∈ map messageId (messageHistory one_unacked) /\
  exists i msg,
    messageHistory one_unacked !! i = Some msg /\
    messageId msg = "L" /\
    <[i := acked ack_L_C msg]> (messageHistory one_unacked) !! i =
      Some {| messageId := "C"; timestamp := timestamp msg; status := delivered;
              edited := edited msg; body := body msg |}.
Proof.
  assert (ack_messageId ack_L_C ∈ map messageId (messageHistory one_unacked)) as Hin.
  { simpl. apply list_elem_of_here. }
  split; [exact Hin|].
  destruct (ack_rewrites_last_entry_and_forwards_ack one_unacked ack_L_C Hin)
    as (i & msg & Hi & Hid & _ & _ & _ & _ & Hnew & _).
  exists i, msg. split; [exact Hi|]. split; [exact Hid|exact Hnew].
Defined.

(** C2 as stated fails on its last part: with one tab attached and the
    entry [L] in the history, the Ack rewrites the entry, but what is
    posted to the tab is the Ack and nothing else: the rewritten record is
    not sent. *)
Lemma ack_does_not_forward_updated_record :
  let w' := state_of (onMessageAck ack_L_C one_unacked) in
  let updated :=
    {| messageId := "C"; timestamp := 0; status := delivered; edited := false;
       body := PlaintextBody "hi" |} in
  tabPorts one_unacked = [7%nat] /\
  messageHistory w' = [updated] /\
  effects w' = [PostMessage 7%nat (Ack ack_L_C)] /\
  ~ In (PostMessage 7%nat (Content updated)) (effects w').
Proof.
  split; [reflexivity|]. split; [reflexivity|]. split; [reflexivity|].
  simpl. intros [H|[]]. discriminate H.
Qed.

(** ** What a handler leaves alone *)

Section Preserves.

Context {X : Type} (f : Worker -> X).

Lemma preserves_ret {A} (a : A) : preserves f (ret a).
Proof. by intros w. Qed.

Lemma preserves_throw {A} e : preserves f (@throw A e).
Proof. by intros w. Qed.

Lemma preserves_gets {A} (g : Worker -> A) : preserves f (gets g).
Proof. by intros w. Qed.

Lemma preserves_modify g : (forall w, f (g w) = f w) -> preserves f (modify g).
Proof. intros H w. apply H. Qed.

Lemma preserves_bind {A B} (m : M A) (k : A -> M B) :
  preserves f m -> (forall a, preserves f (k a)) -> preserves f (bind m k).
Proof.
  intros Hm Hk w. unfold bind. specialize (Hm w).
  destruct (m w) as [w' [a|e]]; simpl in *.
  - by rewrite (Hk a w').
  - done.
Qed.

Lemma preserves_when b m : preserves f m -> preserves f (when b m).
Proof. intros H. destruct b; [done|apply preserves_ret]. Qed.

Lemma preserves_assert b e : preserves f (assert b e).
Proof. destruct b; [apply preserves_ret|apply preserves_throw]. Qed.

End Preserves.

Create HintDb preserves.
#[local] Hint Resolve preserves_ret preserves_throw preserves_gets
  preserves_assert : preserves.

(** Splits a handler into its statements; what remains are the writes. *)
Ltac frame_step :=
  first
    [ solve [auto with preserves]
    | apply preserves_bind; [|intros ?]
    | apply preserves_when
    | apply preserves_modify; intros ?; reflexivity
    | match goal with
      | |- preserves _ (match ?x with _ => _ end) => destruct x
      | |- preserves _ (if ?x then _ else _) => destruct x
      | |- preserves _ (let _ := _ in _) => cbv zeta
      end ].
Ltac frame := repeat frame_step.

Lemma emit_history e : preserves messageHistory (emit e).
Proof. unfold emit. frame. Qed.
#[local] Hint Resolve emit_history : preserves.

Lemma broadcast_history msg exclude : preserves messageHistory (broadcast msg exclude).
Proof. unfold broadcast. frame. Qed.
#[local] Hint Resolve broadcast_history : preserves.

Lemma send_history e : preserves messageHistory (send e).
Proof. unfold send, emit. frame. Qed.
#[local] Hint Resolve send_history : preserves.

Lemma flushLoop_history n : preserves messageHistory (flushLoop send n).
Proof.
  induction n as [|n IH]; intros w; simpl; [done|].
  destruct (outgoingQueue w) as [|payload rest]; [done|].
  assert (preserves messageHistory (send payload ;; modify shift ;; flushLoop send n))
    as Hbody.
  { frame; apply IH. }
  exact (Hbody w).
Qed.
#[local] Hint Resolve flushLoop_history : preserves.

Lemma flushQueue_history : preserves messageHistory flushQueue.
Proof.
  unfold flushQueue, flushQueue_with. frame.
Qed.
#[local] Hint Resolve flushQueue_history : preserves.

Lemma triggerWsConnection_history : preserves messageHistory triggerWsConnection.
Proof. unfold triggerWsConnection. frame. Qed.
#[local] Hint Resolve triggerWsConnection_history : preserves.

Lemma ws_close_history c r : preserves messageHistory (ws_close c r).
Proof. unfold ws_close. frame. Qed.
#[local] Hint Resolve ws_close_history : preserves.

Lemma flush_or_connect_history : preserves messageHistory flush_or_connect.
Proof.
  unfold flush_or_connect. frame.
Qed.
#[local] Hint Resolve flush_or_connect_history : preserves.

Lemma push_then {A} (m : ContentMsg) (k : M A) w :
  preserves messageHistory k ->
  messageHistory
    (state_of
       ((modify (fun w => set_messageHistory (messageHistory w ++ [m]) w) ;; k) w))
  = messageHistory w ++ [m].
Proof.
  intros Hk. unfold bind at 1. simpl. by rewrite (Hk _).
Qed.

Lemma browser_sets_history id rs w :
  messageHistory (browser_sets id rs w) = messageHistory w.
Proof.
  unfold browser_sets. destruct (ws w) as [s|]; [|done].
  by destruct (wsId s =? id)%nat.
Qed.

Lemma step_history now ev w :
  is_ack ev = false ->
  messageHistory (state_of (step now ev w)) = messageHistory w ++ pushed ev.
Proof.
  intros Hack.
  destruct ev as [port|port payload| | |id|id|id| |data]; simpl;
    rewrite ?app_nil_r.
  - revert w. change (preserves messageHistory (onTabConnected port)).
    unfold onTabConnected. frame.
  - destruct payload; simpl; rewrite ?app_nil_r; try done.
    + revert w. change (preserves messageHistory (onJoinChannel j)).
      unfold onJoinChannel. frame.
    + destruct (body m).
      * unfold onPlaintextMessage. apply push_then. frame.
      * unfold onFileMessage. apply push_then. frame.
    + revert w. change (preserves messageHistory (onTabDisconnected port)).
      unfold onTabDisconnected. frame.
  - revert w. change (preserves messageHistory onOnline).
    unfold onOnline. frame.
  - revert w. change (preserves messageHistory onOffline).
    unfold onOffline. frame.
  - revert w.
    change (preserves messageHistory (modify (browser_sets id OPEN) ;; onWsOpen now)).
    unfold onWsOpen. frame.
    apply preserves_modify, browser_sets_history.
  - revert w.
    change (preserves messageHistory (modify (browser_sets id CLOSED) ;; onWsClose now)).
    unfold onWsClose. frame.
    apply preserves_modify, browser_sets_history.
  - done.
  - apply triggerWsConnection_history.
  - simpl in Hack. unfold deliver, onWsMessage.
    destruct (msgType (decoded data)); try discriminate Hack;
      simpl; by rewrite ?app_nil_r.
Qed.

Lemma skeleton_insert (history : list ContentMsg) i msg a :
  history !! i = Some msg ->
  map skeleton (<[i := acked a msg]> history) = map skeleton history.
Proof.
  revert i. induction history as [|m history IH]; intros i Hi; [done|].
  destruct i as [|i]; simpl in *.
  - by inversion Hi; subst.
  - f_equal. by apply IH.
Qed.

(** An Ack rewrites one entry where it stands. *)
Lemma step_history_ack now ev w :
  is_ack ev = true ->
  map skeleton (messageHistory (state_of (step now ev w)))
  = map skeleton (messageHistory w) /\ pushed ev = [].
Proof.
  intros Hack.
  destruct ev as [port|port payload| | |id|id|id| |data]; try discriminate Hack.
  simpl in *. unfold deliver, onWsMessage.
  destruct (msgType (decoded data)); try discriminate Hack.
  split; [|done].
  unfold onMessageAck, bind, gets, modify, broadcast, modify, ret, state_of. simpl.
  destruct (findLast _ (messageHistory w)) as [[i msg]|] eqn:Hfind; simpl; [|done].
  apply skeleton_insert. by apply (findLast_Some _ _ _ _ Hfind).
Qed.

Lemma run_history trace :
  forall w,
    forallb (fun timed => negb (is_ack (snd timed))) trace = true ->
    messageHistory (run w trace) = messageHistory w ++ contents trace.
Proof.
  induction trace as [|[now ev] trace IH]; intros w Hacks; simpl.
  - by rewrite app_nil_r.
  - simpl in Hacks. apply andb_prop in Hacks as [Hev Hacks].
    apply negb_true_iff in Hev.
    rewrite IH, step_history by done. by rewrite <- app_assoc.
Qed.

Lemma run_skeleton trace :
  forall w,
    map skeleton (messageHistory (run w trace))
    = map skeleton (messageHistory w ++ contents trace).
Proof.
  induction trace as [|[now ev] trace IH]; intros w; simpl.
  - by rewrite app_nil_r.
  - rewrite IH, !map_app.
    destruct (is_ack ev) eqn:Hack.
    + destruct (step_history_ack now ev w Hack) as [-> ->]. done.
    + rewrite (step_history now ev w Hack), !map_app. by rewrite <- app_assoc.
Qed.

Lemma onTabConnected_result port w :
  onTabConnected port w =
    (set_effects (effects w ++ [PostMessage port (Connected (messageHistory w))])
       (set_tabPorts (ports_add port (tabPorts w)) w),
     Normal tt).
Proof. reflexivity. Qed.

(** C6.  Attaching a tab posts to that tab, in the same handler, one
    CONNECTED message that carries the whole history, entry by entry in
    list order, and leaves the history as it is.  The list order is the
    append order: after any trace of events the history holds, in the
    order they were appended, the content messages the tabs sent and the
    plaintext frames the backend sent, none dropped and none moved; an
    Ack only rewrites the id and the status of an entry where it stands,
    and in a trace without Acks the entries are those messages as they
    came. *)
Theorem attach_replays_whole_history_in_order :
  (forall port w,
      onTabConnected port w =
        (set_effects
           (effects w ++ [PostMessage port (Connected (messageHistory w))])
           (set_tabPorts (ports_add port (tabPorts w)) w),
         Normal tt)) /\
  (forall trace w,
      map skeleton (messageHistory (run w trace))
      = map skeleton (messageHistory w ++ contents trace)) /\
  (forall trace navigatorOnLine now port,
      forallb (fun timed => negb (is_ack (snd timed))) trace = true ->
      let before := run (created navigatorOnLine) trace in
      effects (state_of (step now (TabConnect port) before)) =
        effects before ++ [PostMessage port (Connected (contents trace))]).
Proof.
  split; [apply onTabConnected_result|].
  split; [intros; apply run_skeleton|].
  intros trace on now port Hacks before. simpl.
  subst before. by rewrite run_history.
Qed.

Lemma attach_replays_whole_history_in_order_witness :
  forallb (fun timed => negb (is_ack (snd timed))) last_tab_leaves = true /\
  effects (state_of (step 5 (TabConnect 2%nat) (run (created true) last_tab_leaves)))
  = effects (run (created true) last_tab_leaves)
    ++ [PostMessage 2%nat (Connected [text_msg "m1" "hi"])].
Proof.
  split; [reflexivity|].
  destruct attach_replays_whole_history_in_order as (_ & _ & Hrun).
  exact (Hrun last_tab_leaves true 5 2%nat eq_refl).
Defined.

(** ** The stored join over whole runs *)

Lemma flushLoop_joinChannel n : preserves joinChannel (flushLoop send n).
Proof.
  induction n as [|n IH]; intros w; simpl; [done|].
  destruct (outgoingQueue w) as [|payload rest]; [done|].
  assert (preserves joinChannel (send payload ;; modify shift ;; flushLoop send n))
    as Hbody.
  { frame; apply IH. }
  exact (Hbody w).
Qed.
#[local] Hint Resolve flushLoop_joinChannel : preserves.

Lemma browser_sets_joinChannel id rs w :
  joinChannel (browser_sets id rs w) = joinChannel w.
Proof.
  unfold browser_sets. destruct (ws w) as [s|]; [|done].
  by destruct (wsId s =? id)%nat.
Qed.

(** Only a join writes to [joinChannel]. *)
Lemma step_joinChannel now ev w :
  (forall port j, ev <> TabMessage port (Join j)) ->
  joinChannel (state_of (step now ev w)) = joinChannel w.
Proof.
  intros Hev.
  destruct ev as [port|port payload| | |id|id|id| |data]; simpl.
  - revert w. change (preserves joinChannel (onTabConnected port)).
    unfold onTabConnected. frame.
  - destruct payload; simpl; try done.
    + by destruct (Hev port j).
    + revert w. destruct (body m).
      * change (preserves joinChannel (onPlaintextMessage m port)).
        unfold onPlaintextMessage. frame.
      * change (preserves joinChannel (onFileMessage m file port)).
        unfold onFileMessage. frame.
    + revert w. change (preserves joinChannel (onTabDisconnected port)).
      unfold onTabDisconnected. frame.
  - revert w. change (preserves joinChannel onOnline).
    unfold onOnline. frame.
  - revert w. change (preserves joinChannel onOffline).
    unfold onOffline. frame.
  - revert w.
    change (preserves joinChannel (modify (browser_sets id OPEN) ;; onWsOpen now)).
    unfold onWsOpen. frame.
    apply preserves_modify, browser_sets_joinChannel.
  - revert w.
    change (preserves joinChannel (modify (browser_sets id CLOSED) ;; onWsClose now)).
    unfold onWsClose. frame.
    apply preserves_modify, browser_sets_joinChannel.
  - done.
  - revert w. change (preserves joinChannel triggerWsConnection).
    unfold triggerWsConnection. frame.
  - unfold deliver, onWsMessage.
    destruct (msgType (decoded data)); simpl; try done.
    unfold onMessageAck, bind, gets, modify, broadcast, modify, ret, state_of.
    simpl. by destruct (findLast _ (messageHistory w)) as [[i msg]|].
Qed.

Lemma step_stored now ev w cfg :
  joinChannel w = Some cfg ->
  exists flag,
    joinChannel (state_of (step now ev w)) = Some (with_eagerlyConnect flag cfg) /\
    truthy flag = eager cfg || existsb eager (joined ev).
Proof.
  intros Hcfg.
  assert ((exists port j, ev = TabMessage port (Join j)) \/
          (forall port j, ev <> TabMessage port (Join j))) as [(port & j & ->)|Hev].
  { destruct ev as [|port payload| | | | | | |data]; try (right; intros; discriminate).
    destruct payload; try (right; intros; discriminate). left. by eauto. }
  - exists (js_or (eagerlyConnect cfg) (eagerlyConnect j)). simpl.
    pose proof (onJoinChannel_stored j w) as Hstep. simpl in Hstep.
    rewrite Hcfg in Hstep. simpl in Hstep.
    split; [exact Hstep|]. rewrite truthy_js_or. unfold eager.
    by rewrite orb_false_r.
  - exists (eagerlyConnect cfg). rewrite step_joinChannel by done.
    rewrite Hcfg. split; [by destruct cfg|].
    assert (joined ev = []) as ->.
    { destruct ev as [|port payload| | | | | | |data]; try done.
      destruct payload; try done. by destruct (Hev port j). }
    simpl. unfold eager. by rewrite orb_false_r.
Qed.

Lemma run_stored trace :
  forall w cfg,
    joinChannel w = Some cfg ->
    exists flag,
      joinChannel (run w trace) = Some (with_eagerlyConnect flag cfg) /\
      truthy flag = eager cfg || existsb eager (joinsOf trace).
Proof.
  induction trace as [|[now ev] trace IH]; intros w cfg Hcfg; simpl.
  - exists (eagerlyConnect cfg). rewrite Hcfg.
    split; [by destruct cfg|]. unfold eager. by rewrite orb_false_r.
  - destruct (step_stored now ev w cfg Hcfg) as (flag1 & Hstep & Ht1).
    destruct (IH _ _ Hstep) as (flag & Hrun & Ht).
    exists flag. split; [exact Hrun|].
    rewrite Ht. unfold joinsOf. simpl. fold (joinsOf trace).
    rewrite existsb_app. unfold eager at 1. simpl. rewrite Ht1.
    by rewrite orb_assoc.
Qed.

(** Until the first join arrives nothing is stored; the first join is
    stored as it is. *)
Lemma run_first trace :
  forall w,
    joinChannel w = None ->
    match joinsOf trace with
    | [] => joinChannel (run w trace) = None
    | first :: later =>
        exists flag,
          joinChannel (run w trace) = Some (with_eagerlyConnect flag first) /\
          truthy flag = existsb eager (first :: later)
    end.
Proof.
  induction trace as [|[now ev] trace IH]; intros w Hnone; simpl; [done|].
  assert ((exists port j, ev = TabMessage port (Join j)) \/
          (forall port j, ev <> TabMessage port (Join j))) as [(port & j & ->)|Hev].
  { destruct ev as [|port payload| | | | | | |data]; try (right; intros; discriminate).
    destruct payload; try (right; intros; discriminate). left. by eauto. }
  - unfold joinsOf. simpl. fold (joinsOf trace).
    pose proof (onJoinChannel_stored j w) as Hstep. simpl in Hstep.
    rewrite Hnone in Hstep. simpl in Hstep. rewrite js_or_same in Hstep.
    destruct (run_stored trace _ _ Hstep) as (flag & Hrun & Ht).
    exists flag. split; [exact Hrun|exact Ht].
  - assert (joined ev = []) as Hno.
    { destruct ev as [|port payload| | | | | | |data]; try done.
      destruct payload; try done. by destruct (Hev port j). }
    unfold joinsOf. simpl. fold (joinsOf trace). rewrite Hno. simpl.
    apply IH. rewrite step_joinChannel by done. exact Hnone.
Qed.

(** C5.  Start from a worker that has no join stored and let the joins
    [first :: later] arrive.  The stored configuration is then the first
    join's, with a flag that is truthy exactly when the flag of some join
    of the sequence is; and every later join whose endpoint is not the
    first one's makes [onJoinChannel] throw the conflict error from a
    worker whose stored endpoint is the first one's, leaving the socket,
    the history, the queue, the tabs and the stored endpoint as they were:
    the only write is the merged flag.  The same holds when other events
    come between the joins: after any trace nothing is stored if no join
    was in it, and otherwise the first join of the trace is stored with a
    flag that is truthy exactly when the flag of some join of the trace
    is. *)
Theorem join_first_wins_conflict_throws_flag_is_or (w : Worker)
    (first : JoinChannel) (later : list JoinChannel) :
  joinChannel w = None ->
  (exists flag,
      joinChannel (joins w (first :: later))
        = Some (with_eagerlyConnect flag first) /\
      truthy flag = existsb eager (first :: later)) /\
  (forall pre j post,
      later = pre ++ j :: post ->
      endpoint j <> endpoint first ->
      let before := joins w (first :: pre) in
      exists cfg,
        joinChannel before = Some cfg /\
        endpoint cfg = endpoint first /\
        onJoinChannel j before =
          (set_joinChannel
             (Some (with_eagerlyConnect
                      (js_or (eagerlyConnect cfg) (eagerlyConnect j)) cfg))
             before,
           Throw conflict_message)) /\
  (forall trace,
      match joinsOf trace with
      | [] => joinChannel (run w trace) = None
      | opening :: rest =>
          exists flag,
            joinChannel (run w trace) = Some (with_eagerlyConnect flag opening) /\
            truthy flag = existsb eager (opening :: rest)
      end).
Proof.
  intros Hnone. split; [by apply joins_first|].
  split.
  - intros pre j post _ Hne before.
    destruct (joins_first first pre w Hnone) as (flag & Hflag & _).
    exists (with_eagerlyConnect flag first).
    split; [exact Hflag|]. split; [done|].
    by apply onJoinChannel_conflict.
  - intros trace. by apply run_first.
Qed.

Lemma join_first_wins_conflict_throws_flag_is_or_witness :
  joinChannel (created true) = None /\
  (exists flag,
      joinChannel (joins (created true) [cfg_lazy; cfg_elsewhere])
        = Some (with_eagerlyConnect flag cfg_lazy) /\
      truthy flag = true) /\
  completion_of (onJoinChannel cfg_elsewhere (joins (created true) [cfg_lazy]))
    = Throw conflict_message.
Proof.
  split; [reflexivity|].
  destruct (join_first_wins_conflict_throws_flag_is_or
              (created true) cfg_lazy [cfg_elsewhere] eq_refl)
    as (Hflag & Hconflict & _).
  split; [exact Hflag|].
  destruct (Hconflict [] cfg_elsewhere [] eq_refl) as (cfg & _ & _ & Hthrow).
  - discriminate.
  - exact (f_equal snd Hthrow).
Defined.

(** C10.  A join for another endpoint than the stored one is rejected
    after its flag has been merged: [onJoinChannel] throws the conflict
    error and the only write is the stored flag, which is truthy when the
    stored one or the rejected join's was.  Whatever joins follow, and
    whatever events at all follow, the stored configuration stays the
    stored one up to its flag, so the endpoint is never rewritten, and a
    truthy flag brought by the rejected join stays truthy. *)
Theorem rejected_join_merges_flag_before_throwing (w : Worker)
    (cfg j : JoinChannel) :
  joinChannel w = Some cfg ->
  endpoint j <> endpoint cfg ->
  let merged :=
    with_eagerlyConnect (js_or (eagerlyConnect cfg) (eagerlyConnect j)) cfg in
  onJoinChannel j w = (set_joinChannel (Some merged) w, Throw conflict_message) /\
  truthy (eagerlyConnect merged)
    = truthy (eagerlyConnect cfg) || truthy (eagerlyConnect j) /\
  endpoint merged = endpoint cfg /\
  (forall js,
      exists flag,
        joinChannel (joins (set_joinChannel (Some merged) w) js)
          = Some (with_eagerlyConnect flag cfg) /\
        (truthy (eagerlyConnect j) = true -> truthy flag = true)) /\
  (forall trace,
      exists flag,
        joinChannel (run (set_joinChannel (Some merged) w) trace)
          = Some (with_eagerlyConnect flag cfg) /\
        (truthy (eagerlyConnect j) = true -> truthy flag = true)).
Proof.
  intros Hcfg Hne merged.
  split; [by apply onJoinChannel_conflict|].
  split; [apply truthy_js_or|].
  split; [done|].
  split.
  - intros js.
    destruct (joins_stored js (set_joinChannel (Some merged) w) merged eq_refl)
      as (flag & Hflag & Htruthy).
    exists flag. split; [exact Hflag|].
    intros Hj. rewrite Htruthy. subst merged. simpl.
    rewrite truthy_js_or, Hj. by rewrite orb_true_r.
  - intros trace.
    destruct (run_stored trace (set_joinChannel (Some merged) w) merged eq_refl)
      as (flag & Hflag & Htruthy).
    exists flag. split; [exact Hflag|].
    intros Hj. rewrite Htruthy. subst merged. unfold eager at 1. simpl.
    rewrite truthy_js_or, Hj. by rewrite orb_true_r.
Qed.

Lemma rejected_join_merges_flag_before_throwing_witness :
  let w := set_joinChannel (Some cfg_lazy) (created true) in
  joinChannel w = Some cfg_lazy /\
  endpoint cfg_elsewhere <> endpoint cfg_lazy /\
  truthy (eagerlyConnect cfg_lazy) = false /\
  onJoinChannel cfg_elsewhere w =
    (set_joinChannel (Some (with_eagerlyConnect (Some true) cfg_lazy)) w,
     Throw conflict_message).
Proof.
  intros w.
  assert (endpoint cfg_elsewhere <> endpoint cfg_lazy) as Hne by discriminate.
  split; [reflexivity|]. split; [exact Hne|]. split; [reflexivity|].
  destruct (rejected_join_merges_flag_before_throwing w cfg_lazy cfg_elsewhere
              eq_refl Hne) as (Hthrow & _).
  exact Hthrow.
Defined.

(** ** The join comes first on every socket *)

Lemma first_send_app id a b :
  first_send id (a ++ b) =
    match first_send id a with Some p => Some p | None => first_send id b end.
Proof.
  induction a as [|e a IH]; simpl; [done|].
  destruct e; try exact IH.
  destruct (id0 =? id)%nat; [done|exact IH].
Qed.

Lemma first_send_quiet id log extra :
  forallb quiet extra = true -> first_send id (log ++ extra) = first_send id log.
Proof.
  intros Hq. rewrite first_send_app.
  destruct (first_send id log); [done|].
  induction extra as [|e extra IH]; [done|].
  simpl in Hq. apply andb_prop in Hq as [He Hq].
  destruct e; simpl in *; try by apply IH. discriminate He.
Qed.

Lemma posts_quiet msg exclude ports : forallb quiet (posts msg exclude ports) = true.
Proof.
  unfold posts. induction (filter _ ports) as [|p ps IH]; [done|exact IH].
Qed.

Section Keeps.

Context (I : Worker -> Prop).

Lemma keeps_ret {A} (a : A) : keeps I (ret a).
Proof. by intros w. Qed.

Lemma keeps_throw {A} e : keeps I (@throw A e).
Proof. by intros w. Qed.

Lemma keeps_gets {A} (g : Worker -> A) : keeps I (gets g).
Proof. by intros w. Qed.

Lemma keeps_modify g : (forall w, I w -> I (g w)) -> keeps I (modify g).
Proof. intros H w. apply H. Qed.

Lemma keeps_bind {A B} (m : M A) (k : A -> M B) :
  keeps I m -> (forall a, keeps I (k a)) -> keeps I (bind m k).
Proof.
  intros Hm Hk w Hw. unfold bind. specialize (Hm w Hw).
  destruct (m w) as [w' [a|e]]; simpl in *; [by apply Hk|done].
Qed.

Lemma keeps_when b m : keeps I m -> keeps I (when b m).
Proof. intros H. destruct b; [done|apply keeps_ret]. Qed.

Lemma keeps_assert b e : keeps I (assert b e).
Proof. destruct b; [apply keeps_ret|apply keeps_throw]. Qed.

End Keeps.

Create HintDb keeps.
#[local] Hint Resolve keeps_ret keeps_throw keeps_gets keeps_assert : keeps.

(** A write that leaves the socket, the stored join and the frames alone. *)
Lemma wire_ok_quiet w w' extra :
  ws w' = ws w -> joinChannel w' = joinChannel w ->
  effects w' = effects w ++ extra -> forallb quiet extra = true ->
  wire_ok w -> wire_ok w'.
Proof.
  intros Hws Hjc Heff Hq (Hfirst & Hconf & Hgreet).
  split; [|split].
  - intros id p. rewrite Heff, first_send_quiet by done. apply Hfirst.
  - intros s. rewrite Hws, Hjc. apply Hconf.
  - intros s. rewrite Hws, Heff, first_send_quiet by done. apply Hgreet.
Qed.

Lemma keeps_quiet_modify g :
  (forall w, ws (g w) = ws w /\ joinChannel (g w) = joinChannel w /\
             effects (g w) = effects w) ->
  keeps wire_ok (modify g).
Proof.
  intros Hg. apply keeps_modify. intros w Hw.
  destruct (Hg w) as (Hws & Hjc & Heff).
  apply (wire_ok_quiet w (g w) []); try done. by rewrite app_nil_r.
Qed.

Lemma keeps_emit_quiet e : quiet e = true -> keeps wire_ok (emit e).
Proof.
  intros Hq. apply keeps_modify. intros w Hw.
  apply (wire_ok_quiet w _ [e]); try done. simpl. by rewrite Hq.
Qed.

Lemma keeps_broadcast msg exclude : keeps wire_ok (broadcast msg exclude).
Proof.
  apply keeps_modify. intros w Hw.
  apply (wire_ok_quiet w _ (posts msg exclude (tabPorts w))); try done.
  apply posts_quiet.
Qed.

Lemma keeps_forget : keeps wire_ok (modify (set_ws None)).
Proof.
  apply keeps_modify. intros w (Hfirst & _ & _).
  split; [exact Hfirst|]. split; intros s Hs; discriminate Hs.
Qed.

Lemma keeps_set_joinChannel j : keeps wire_ok (modify (set_joinChannel (Some j))).
Proof.
  apply keeps_modify. intros w (Hfirst & _ & Hgreet).
  split; [exact Hfirst|]. split; [|exact Hgreet].
  intros s _. simpl. by eexists.
Qed.

Lemma keeps_send payload : keeps wire_ok (send payload).
Proof.
  intros w Hw.
  destruct (ws w) as [s|] eqn:Hws.
  - destruct (is_open s) eqn:Hopen.
    + rewrite (send_open payload w s Hws Hopen). simpl.
      destruct Hw as (Hfirst & Hconf & Hgreet).
      destruct (Hgreet s Hws Hopen) as [p0 Hp0].
      split; [|split].
      * intros id p. simpl. rewrite first_send_app.
        destruct (first_send id (effects w)) as [q|] eqn:Hq.
        -- intros [= <-]. by apply (Hfirst id).
        -- simpl. destruct (Nat.eqb_spec (wsId s) id) as [<-|_]; [|done].
           by rewrite Hp0 in Hq.
      * exact Hconf.
      * intros s' Hs' Ho'. simpl in *. rewrite first_send_app.
        destruct (Hgreet s' Hs' Ho') as [q Hq]. rewrite Hq. by eexists.
    + destruct (send_not_open payload w) as [x Hx]; [by rewrite Hws|].
      by rewrite Hx.
  - destruct (send_not_open payload w) as [x Hx]; [by rewrite Hws|].
    by rewrite Hx.
Qed.

Lemma keeps_shift : keeps wire_ok (modify shift).
Proof. by apply keeps_quiet_modify. Qed.

#[local] Hint Resolve keeps_broadcast keeps_forget keeps_set_joinChannel
  keeps_send keeps_shift : keeps.
#[local] Hint Extern 1 (keeps wire_ok (emit _)) =>
  apply keeps_emit_quiet; reflexivity : keeps.

Ltac wire_step :=
  first
    [ solve [auto with keeps]
    | apply keeps_bind; [|intros ?]
    | apply keeps_when
    | apply keeps_quiet_modify; intros ?; repeat split; reflexivity
    | match goal with
      | |- keeps _ (match ?x with _ => _ end) => destruct x
      | |- keeps _ (if ?x then _ else _) => destruct x
      | |- keeps _ (let _ := _ in _) => cbv zeta
      end ].
Ltac wire := repeat wire_step.

Lemma keeps_flushLoop n : keeps wire_ok (flushLoop send n).
Proof.
  induction n as [|n IH]; intros w Hw; simpl; [done|].
  destruct (outgoingQueue w) as [|payload rest]; [done|].
  assert (keeps wire_ok (send payload ;; modify shift ;; flushLoop send n)) as Hbody.
  { wire; apply IH. }
  exact (Hbody w Hw).
Qed.
#[local] Hint Resolve keeps_flushLoop : keeps.

Lemma keeps_flushQueue : keeps wire_ok flushQueue.
Proof. unfold flushQueue, flushQueue_with. wire. Qed.
#[local] Hint Resolve keeps_flushQueue : keeps.

Lemma keeps_triggerWsConnection : keeps wire_ok triggerWsConnection.
Proof.
  intros w (Hfirst & Hconf & Hgreet).
  unfold triggerWsConnection, bind, gets, modify, emit, modify, throw, state_of.
  simpl. destruct (joinChannel w) as [j|] eqn:Hj; simpl.
  - split; [|split].
    + intros id p. simpl. rewrite (first_send_quiet id (effects w) [WsNew _ _]) by done.
      apply Hfirst.
    + intros s _. simpl. rewrite Hj. by eexists.
    + intros s [= <-]. done.
  - split; [exact Hfirst|]. split.
    + intros s Hs. simpl in *. destruct (Hconf s Hs) as [j Hj']. congruence.
    + exact Hgreet.
Qed.
#[local] Hint Resolve keeps_triggerWsConnection : keeps.

Lemma keeps_ws_close c r : keeps wire_ok (ws_close c r).
Proof.
  intros w (Hfirst & Hconf & Hgreet).
  unfold ws_close, bind, gets, modify, emit, modify, ret, assert, throw, state_of.
  simpl.
  destruct (ws w) as [s|] eqn:Hws; simpl; [|done].
  destruct (code_accepted c); simpl; [|exact (conj Hfirst (conj Hconf Hgreet))].
  destruct (reason_accepted r); simpl; [|exact (conj Hfirst (conj Hconf Hgreet))].
  split; [|split].
  - intros id p. simpl. rewrite (first_send_quiet id (effects w) [WsClose _ _ _]) by done.
    apply Hfirst.
  - intros s' _. simpl. exact (Hconf s Hws).
  - intros s' [= <-]. unfold is_open, closing. simpl.
    by destruct (readyState s).
Qed.
#[local] Hint Resolve keeps_ws_close : keeps.

Lemma keeps_flush_or_connect : keeps wire_ok flush_or_connect.
Proof. unfold flush_or_connect. wire. Qed.
#[local] Hint Resolve keeps_flush_or_connect : keeps.

(** [onWsOpen] restores the greeting that the freshly opened socket lacks. *)
Lemma onWsOpen_wire now w :
  joined_first w -> configured w -> wire_ok (state_of (onWsOpen now w)).
Proof.
  intros Hfirst Hconf.
  unfold onWsOpen. unfold bind at 1. simpl. unfold bind at 1. simpl.
  set (w2 := set_connectedTimestampMs now w).
  destruct (joinChannel w) as [j|] eqn:Hj.
  - destruct (ws w) as [s|] eqn:Hws.
    + destruct (is_open s) eqn:Hopen.
      * rewrite (bind_normal _ _ _ _ _ (send_open (Join j) w2 s Hws Hopen)).
        assert (keeps wire_ok (flushQueue ;; broadcast Online None)) as Hrest by wire.
        apply Hrest.
        split; [|split].
        -- intros id p. simpl. rewrite first_send_app.
           destruct (first_send id (effects w)) as [q|] eqn:Hq.
           ++ intros [= <-]. by apply (Hfirst id).
           ++ simpl. destruct (wsId s =? id)%nat; [|done]. by intros [= <-].
        -- intros s' _. simpl. rewrite Hj. by eexists.
        -- intros s' Hs' _. simpl in *. rewrite first_send_app.
           assert (s' = s) as -> by congruence.
           destruct (first_send (wsId s) (effects w)); [by eexists|].
           simpl. rewrite Nat.eqb_refl. by eexists.
      * destruct (send_not_open (Join j) w2) as [x Hx]; [simpl; by rewrite Hws|].
        rewrite (bind_throw _ _ _ _ _ Hx). simpl.
        split; [exact Hfirst|]. split; [exact Hconf|].
        intros s' Hs' Ho'. simpl in *. congruence.
    + destruct (send_not_open (Join j) w2) as [x Hx]; [simpl; by rewrite Hws|].
      rewrite (bind_throw _ _ _ _ _ Hx). simpl.
      split; [exact Hfirst|]. split; [exact Hconf|].
      intros s' Hs'. simpl in *. congruence.
  - simpl. split; [exact Hfirst|]. split; [exact Hconf|].
    intros s Hs _. simpl in *. destruct (Hconf s Hs) as [j Hj']. congruence.
Qed.

Lemma browser_sets_wire id rs w :
  wire_ok w -> joined_first (browser_sets id rs w) /\ configured (browser_sets id rs w).
Proof.
  intros (Hfirst & Hconf & _). unfold browser_sets.
  destruct (ws w) as [s|] eqn:Hws; [|by split].
  destruct (wsId s =? id)%nat; [|by split].
  split; [exact Hfirst|]. intros s' _. simpl. exact (Hconf s Hws).
Qed.

Lemma browser_sets_closed_wire id w :
  wire_ok w -> wire_ok (browser_sets id CLOSED w).
Proof.
  intros Hw. destruct (browser_sets_wire id CLOSED w Hw) as [Hfirst Hconf].
  split; [exact Hfirst|]. split; [exact Hconf|].
  destruct Hw as (_ & _ & Hgreet). unfold browser_sets.
  destruct (ws w) as [s|] eqn:Hws; [|exact Hgreet].
  destruct (wsId s =? id)%nat; [|exact Hgreet].
  intros s' [= <-]. done.
Qed.

Lemma step_wire now ev : keeps wire_ok (step now ev).
Proof.
  destruct ev as [port|port payload| | |id|id|id| |data]; simpl.
  - unfold onTabConnected. wire.
  - destruct payload; simpl; auto with keeps.
    + unfold onJoinChannel. wire.
    + destruct (body m).
      * unfold onPlaintextMessage. wire.
      * unfold onFileMessage. wire.
    + unfold onTabDisconnected. wire.
  - unfold onOnline. wire.
  - unfold onOffline. wire.
  - intros w Hw. unfold bind at 1. simpl.
    destruct (browser_sets_wire id OPEN w Hw) as [Hfirst Hconf].
    by apply onWsOpen_wire.
  - apply keeps_bind.
    + apply keeps_modify, browser_sets_closed_wire.
    + intros _. unfold onWsClose. wire.
  - unfold onWsError. wire.
  - wire.
  - intros w Hw. unfold deliver, onWsMessage.
    destruct (msgType (decoded data)); simpl; try done.
    + apply (wire_ok_quiet w _
               (posts (Content (seenAsPlaintextMsg data)) None (tabPorts w)));
        try done.
      apply posts_quiet.
    + eapply (wire_ok_quiet w); [reflexivity|reflexivity|reflexivity| |exact Hw].
      reflexivity.
    + assert (keeps wire_ok (onMessageAck (seenAsMsgAck data)))
        as Hack by (unfold onMessageAck; wire).
      specialize (Hack w Hw). unfold bind at 1. unfold bind at 1.
      by destruct (onMessageAck (seenAsMsgAck data) w) as [w' [[]|e]].
Qed.

Lemma run_wire trace : forall w, wire_ok w -> wire_ok (run w trace).
Proof.
  induction trace as [|[now ev] trace IH]; intros w Hw; simpl; [done|].
  apply IH. by apply step_wire.
Qed.

Lemma created_wire navigatorOnLine : wire_ok (created navigatorOnLine).
Proof.
  split; [|split].
  - intros id p Hp. discriminate Hp.
  - intros s Hs. discriminate Hs.
  - intros s Hs. discriminate Hs.
Qed.

(** C9, as the worker does it.  When the socket held in [ws] is open and a
    join is stored, as at the open of the socket the worker holds,
    [onWsOpen] returns and what it writes is, in this order: the stored
    JoinChannel frame on the socket, then every queued envelope on the
    same socket in queue order, then ONLINE to every tab; the queue is
    empty afterwards and the clock reading is kept.  Over whole runs:
    whatever events the worker has handled since it was created, the
    first frame written to any socket is a JoinChannel frame, so on every
    connection the join precedes every content and upload frame. *)
Theorem onWsOpen_join_then_queue_then_online :
  (forall (now : Z) (w : Worker) (s : WebSocket) (j : JoinChannel),
      ws w = Some s ->
      readyState s = OPEN ->
      joinChannel w = Some j ->
      onWsOpen now w =
        (set_effects
           (effects w
              ++ WsSend (wsId s) (Join j)
                 :: map (WsSend (wsId s)) (outgoingQueue w)
              ++ posts Online None (tabPorts w))
           (set_outgoingQueue [] (set_connectedTimestampMs now w)),
         Normal tt)) /\
  (forall navigatorOnLine trace id p,
      first_send id (effects (run (created navigatorOnLine) trace)) = Some p ->
      exists j, p = Join j).
Proof.
  split; [apply onWsOpen_result|].
  intros on trace id p Hp.
  destruct (run_wire trace (created on) (created_wire on)) as (Hfirst & _).
  specialize (Hfirst id p Hp). destruct p; try discriminate Hfirst. by eexists.
Qed.

Lemma onWsOpen_join_then_queue_then_online_witness :
  ws two_tabs_open = Some open_socket /\
  readyState open_socket = OPEN /\
  joinChannel two_tabs_open = Some cfg_lazy /\
  effects (state_of (onWsOpen 77 two_tabs_open)) =
    [WsSend 0 (Join cfg_lazy); WsSend 0 (Content (text_msg "m1" "hi"));
     WsSend 0 (UploadMsg sample_upload);
     PostMessage 1%nat Online; PostMessage 2%nat Online].
Proof.
  split; [reflexivity|]. split; [reflexivity|]. split; [reflexivity|].
  rewrite (proj1 onWsOpen_join_then_queue_then_online 77 two_tabs_open open_socket
             cfg_lazy eq_refl eq_refl eq_refl).
  reflexivity.
Defined.

(** C9 as stated fails for the open of a socket the worker does not hold
    any more.  A tab joins eagerly, which creates socket 0, and queues a
    message; the network goes down before the socket has opened, and the
    worker forgets the socket without closing it, as it was not open.
    Then socket 0 opens: [onWsOpen] throws at the join, so that no join
    and no other frame is written on the socket that has just opened,
    the message stays queued and ONLINE is not posted. *)
Lemma stale_open_writes_no_join :
  let before := run (created true) offline_while_connecting in
  let result := step 4 (SocketOpen 0%nat) before in
  effects before =
    [PostMessage 1%nat (Connected []);
     WsNew 0 "wss://chat.example/ws?c=support"] /\
  ws before = None /\
  joinChannel before = Some cfg_eager /\
  outgoingQueue before = [Content (text_msg "m1" "hi")] /\
  completion_of result = Throw "No Websocket connection" /\
  effects (state_of result) = effects before /\
  first_send 0 (effects (state_of result)) = None /\
  outgoingQueue (state_of result) = [Content (text_msg "m1" "hi")].
Proof.
  intros before result.
  do 7 (split; [vm_compute; reflexivity|]).
  vm_compute. reflexivity.
Qed.

(** ** Reconnection *)

(** After a close with the network up and a tab attached, the next attempt
    comes [max(0, MIN_RECONNECTION_INTERVAL_MS - sessionDurationMs)] later:
    a timer of that length when it is positive, at once otherwise. *)
Lemma onWsClose_reconnect_delay now w :
  online w = true ->
  tabPorts w <> [] ->
  let d := sessionDuration now (connectedTimestampMs w) in
  let told := set_effects (effects w ++ posts (Offline d) None (tabPorts w)) w in
  (0 < MIN_RECONNECTION_INTERVAL_MS - d ->
   onWsClose now w =
     (set_effects
        (effects told ++ [SetTimeout (Z.max 0 (MIN_RECONNECTION_INTERVAL_MS - d))])
        told,
      Normal tt)) /\
  (MIN_RECONNECTION_INTERVAL_MS - d <= 0 ->
   onWsClose now w = triggerWsConnection told).
Proof.
  intros Hon Htabs d told.
  assert ((length (tabPorts w) =? 0)%nat = false) as Hlen.
  { destruct (tabPorts w); [done|reflexivity]. }
  unfold onWsClose, bind, gets, broadcast, modify, emit, modify. simpl.
  rewrite Hon. simpl. rewrite Hlen. fold d. fold told.
  rewrite Z.gtb_ltb.
  split; intros Hd.
  - destruct (Z.ltb_spec 0 (MIN_RECONNECTION_INTERVAL_MS - d)); [|lia].
    by rewrite Z.max_r by lia.
  - destruct (Z.ltb_spec 0 (MIN_RECONNECTION_INTERVAL_MS - d)); [lia|done].
Qed.

(** C3, the failing run.  The socket opens at 1000 ms and closes a minute
    later; from then on the backend is unreachable, so each new socket
    closes without having opened and [connectedTimestampMs] stays 1000.
    [triggerWsConnection] then runs at 61000, 61001 and 61002 ms: three
    attempts after a successful open, one millisecond apart; the worker
    creates the sockets 1, 2 and 3 and arms no timer. *)
Theorem reconnect_attempts_back_to_back_after_stale_open :
  let final := run (created true) minute_then_unreachable in
  let there := "wss://chat.example/ws?c=support" in
  attemptTimes (created true) minute_then_unreachable = [1; 61000; 61001; 61002] /\
  connectedTimestampMs final = 1000 /\
  reconnectionAttempts final = 4%nat /\
  effects final =
    [PostMessage 1%nat (Connected []); WsNew 0 there;
     WsSend 0 (Join cfg_eager); PostMessage 1%nat Online;
     PostMessage 1%nat (Offline 60000); WsNew 1 there;
     PostMessage 1%nat (Offline 60001); WsNew 2 there;
     PostMessage 1%nat (Offline 60002); WsNew 3 there] /\
  61001 - 61000 < MIN_RECONNECTION_INTERVAL_MS.
Proof.
  split; [vm_compute; reflexivity|]. split; [vm_compute; reflexivity|].
  split; [vm_compute; reflexivity|]. split; [vm_compute; reflexivity|].
  reflexivity.
Qed.

(** ** Detach and attach *)

Lemma onJoinChannel_attempts j w cfg :
  joinChannel w = Some cfg ->
  endpoint j = endpoint cfg ->
  let w' := state_of (onJoinChannel j w) in
  let connects :=
    match ws w with
    | None => truthy (js_or (eagerlyConnect cfg) (eagerlyConnect j))
    | Some _ => false
    end in
  reconnectionAttempts w' =
    (reconnectionAttempts w + (if connects then 1 else 0))%nat /\
  effects w' =
    effects w ++ (if connects then [WsNew (reconnectionAttempts w) (endpoint cfg)]
                  else []).
Proof.
  intros Hcfg Hep.
  unfold onJoinChannel, bind, gets, modify, assert, when, triggerWsConnection,
    emit, modify, ret, state_of.
  simpl. rewrite Hcfg. simpl. rewrite Hep, String.eqb_refl. simpl.
  destruct (ws w); simpl.
  - split; [lia|by rewrite app_nil_r].
  - destruct (truthy (js_or (eagerlyConnect cfg) (eagerlyConnect j))); simpl.
    + split; [lia|done].
    + split; [lia|by rewrite app_nil_r].
Qed.

Lemma onJoinChannel_idle j w cfg :
  joinChannel w = Some cfg ->
  endpoint j = endpoint cfg ->
  match ws w with
  | None => truthy (js_or (eagerlyConnect cfg) (eagerlyConnect j))
  | Some _ => false
  end = false ->
  let w' := state_of (onJoinChannel j w) in
  ws w' = ws w /\ effects w' = effects w.
Proof.
  intros Hcfg Hep Hidle.
  unfold onJoinChannel, bind, gets, modify, assert, when, triggerWsConnection,
    emit, modify, ret, state_of.
  simpl. rewrite Hcfg. simpl. rewrite Hep, String.eqb_refl. simpl.
  destruct (ws w) eqn:Hws; simpl; [by rewrite Hws|].
  simpl in Hidle. rewrite Hidle. simpl. by rewrite Hws.
Qed.

(** C7, as the worker does it by design.  Attaching a tab posts the
    history to it and does nothing else: [triggerWsConnection] does not
    run, so the attempt counter stands and no socket is created,
    whatever [online] and the queue are.  The join that the tab sends
    next, for the stored endpoint, runs [triggerWsConnection] exactly
    once when no socket is held and the merged eager flag is truthy, and
    not at all otherwise, in which case the socket variable and the
    effects stay as they were.  What the last detach does to the socket
    is not part of this statement. *)
Theorem attach_triggers_no_attempt_eager_join_one :
  (forall port w,
      let w' := state_of (onTabConnected port w) in
      reconnectionAttempts w' = reconnectionAttempts w /\
      ws w' = ws w /\
      outgoingQueue w' = outgoingQueue w /\
      effects w' = effects w ++ [PostMessage port (Connected (messageHistory w))]) /\
  (forall j w cfg,
      joinChannel w = Some cfg ->
      endpoint j = endpoint cfg ->
      let w' := state_of (onJoinChannel j w) in
      let connects :=
        match ws w with
        | None => truthy (js_or (eagerlyConnect cfg) (eagerlyConnect j))
        | Some _ => false
        end in
      reconnectionAttempts w' =
        (reconnectionAttempts w + (if connects then 1 else 0))%nat /\
      (connects = false -> ws w' = ws w /\ effects w' = effects w)).
Proof.
  split; [by intros port w|].
  intros j w cfg Hcfg Hep w' connects.
  split; [exact (proj1 (onJoinChannel_attempts j w cfg Hcfg Hep))|].
  intros Hidle. by apply (onJoinChannel_idle j w cfg).
Qed.

Lemma attach_triggers_no_attempt_eager_join_one_witness :
  let gone := run (created true) last_tab_leaves in
  let back := state_of (onTabConnected 2%nat gone) in
  joinChannel back = Some cfg_lazy /\
  endpoint cfg_eager = endpoint cfg_lazy /\
  reconnectionAttempts back = reconnectionAttempts gone /\
  reconnectionAttempts (state_of (onJoinChannel cfg_eager back)) =
    S (reconnectionAttempts back) /\
  reconnectionAttempts (state_of (onJoinChannel cfg_lazy back)) =
    reconnectionAttempts back.
Proof.
  intros gone back.
  destruct attach_triggers_no_attempt_eager_join_one as (Hattach & Hjoin).
  assert (joinChannel back = Some cfg_lazy) as Hcfg by (vm_compute; reflexivity).
  assert (ws back = None) as Hws by (vm_compute; reflexivity).
  split; [exact Hcfg|]. split; [reflexivity|].
  split; [exact (proj1 (Hattach 2%nat gone))|].
  split.
  - destruct (Hjoin cfg_eager back cfg_lazy Hcfg eq_refl) as [Hn _].
    rewrite Hn, Hws. simpl. lia.
  - destruct (Hjoin cfg_lazy back cfg_lazy Hcfg eq_refl) as [Hn _].
    rewrite Hn, Hws. simpl. lia.
Defined.

(** C7 as stated fails.  The only tab queues a message and detaches
    before the socket has opened; the connection then fails and the
    worker forgets the socket.  The network is up and the queue holds the
    message when a tab attaches again and joins: [triggerWsConnection]
    does not run, not at the attach and not at the join. *)
Lemma attach_with_queued_message_triggers_no_attempt :
  let gone := run (created true) last_tab_leaves in
  let back := run gone tab_returns in
  online gone = true /\
  outgoingQueue gone = [Content (text_msg "m1" "hi")] /\
  tabPorts gone = [] /\
  ws gone = None /\
  effects gone =
    [PostMessage 1%nat (Connected []);
     WsNew 0 "wss://chat.example/ws?c=support"; PortClose 1%nat] /\
  attemptTimes gone tab_returns = [] /\
  reconnectionAttempts back = reconnectionAttempts gone /\
  effects back =
    effects gone ++ [PostMessage 2%nat (Connected [text_msg "m1" "hi"])] /\
  tabPorts back = [2%nat] /\
  ws back = None /\
  outgoingQueue back = [Content (text_msg "m1" "hi")].
Proof.
  intros gone back.
  do 10 (split; [vm_compute; reflexivity|]).
  vm_compute. reflexivity.
Qed.

(** ** Binary references *)

Lemma settle_resolved download payload file w :
  download (url payload) = Resolved file ->
  settle (onWsFileMessage_with download payload) w =
    (set_effects
       (effects w ++ posts (Content (incomingFile payload file)) None (tabPorts w))
       (set_messageHistory (messageHistory w ++ [incomingFile payload file]) w),
     Normal tt).
Proof.
  intros Hres. unfold settle, onWsFileMessage_with. simpl. by rewrite Hres.
Qed.

Lemma settle_rejected download payload e w :
  download (url payload) = Rejected e ->
  settle (onWsFileMessage_with download payload) w =
    (set_effects (effects w ++ [UnhandledRejection e]) w, Normal tt).
Proof.
  intros Hrej. unfold settle, onWsFileMessage_with. simpl. by rewrite Hrej.
Qed.

(** C8, as the worker does it.  A frame tagged BIN changes nothing in the
    handler itself: the worker is as before and a promise is pending.
    When the fetch resolves, the file message is appended to the history
    and posted to every tab.  When the fetch rejects, the history is not
    touched and nothing is posted to any tab; the rejection is left
    unhandled and the worker's variables are as they were.  The
    [downloadUrl] of the sources always rejects. *)
Theorem binary_reference_shown_only_after_fetch :
  (forall (Raw : Type) decode asP asB asA asE (payload : Raw) w,
      msgType (decode payload) = BIN ->
      onWsMessage Raw decode asP asB asA asE payload w =
        (w, Normal (Some (onWsFileMessage (asB payload))))) /\
  (forall download payload file w,
      download (url payload) = Resolved file ->
      settle (onWsFileMessage_with download payload) w =
        (set_effects
           (effects w
              ++ posts (Content (incomingFile payload file)) None (tabPorts w))
           (set_messageHistory (messageHistory w ++ [incomingFile payload file]) w),
         Normal tt)) /\
  (forall download payload e w,
      download (url payload) = Rejected e ->
      settle (onWsFileMessage_with download payload) w =
        (set_effects (effects w ++ [UnhandledRejection e]) w, Normal tt)) /\
  (forall payload w,
      settle (onWsFileMessage payload) w =
        (set_effects
           (effects w
              ++ [UnhandledRejection
                    ("Not implemented downloading of " ++ url payload)]) w,
         Normal tt)).
Proof.
  split.
  { intros Raw decode asP asB asA asE payload w Htag.
    unfold onWsMessage. by rewrite Htag. }
  split; [apply settle_resolved|].
  split; [apply settle_rejected|].
  intros payload w. by apply settle_rejected.
Qed.

Lemma binary_reference_shown_only_after_fetch_witness :
  msgType (decodes_to (Bin sample_bin) tt) = BIN /\
  fetched (url sample_bin) = Resolved archive_file /\
  downloadUrl (url sample_bin)
    = Rejected "Not implemented downloading of https://files.example/b1" /\
  state_of (onWsMessage unit (decodes_to (Bin sample_bin))
              read_plaintext read_bin read_ack read_error tt two_tabs_open)
    = two_tabs_open /\
  map messageId
      (messageHistory
         (state_of (settle (onWsFileMessage_with fetched sample_bin) two_tabs_open)))
    = ["m1"; "f1"; "b1"] /\
  messageHistory
    (state_of (settle (onWsFileMessage_with downloadUrl sample_bin) two_tabs_open))
    = messageHistory two_tabs_open.
Proof.
  destruct binary_reference_shown_only_after_fetch as (Hsync & Hres & Hrej & _).
  split; [reflexivity|]. split; [reflexivity|]. split; [reflexivity|].
  split.
  { rewrite (Hsync unit (decodes_to (Bin sample_bin)) read_plaintext read_bin
               read_ack read_error tt two_tabs_open eq_refl).
    reflexivity. }
  split.
  { rewrite (Hres fetched sample_bin archive_file two_tabs_open eq_refl).
    reflexivity. }
  rewrite (Hrej downloadUrl sample_bin _ two_tabs_open eq_refl).
  reflexivity.
Defined.

(** C8 as stated fails on the failed fetch.  A binary reference arrives
    while one tab is attached; the fetch rejects, and no message of any
    kind reaches the tab: the only trace is the unhandled rejection.  The
    history is as before. *)
Lemma failed_fetch_posts_nothing :
  let w' :=
    state_of (deliver unit (decodes_to (Bin sample_bin))
                read_plaintext read_bin read_ack read_error tt two_files_shown) in
  tabPorts two_files_shown = [1%nat] /\
  effects w' =
    [UnhandledRejection "Not implemented downloading of https://files.example/b1"] /\
  (forall port msg, ~ In (PostMessage port msg) (effects w')) /\
  messageHistory w' = messageHistory two_files_shown.
Proof.
  split; [reflexivity|]. split; [reflexivity|]. split; [|reflexivity].
  intros port msg Hin. simpl in Hin. destruct Hin as [Hin|[]]. discriminate Hin.
Qed.

(** ** Zip reports *)

Lemma occurrences_removeFirst id zipped els :
  shown id (Tab.removeFirst zipped els) =
    (shown id els
     - (if String.eqb zipped id then Nat.min 1 (shown zipped els) else 0))%nat.
Proof.
  unfold shown. induction els as [|el els IH]; simpl.
  - by destruct (String.eqb zipped id).
  - destruct (String.eqb_spec (messageId el) zipped) as [Heq|Hne].
    + subst zipped. rewrite ?String.eqb_refl.
      destruct (String.eqb (messageId el) id); simpl; lia.
    + simpl. rewrite IH.
      destruct (String.eqb_spec zipped id) as [->|Hzid].
      * destruct (String.eqb_spec (messageId el) id) as [Hel|_]; [done|].
        simpl. lia.
      * lia.
Qed.

Lemma shown_after_deletes id zippedIds :
  forall els,
    (shown id (fold_left (fun acc z => Tab.removeFirst z acc) zippedIds els)
     <= shown id els)%nat /\
    (shown id els <= 1 -> id ∈ zippedIds ->
     shown id (fold_left (fun acc z => Tab.removeFirst z acc) zippedIds els) = 0)%nat.
Proof.
  induction zippedIds as [|z zs IH]; intros els; simpl.
  - split; [lia|]. intros _ Hin. by apply elem_of_nil in Hin.
  - destruct (IH (Tab.removeFirst z els)) as [Hle Hzero].
    pose proof (occurrences_removeFirst id z els) as Hrm.
    split.
    + rewrite Hrm in Hle. lia.
    + intros Hone Hin.
      destruct (String.eqb_spec z id) as [->|Hne].
      * assert (shown id (Tab.removeFirst id els) = 0)%nat as H0.
        { rewrite Hrm. lia. }
        rewrite H0 in Hle. lia.
      * apply elem_of_cons in Hin as [->|Hin]; [done|].
        apply Hzero; [rewrite Hrm; lia|done].
Qed.

Lemma shown_kept_by_deletes id zippedIds :
  forall els,
    id ∉ zippedIds ->
    shown id (fold_left (fun acc z => Tab.removeFirst z acc) zippedIds els)
    = shown id els.
Proof.
  induction zippedIds as [|z zs IH]; intros els Hnot; simpl; [done|].
  apply not_elem_of_cons in Hnot as [Hne Hnot].
  rewrite IH by done. rewrite occurrences_removeFirst.
  destruct (String.eqb_spec z id) as [Heq|_]; [by subst|lia].
Qed.

(** Taking out the first match by its position. *)
Lemma removed_first id els :
  match Tab.firstWithId id els with
  | Some position => Tab.removed position els
  | None => els
  end = Tab.removeFirst id els.
Proof.
  induction els as [|el els IH]; simpl; [done|].
  destruct (String.eqb (messageId el) id); [done|].
  destruct (Tab.firstWithId id els) as [position|]; simpl in *.
  - unfold Tab.removed in *. simpl. by rewrite IH.
  - by rewrite <- IH.
Qed.

Lemma delete_safe TAG querySelector id k :
  Tab.selects_by_id TAG querySelector ->
  Tab.selectorSafe id = true ->
  Tab.delete TAG querySelector id k =
    ({| Tab.element := Tab.element k;
        Tab.msgElements := Tab.removeFirst id (Tab.msgElements k) |}, Normal tt).
Proof.
  intros Hselects Hsafe. unfold Tab.delete. rewrite (Hselects id _ Hsafe).
  pose proof (removed_first id (Tab.msgElements k)) as Hfirst.
  destruct (Tab.firstWithId id (Tab.msgElements k)) as [position|].
  - by rewrite Hfirst.
  - rewrite <- Hfirst. by destruct k.
Qed.

Lemma deleteEach_safe TAG querySelector ids :
  Tab.selects_by_id TAG querySelector ->
  forallb Tab.selectorSafe ids = true ->
  forall k,
    Tab.deleteEach TAG querySelector ids k =
      ({| Tab.element := Tab.element k;
          Tab.msgElements :=
            fold_left (fun acc z => Tab.removeFirst z acc) ids (Tab.msgElements k) |},
       Normal tt).
Proof.
  intros Hselects. induction ids as [|id ids IH]; intros Hsafe k; simpl.
  - by destruct k.
  - simpl in Hsafe. apply andb_prop in Hsafe as [Hid Hids].
    rewrite (delete_safe TAG querySelector id k Hselects Hid).
    by rewrite (IH Hids).
Qed.

Lemma after_app start text : Tab.after start (start ++ text) = Some text.
Proof.
  induction start as [|c start IH]; simpl; [by destruct text|].
  by rewrite Ascii.eqb_refl.
Qed.

Lemma quoted_safe id tail :
  Tab.selectorSafe id = true ->
  Tab.quoted (id ++ Tab.quote ++ tail) = Some (id, tail).
Proof.
  induction id as [|c id IH]; simpl; intros Hsafe; [done|].
  apply andb_prop in Hsafe as [Hc Hid]. rewrite Hc, (IH Hid).
  destruct (Ascii.eqb_spec c (Ascii.ascii_of_nat 34)) as [->|_]; [|done].
  discriminate Hc.
Qed.

(** The selectors of [delete] read back. *)
Lemma byAttribute_selects TAG : Tab.selects_by_id TAG (Tab.byAttribute TAG).
Proof.
  intros id els Hsafe. unfold Tab.byAttribute, Tab.selector.
  rewrite after_app, (quoted_safe id "]" Hsafe). done.
Qed.




(** * More of the worker *)

(** ** Content messages from a tab *)

Lemma onTabMessage_content m port w :
  onTabMessage port (Content m) w = flush_or_connect (received m port w).
Proof.
  unfold onTabMessage, received, envelope_of.
  destruct (body m) as [text|file batch total]; destruct w; reflexivity.
Qed.

Lemma onTabMessage_content_state m port w :
  state_of (onTabMessage port (Content m) w)
  = state_of (flush_or_connect (received m port w)).
Proof. by rewrite onTabMessage_content. Qed.

(** While the socket is open a content message goes to the wire at once:
    it is appended to the history, posted to the other tabs, and written
    to the socket behind whatever was still queued; nothing stays
    queued.  A file message is written as its upload intent. *)
Theorem content_while_open_is_written_at_once (m : ContentMsg)
    (port : KiteMessagePort) (w : Worker) (s : WebSocket) :
  ws w = Some s ->
  readyState s = OPEN ->
  onTabMessage port (Content m) w =
    (set_outgoingQueue []
       (set_effects
          (effects w
             ++ posts (Content m) (Some port) (tabPorts w)
             ++ map (WsSend (wsId s)) (outgoingQueue w ++ [envelope_of m]))
          (set_messageHistory (messageHistory w ++ [m]) w)),
     Normal tt).
Proof.
  intros Hws Hready.
  assert (is_open s = true) as Hopen by (unfold is_open; by rewrite Hready).
  rewrite onTabMessage_content.
  unfold flush_or_connect, bind, gets. simpl. rewrite Hws. simpl.
  unfold when. rewrite Hopen.
  rewrite (flushQueue_open (received m port w) s Hws Hopen).
  destruct w; simpl in *. unfold received, set_outgoingQueue, set_effects. simpl.
  by rewrite <- app_assoc.
Qed.

Lemma content_while_open_is_written_at_once_witness :
  ws two_tabs_open = Some open_socket /\
  readyState open_socket = OPEN /\
  effects (state_of (onTabMessage 1%nat (Content (file_msg "f2" "b.png")) two_tabs_open))
  = [PostMessage 2%nat (Content (file_msg "f2" "b.png"));
     WsSend 0 (Content (text_msg "m1" "hi")); WsSend 0 (UploadMsg sample_upload);
     WsSend 0 (UploadMsg {| up_messageId := "f2"; fileName := "b.png";
                            fileType := "image/png"; fileSize := 10 |})].
Proof.
  split; [reflexivity|]. split; [reflexivity|].
  rewrite (content_while_open_is_written_at_once (file_msg "f2" "b.png") 1%nat
             two_tabs_open open_socket eq_refl eq_refl).
  reflexivity.
Defined.

Lemma content_idle m port w :
  match ws w with
  | Some s => is_open s = false
  | None => online w = false
  end ->
  onTabMessage port (Content m) w = (received m port w, Normal tt).
Proof.
  intros Hcase. rewrite onTabMessage_content.
  unfold flush_or_connect, bind, gets, when. simpl.
  destruct (ws w) as [s|]; simpl; by rewrite Hcase.
Qed.

(** While a socket is held that is not open (connecting, closing or
    closed), and while the worker holds none and is offline, a content
    message is appended to the history, posted to the other tabs and
    queued, and that is all: nothing is written to a socket and no
    connection is attempted. *)
Theorem content_without_open_socket_is_only_queued (m : ContentMsg)
    (port : KiteMessagePort) (w : Worker) :
  match ws w with
  | Some s => is_open s = false
  | None => online w = false
  end ->
  onTabMessage port (Content m) w = (received m port w, Normal tt).
Proof. apply content_idle. Qed.

Lemma content_without_open_socket_is_only_queued_witness :
  let w := set_online false (created true) in
  let m := text_msg "m1" "hi" in
  online w = false /\
  outgoingQueue (state_of (onTabMessage 1%nat (Content m) w)) = [Content m] /\
  effects (state_of (onTabMessage 1%nat (Content m) w)) = [] /\
  reconnectionAttempts (state_of (onTabMessage 1%nat (Content m) w)) = 0%nat.
Proof.
  intros w m. split; [reflexivity|].
  rewrite (content_without_open_socket_is_only_queued m 1%nat w eq_refl).
  repeat split.
Defined.

(** What the handler leaves when it connects. *)
Lemma content_connects m port w j :
  ws w = None ->
  online w = true ->
  joinChannel w = Some j ->
  let attempt := reconnectionAttempts w in
  onTabMessage port (Content m) w =
    (set_ws (Some (connecting attempt j))
       (set_effects
          (effects w ++ posts (Content m) (Some port) (tabPorts w)
             ++ [WsNew attempt (endpoint j)])
          (set_reconnectionAttempts (S attempt)
             (set_outgoingQueue (outgoingQueue w ++ [envelope_of m])
                (set_messageHistory (messageHistory w ++ [m]) w)))),
     Normal tt).
Proof.
  intros Hws Hon Hj attempt. rewrite onTabMessage_content.
  unfold flush_or_connect, triggerWsConnection, bind, gets, when, modify, emit,
    modify. simpl.
  rewrite Hws. simpl. rewrite Hon. simpl. rewrite Hj. simpl.
  destruct w; simpl in *. unfold received, set_ws, set_effects. simpl.
  by rewrite <- app_assoc.
Qed.

(** The first content message connects, and goes out when the socket
    opens.  Take a run in which a content message arrives with no socket
    held, the network up and a join stored, and the socket created for it
    opens next (so that the constructor has accepted the stored
    endpoint).  The message is appended to the history, posted to the
    other tabs and queued, and one socket is created, for the stored
    endpoint.  At its open the worker writes to it the join, then what
    was queued before and the envelope of the message, in order, and
    posts ONLINE; the queue is empty and no other socket was created. *)
Theorem content_without_socket_connects_once (m : ContentMsg)
    (port : KiteMessagePort) (w : Worker) (j : JoinChannel) (sent opened : Z) :
  ws w = None ->
  online w = true ->
  joinChannel w = Some j ->
  let attempt := reconnectionAttempts w in
  let w' :=
    run w [(sent, TabMessage port (Content m)); (opened, SocketOpen attempt)] in
  ws w' = Some {| wsId := attempt; wsUrl := endpoint j; readyState := OPEN |} /\
  reconnectionAttempts w' = S attempt /\
  connectedTimestampMs w' = opened /\
  messageHistory w' = messageHistory w ++ [m] /\
  outgoingQueue w' = [] /\
  effects w' =
    effects w ++ posts (Content m) (Some port) (tabPorts w)
      ++ [WsNew attempt (endpoint j); WsSend attempt (Join j)]
      ++ map (WsSend attempt) (outgoingQueue w ++ [envelope_of m])
      ++ posts Online None (tabPorts w).
Proof.
  intros Hws Hon Hj attempt w'. subst w'.
  change (run w [(sent, TabMessage port (Content m)); (opened, SocketOpen attempt)])
    with (state_of
            (step opened (SocketOpen attempt)
               (state_of (onTabMessage port (Content m) w)))).
  rewrite (content_connects m port w j Hws Hon Hj). fold attempt.
  set (w1 := state_of (_, Normal tt)).
  assert (ws w1 = Some (connecting attempt j)) as Hws1 by done.
  change (step opened (SocketOpen attempt) w1)
    with (onWsOpen opened (browser_sets attempt OPEN w1)).
  set (w2 := browser_sets attempt OPEN w1).
  assert (w2 = set_ws (Some {| wsId := attempt; wsUrl := endpoint j;
                               readyState := OPEN |}) w1) as Hw2.
  { subst w2. unfold browser_sets. rewrite Hws1. simpl.
    by rewrite Nat.eqb_refl. }
  rewrite (onWsOpen_result opened w2
             {| wsId := attempt; wsUrl := endpoint j; readyState := OPEN |} j);
    [|by rewrite Hw2|done|by rewrite Hw2].
  rewrite Hw2. subst w1. unfold state_of. simpl.
  repeat split. rewrite <- !app_assoc. reflexivity.
Qed.

Lemma content_without_socket_connects_once_witness :
  let w := set_joinChannel (Some cfg_lazy) (created true) in
  let w' :=
    run w [(1, TabMessage 1%nat (Content (text_msg "m1" "hi")));
           (2, SocketOpen 0%nat)] in
  ws w = None /\ online w = true /\ joinChannel w = Some cfg_lazy /\
  effects w' =
    [WsNew 0 "wss://chat.example/ws?c=support"; WsSend 0 (Join cfg_lazy);
     WsSend 0 (Content (text_msg "m1" "hi"))] /\
  outgoingQueue w' = [] /\
  reconnectionAttempts w' = 1%nat.
Proof.
  intros w w'. split; [reflexivity|]. split; [reflexivity|]. split; [reflexivity|].
  destruct (content_without_socket_connects_once (text_msg "m1" "hi") 1%nat w
              cfg_lazy 1 2 eq_refl eq_refl eq_refl)
    as (_ & Hattempts & _ & _ & Hqueue & Heffects).
  split; [exact Heffects|]. split; [exact Hqueue|exact Hattempts].
Defined.

(** A content message before any join: with no socket held, the network up
    and no join stored, the handler throws the missing-configuration
    error, but only after the message was appended to the history, queued
    and posted to the other tabs, and after the attempt counter was
    raised; no socket is created. *)
Theorem content_before_join_throws_but_is_queued (m : ContentMsg)
    (port : KiteMessagePort) (w : Worker) :
  ws w = None ->
  online w = true ->
  joinChannel w = None ->
  onTabMessage port (Content m) w =
    (set_reconnectionAttempts (S (reconnectionAttempts w)) (received m port w),
     Throw "Missing websocket connection configuration").
Proof.
  intros Hws Hon Hj. rewrite onTabMessage_content.
  unfold flush_or_connect, triggerWsConnection, bind, gets, when, modify, throw.
  simpl. rewrite Hws. simpl. rewrite Hon. simpl. by rewrite Hj.
Qed.

Lemma content_before_join_throws_but_is_queued_witness :
  let w := set_tabPorts [1%nat; 2%nat] (created true) in
  let m := text_msg "m1" "hi" in
  ws w = None /\ online w = true /\ joinChannel w = None /\
  completion_of (onTabMessage 1%nat (Content m) w)
    = Throw "Missing websocket connection configuration" /\
  messageHistory (state_of (onTabMessage 1%nat (Content m) w)) = [m] /\
  outgoingQueue (state_of (onTabMessage 1%nat (Content m) w)) = [Content m] /\
  effects (state_of (onTabMessage 1%nat (Content m) w)) = [PostMessage 2%nat (Content m)].
Proof.
  intros w m. split; [reflexivity|]. split; [reflexivity|]. split; [reflexivity|].
  rewrite (content_before_join_throws_but_is_queued m 1%nat w eq_refl eq_refl eq_refl).
  repeat split.
Defined.

(** ** Every envelope is written once, in order, or still queued *)

Lemma envelope_frames_app a b :
  envelope_frames (a ++ b) = envelope_frames a ++ envelope_frames b.
Proof.
  induction a as [|e a IH]; simpl; [done|].
  destruct e; try exact IH.
  destruct (is_join payload); [exact IH|]. simpl. by rewrite IH.
Qed.

Lemma envelope_frames_quiet extra :
  forallb quiet extra = true -> envelope_frames extra = [].
Proof.
  induction extra as [|e extra IH]; intros Hq; [done|].
  simpl in Hq. apply andb_prop in Hq as [He Hq].
  destruct e; simpl in *; try by apply IH. discriminate He.
Qed.

Lemma handed_over_quiet es w w' extra :
  outgoingQueue w' = outgoingQueue w ->
  effects w' = effects w ++ extra -> forallb quiet extra = true ->
  handed_over es w -> handed_over es w'.
Proof.
  intros Hq Heff Hquiet [Hpend Hes]. unfold handed_over, pending_ok.
  rewrite Hq, Heff, envelope_frames_app, (envelope_frames_quiet extra) by done.
  rewrite app_nil_r. split; [exact Hpend|exact Hes].
Qed.

Section HandedOver.

Variable es : list KiteMsg.

Lemma handed_modify g :
  (forall w, outgoingQueue (g w) = outgoingQueue w /\ effects (g w) = effects w) ->
  keeps (handed_over es) (modify g).
Proof.
  intros Hg. apply keeps_modify. intros w Hw. destruct (Hg w) as [Hq Heff].
  apply (handed_over_quiet es w (g w) []); try done. by rewrite app_nil_r.
Qed.

Lemma handed_emit e : quiet e = true -> keeps (handed_over es) (emit e).
Proof.
  intros Hq. apply keeps_modify. intros w Hw.
  apply (handed_over_quiet es w _ [e]); try done. simpl. by rewrite Hq.
Qed.

Lemma handed_broadcast msg exclude : keeps (handed_over es) (broadcast msg exclude).
Proof.
  apply keeps_modify. intros w Hw.
  apply (handed_over_quiet es w _ (posts msg exclude (tabPorts w))); try done.
  apply posts_quiet.
Qed.

Lemma handed_send_join j : keeps (handed_over es) (send (Join j)).
Proof.
  intros w [Hpend Hes].
  destruct (ws w) as [s|] eqn:Hws.
  - destruct (is_open s) eqn:Hopen.
    + rewrite (send_open (Join j) w s Hws Hopen). split; [exact Hpend|].
      simpl. rewrite envelope_frames_app. simpl. by rewrite app_nil_r.
    + destruct (send_not_open (Join j) w) as [x Hx]; [by rewrite Hws|].
      by rewrite Hx.
  - destruct (send_not_open (Join j) w) as [x Hx]; [by rewrite Hws|].
    by rewrite Hx.
Qed.

Lemma handed_flushLoop n : keeps (handed_over es) (flushLoop send n).
Proof.
  induction n as [|n IH]; intros w Hw; simpl; [done|].
  destruct (outgoingQueue w) as [|payload rest] eqn:Hq; [done|].
  destruct Hw as [Hpend Hes]. unfold pending_ok in Hpend. rewrite Hq in Hpend.
  apply Forall_cons in Hpend as [Hpayload Hrest].
  destruct (ws w) as [s|] eqn:Hws.
  - destruct (is_open s) eqn:Hopen.
    + rewrite (bind_normal _ _ _ _ _ (send_open payload w s Hws Hopen)).
      unfold bind at 1. simpl. apply IH. split.
      * unfold pending_ok, shift. simpl. by rewrite Hq.
      * unfold shift. simpl. rewrite Hq, envelope_frames_app. simpl.
        rewrite Hpayload. rewrite <- Hes, Hq. by rewrite <- app_assoc.
    + destruct (send_not_open payload w) as [x Hx]; [by rewrite Hws|].
      rewrite (bind_throw _ _ _ _ _ Hx). simpl. split; [|done].
      unfold pending_ok. rewrite Hq. by apply Forall_cons.
  - destruct (send_not_open payload w) as [x Hx]; [by rewrite Hws|].
    rewrite (bind_throw _ _ _ _ _ Hx). simpl. split; [|done].
    unfold pending_ok. rewrite Hq. by apply Forall_cons.
Qed.

End HandedOver.

Create HintDb handed.
#[local] Hint Resolve keeps_ret keeps_throw keeps_gets keeps_assert
  handed_broadcast handed_send_join handed_flushLoop : handed.
#[local] Hint Extern 1 (keeps (handed_over _) (emit _)) =>
  apply handed_emit; reflexivity : handed.

Ltac handed_step :=
  first
    [ solve [auto with handed]
    | apply keeps_bind; [|intros ?]
    | apply keeps_when
    | apply handed_modify; intros ?; split; reflexivity
    | match goal with
      | |- keeps _ (match ?x with _ => _ end) => destruct x
      | |- keeps _ (if ?x then _ else _) => destruct x
      | |- keeps _ (let _ := _ in _) => cbv zeta
      end ].
Ltac handed := repeat handed_step.

Lemma handed_flush_or_connect es : keeps (handed_over es) flush_or_connect.
Proof. unfold flush_or_connect, flushQueue, flushQueue_with. handed. Qed.
#[local] Hint Resolve handed_flush_or_connect : handed.

Lemma handed_browser_sets es id rs : keeps (handed_over es) (modify (browser_sets id rs)).
Proof.
  apply handed_modify. intros w. unfold browser_sets.
  destruct (ws w) as [s|]; [|done]. by destruct (wsId s =? id)%nat.
Qed.
#[local] Hint Resolve handed_browser_sets : handed.

Lemma envelope_of_not_join m : is_join (envelope_of m) = false.
Proof. unfold envelope_of. by destruct (body m). Qed.

Lemma handed_received es m port w :
  handed_over es w -> handed_over (es ++ [envelope_of m]) (received m port w).
Proof.
  intros [Hpend Hes]. split.
  - unfold pending_ok, received. simpl. apply Forall_app. split; [exact Hpend|].
    apply Forall_cons. split; [apply envelope_of_not_join|constructor].
  - unfold received. simpl.
    rewrite envelope_frames_app, (envelope_frames_quiet (posts _ _ _))
      by apply posts_quiet.
    rewrite app_nil_r, app_assoc. by rewrite Hes.
Qed.

Lemma step_handed_over es now ev w :
  handed_over es w -> handed_over (es ++ enqueued ev) (state_of (step now ev w)).
Proof.
  intros Hw.
  destruct ev as [port|port payload| | |id|id|id| |data]; simpl;
    rewrite ?app_nil_r.
  - revert w Hw. change (keeps (handed_over es) (onTabConnected port)).
    unfold onTabConnected. handed.
  - destruct payload; simpl; rewrite ?app_nil_r; try done.
    + revert w Hw. change (keeps (handed_over es) (onJoinChannel j)).
      unfold onJoinChannel, triggerWsConnection. handed.
    + change (handed_over (es ++ [envelope_of m])
                (state_of (onTabMessage port (Content m) w))).
      rewrite onTabMessage_content.
      apply handed_flush_or_connect. by apply handed_received.
    + revert w Hw. change (keeps (handed_over es) (onTabDisconnected port)).
      unfold onTabDisconnected, ws_close. handed.
  - revert w Hw. change (keeps (handed_over es) onOnline).
    unfold onOnline, triggerWsConnection. handed.
  - revert w Hw. change (keeps (handed_over es) onOffline).
    unfold onOffline, ws_close. handed.
  - revert w Hw.
    change (keeps (handed_over es) (modify (browser_sets id OPEN) ;; onWsOpen now)).
    unfold onWsOpen, flushQueue, flushQueue_with. handed.
  - revert w Hw.
    change (keeps (handed_over es) (modify (browser_sets id CLOSED) ;; onWsClose now)).
    unfold onWsClose, triggerWsConnection. handed.
  - done.
  - revert w Hw. change (keeps (handed_over es) triggerWsConnection).
    unfold triggerWsConnection. handed.
  - unfold deliver, onWsMessage.
    destruct (msgType (decoded data)); simpl; try done.
    + apply (handed_over_quiet es w _
               (posts (Content (seenAsPlaintextMsg data)) None (tabPorts w)));
        try done.
      apply posts_quiet.
    + eapply (handed_over_quiet es w); [reflexivity|reflexivity| |exact Hw].
      reflexivity.
    + assert (keeps (handed_over es) (onMessageAck (seenAsMsgAck data)))
        as Hack by (unfold onMessageAck; handed).
      specialize (Hack w Hw). unfold bind at 1. unfold bind at 1.
      by destruct (onMessageAck (seenAsMsgAck data) w) as [w' [[]|e]].
Qed.

Lemma run_handed_over trace :
  forall es w,
    handed_over es w -> handed_over (es ++ envelopes trace) (run w trace).
Proof.
  induction trace as [|[now ev] trace IH]; intros es w Hw; simpl.
  - by rewrite app_nil_r.
  - unfold envelopes. simpl. fold (envelopes trace). rewrite app_assoc.
    apply IH. by apply step_handed_over.
Qed.

(** Nothing a tab hands over is lost, doubled or overtaken.  In every run
    of the worker from its creation, the envelopes that the tabs have
    handed over (a plaintext message as it is, a file message as its
    upload intent) are, in the order they were handed over, exactly the
    frames written to the sockets so far, joins left out, followed by the
    envelopes still on the queue; this holds across closes, reconnections
    and failed flushes.  The run has no Ack in it: an Ack rewrites the
    message object, which a queued envelope shares in the worker. *)
Theorem envelopes_written_once_in_order_or_queued (navigatorOnLine : bool)
    (trace : list (Z * Event)) :
  forallb (fun timed => negb (is_ack (snd timed))) trace = true ->
  let w := run (created navigatorOnLine) trace in
  envelope_frames (effects w) ++ outgoingQueue w = envelopes trace.
Proof.
  intros _ w.
  assert (handed_over [] (created navigatorOnLine)) as Hstart.
  { split; [constructor|reflexivity]. }
  destruct (run_handed_over trace [] _ Hstart) as [_ Hes]. exact Hes.
Qed.

Lemma envelopes_written_once_in_order_or_queued_witness :
  forallb (fun timed => negb (is_ack (snd timed))) send_wait_open_send = true /\
  envelope_frames (effects (run (created true) send_wait_open_send))
    ++ outgoingQueue (run (created true) send_wait_open_send)
  = [Content (text_msg "m1" "hi");
     UploadMsg {| up_messageId := "f1"; fileName := "a.png";
                  fileType := "image/png"; fileSize := 10 |}].
Proof.
  split; [reflexivity|].
  exact (envelopes_written_once_in_order_or_queued true send_wait_open_send eq_refl).
Defined.

(** ** Broadcasts *)

Lemma flushLoop_preserves {X} (f : Worker -> X) n :
  (forall v w, f (set_effects v w) = f w) ->
  (forall v w, f (set_outgoingQueue v w) = f w) ->
  preserves f (flushLoop send n).
Proof.
  intros Heff Hqueue.
  induction n as [|n IH]; intros w; simpl; [done|].
  destruct (outgoingQueue w) as [|payload rest]; [done|].
  unfold bind at 1.
  destruct (ws w) as [s|] eqn:Hws.
  - destruct (is_open s) eqn:Hopen.
    + rewrite (send_open payload w s Hws Hopen). unfold bind at 1. simpl.
      rewrite IH. unfold shift. by rewrite Hqueue, Heff.
    + destruct (send_not_open payload w) as [x Hx]; [by rewrite Hws|].
      by rewrite Hx.
  - destruct (send_not_open payload w) as [x Hx]; [by rewrite Hws|].
    by rewrite Hx.
Qed.

Lemma flushLoop_tabPorts n : preserves tabPorts (flushLoop send n).
Proof. by apply flushLoop_preserves. Qed.
#[local] Hint Resolve flushLoop_tabPorts : preserves.

Lemma browser_sets_tabPorts id rs w : tabPorts (browser_sets id rs w) = tabPorts w.
Proof.
  unfold browser_sets. destruct (ws w) as [s|]; [|done].
  by destruct (wsId s =? id)%nat.
Qed.

(** Only attaching and detaching write to [tabPorts]. *)
Lemma step_tabPorts now ev w :
  tabPorts (state_of (step now ev w)) =
    match ev with
    | TabConnect port => ports_add port (tabPorts w)
    | TabMessage port Disconnected => ports_delete port (tabPorts w)
    | _ => tabPorts w
    end.
Proof.
  destruct ev as [port|port payload| | |id|id|id| |data]; simpl.
  - done.
  - destruct payload; try (simpl; done).
    + revert w. change (preserves tabPorts (onJoinChannel j)).
      unfold onJoinChannel. frame.
    + change (tabPorts (state_of (onTabMessage port (Content m) w)) = tabPorts w).
      rewrite onTabMessage_content_state.
      assert (preserves tabPorts flush_or_connect) as Hf
        by (unfold flush_or_connect; frame).
      by rewrite Hf.
    + simpl. unfold onTabDisconnected, ws_close, bind, gets, modify, emit, modify, when,
        ret, state_of. simpl.
      destruct (length (ports_delete port (tabPorts w)) =? 0)%nat; simpl; [|done].
      by destruct (ws w).
  - revert w. change (preserves tabPorts onOnline).
    unfold onOnline. frame.
  - revert w. change (preserves tabPorts onOffline).
    unfold onOffline. frame.
  - revert w.
    change (preserves tabPorts (modify (browser_sets id OPEN) ;; onWsOpen now)).
    unfold onWsOpen. frame.
    apply preserves_modify, browser_sets_tabPorts.
  - revert w.
    change (preserves tabPorts (modify (browser_sets id CLOSED) ;; onWsClose now)).
    unfold onWsClose. frame.
    apply preserves_modify, browser_sets_tabPorts.
  - done.
  - revert w. change (preserves tabPorts triggerWsConnection).
    unfold triggerWsConnection. frame.
  - unfold deliver, onWsMessage.
    destruct (msgType (decoded data)); simpl; try done.
    unfold onMessageAck, bind, gets, modify, broadcast, modify, ret, state_of.
    simpl. by destruct (findLast _ (messageHistory w)) as [[i msg]|].
Qed.

Lemma ports_add_NoDup port ports : NoDup ports -> NoDup (ports_add port ports).
Proof.
  intros Hnd. unfold ports_add.
  destruct (existsb (Nat.eqb port) ports) eqn:Hex; [done|].
  apply NoDup_app. split; [done|]. split; [|apply NoDup_singleton].
  intros q Hq Hq'. apply list_elem_of_singleton in Hq'. subst q.
  assert (existsb (Nat.eqb port) ports = true) as Hyes.
  { apply existsb_exists. exists port. split; [by apply list_elem_of_In|].
    apply Nat.eqb_refl. }
  congruence.
Qed.

Lemma ports_delete_NoDup port ports : NoDup ports -> NoDup (ports_delete port ports).
Proof. intros Hnd. unfold ports_delete. by apply NoDup_filter. Qed.

Lemma run_tabPorts_NoDup trace :
  forall w, NoDup (tabPorts w) -> NoDup (tabPorts (run w trace)).
Proof.
  induction trace as [|[now ev] trace IH]; intros w Hnd; simpl; [done|].
  apply IH. rewrite step_tabPorts.
  destruct ev as [port|port payload| | | | | | |]; try done.
  - by apply ports_add_NoDup.
  - destruct payload; try done. by apply ports_delete_NoDup.
Qed.

(** One broadcast reaches every attached tab but the excluded one, each
    exactly once, with the message as given.  The tabs the worker holds
    are never listed twice, in any run from its creation, so the sender
    of a content message gets no echo and every other tab gets the
    message once. *)
Theorem broadcast_reaches_each_other_tab_once :
  (forall navigatorOnLine trace,
      NoDup (tabPorts (run (created navigatorOnLine) trace))) /\
  (forall msg exclude (ports : list KiteMessagePort),
      NoDup ports ->
      NoDup (posts msg exclude ports) /\
      forall q msg',
        In (PostMessage q msg') (posts msg exclude ports) <->
        (q ∈ ports /\ exclude <> Some q /\ msg' = msg)).
Proof.
  split.
  { intros on trace. apply run_tabPorts_NoDup. constructor. }
  intros msg exclude ports Hnd. unfold posts. split.
  - apply NoDup_fmap_2; [|by apply NoDup_filter].
    intros a b Hab. by inversion Hab.
  - intros q msg'. rewrite <- list_elem_of_In, list_elem_of_fmap. split.
    + intros (p & Heq & Hp). inversion Heq; subst.
      apply list_elem_of_filter in Hp as [Hne Hp]. done.
    + intros (Hq & Hne & ->). exists q. split; [done|].
      by apply list_elem_of_filter.
Qed.

Lemma broadcast_reaches_each_other_tab_once_witness :
  NoDup [1%nat; 2%nat; 3%nat] /\
  posts Online (Some 2%nat) [1%nat; 2%nat; 3%nat]
  = [PostMessage 1%nat Online; PostMessage 3%nat Online] /\
  NoDup (posts Online (Some 2%nat) [1%nat; 2%nat; 3%nat]).
Proof.
  assert (NoDup [1%nat; 2%nat; 3%nat]) as Hnd.
  { repeat constructor; intros H; repeat (apply elem_of_cons in H as [H|H]; [discriminate H|]);
      by apply elem_of_nil in H. }
  split; [exact Hnd|]. split; [reflexivity|].
  destruct broadcast_reaches_each_other_tab_once as [_ Hposts].
  exact (proj1 (Hposts Online (Some 2%nat) [1%nat; 2%nat; 3%nat] Hnd)).
Defined.

(** ** Network transitions *)

(** Going offline forgets the socket; it is closed only when it was open. *)
Lemma onOffline_result (w : Worker) :
  onOffline w =
    (set_ws None
       (set_effects (effects w ++ offline_close w) (set_online false w)),
     Normal tt).
Proof.
  unfold onOffline, ws_close, offline_close, bind, gets, modify, emit, modify,
    when, ret. simpl.
  destruct w as [cur jc history queue tabs on connected attempts log]. simpl.
  destruct cur as [s|]; simpl.
  - destruct (is_open s); simpl; unfold set_ws, set_effects, set_online; simpl;
      by rewrite ?app_nil_r.
  - unfold set_ws, set_effects, set_online. simpl. by rewrite app_nil_r.
Qed.

(** [onWsOpen] for a socket the worker does not hold open, as when the
    worker went offline while the socket was connecting: the handler
    throws, nothing is written to a socket, the queue keeps its envelopes
    and ONLINE is not posted; the only write is the clock reading. *)
Theorem onWsOpen_without_open_socket_only_stamps_the_clock (now : Z) (w : Worker) :
  match ws w with Some s => is_open s | None => false end = false ->
  onWsOpen now w =
    (set_connectedTimestampMs now w,
     Throw match joinChannel w, ws w with
           | None, _ => "no pending joinChannel message"
           | Some _, None => "No Websocket connection"
           | Some _, Some _ => "Websocket is not ready"
           end).
Proof.
  intros Hclosed.
  unfold onWsOpen, send, bind, gets, modify, assert, throw. simpl.
  destruct (joinChannel w) as [j|]; [|done]. simpl.
  destruct (ws w) as [s|]; [|done]. simpl. by rewrite Hclosed.
Qed.

Lemma onWsOpen_without_open_socket_only_stamps_the_clock_witness :
  let w := run (created true)
             [(0, TabConnect 1%nat); (1, TabMessage 1%nat (Join cfg_eager));
              (2, TabMessage 1%nat (Content (text_msg "m1" "hi"))); (3, NetOffline)] in
  ws w = None /\
  completion_of (step 4 (SocketOpen 0%nat) w) = Throw "No Websocket connection" /\
  outgoingQueue (state_of (step 4 (SocketOpen 0%nat) w)) = [Content (text_msg "m1" "hi")] /\
  effects (state_of (step 4 (SocketOpen 0%nat) w)) = effects w.
Proof.
  intros w.
  assert (ws w = None) as Hws by (vm_compute; reflexivity).
  assert (joinChannel w = Some cfg_eager) as Hj by (vm_compute; reflexivity).
  assert (step 4 (SocketOpen 0%nat) w = onWsOpen 4 w) as Hstep.
  { simpl. unfold bind at 1. simpl. unfold browser_sets. by rewrite Hws. }
  assert (match ws w with Some s => is_open s | None => false end = false) as Hc
    by (by rewrite Hws).
  split; [exact Hws|].
  rewrite Hstep, (onWsOpen_without_open_socket_only_stamps_the_clock 4 w Hc).
  rewrite Hj, Hws. split; [reflexivity|]. split; [|reflexivity].
  vm_compute. reflexivity.
Defined.

(** Coming back online connects when a tab is attached and an envelope
    waits or the stored flag is eager. *)
Lemma onOnline_result (w : Worker) :
  let wanted :=
    negb (length (tabPorts w) =? 0)%nat
    && ((0 <? length (outgoingQueue w))%nat
        || truthy (joinChannel w ≫= eagerlyConnect)) in
  let attempt := reconnectionAttempts w in
  onOnline w =
    if wanted then
      match joinChannel w with
      | Some j =>
          (set_ws (Some (connecting attempt j))
             (set_effects (effects w ++ [WsNew attempt (endpoint j)])
                (set_reconnectionAttempts (S attempt) (set_online true w))),
           Normal tt)
      | None =>
          (set_reconnectionAttempts (S attempt) (set_online true w),
           Throw "Missing websocket connection configuration")
      end
    else (set_online true w, Normal tt).
Proof.
  destruct w as [cur jc history queue tabs on connected attempts log].
  unfold onOnline, triggerWsConnection, bind, gets, modify, emit, modify, throw, ret.
  simpl.
  destruct (length tabs =? 0)%nat; simpl; [done|].
  destruct (0 <? length queue)%nat; simpl.
  - by destruct jc.
  - destruct jc as [j|]; simpl; [|done].
    by destruct (truthy (eagerlyConnect j)).
Qed.

(** ** Closes *)

(** A close while offline, or with no tab attached, tears the connection
    down: OFFLINE with the session duration is posted to the tabs, the
    socket is forgotten, no timer is armed and no socket is created. *)
Theorem onWsClose_offline_or_without_tabs_does_not_reconnect (now : Z) (w : Worker) :
  online w = false \/ tabPorts w = [] ->
  onWsClose now w =
    (set_ws None
       (set_effects
          (effects w
             ++ posts (Offline (sessionDuration now (connectedTimestampMs w))) None
                      (tabPorts w))
          w),
     Normal tt).
Proof.
  intros Hcase.
  unfold onWsClose, bind, gets, broadcast, modify. simpl.
  destruct (online w); simpl; [|done].
  destruct Hcase as [Hoff|Htabs]; [done|]. by rewrite Htabs.
Qed.

Lemma onWsClose_offline_or_without_tabs_does_not_reconnect_witness :
  let w := set_online false two_tabs_open in
  (online w = false \/ tabPorts w = []) /\
  ws (state_of (onWsClose 500 w)) = None /\
  reconnectionAttempts (state_of (onWsClose 500 w)) = reconnectionAttempts w /\
  effects (state_of (onWsClose 500 w))
  = [PostMessage 1%nat (Offline 0); PostMessage 2%nat (Offline 0)].
Proof.
  intros w.
  assert (online w = false \/ tabPorts w = []) as Hcase by (left; reflexivity).
  split; [exact Hcase|].
  rewrite (onWsClose_offline_or_without_tabs_does_not_reconnect 500 w Hcase).
  split; [reflexivity|]. split; reflexivity.
Defined.

(** A server that accepts and closes cannot cause a tight loop: when the
    socket closes less than [MIN_RECONNECTION_INTERVAL_MS] after it
    opened, with the network up and a tab attached, OFFLINE is posted and
    a timer is armed for the rest of the interval; no socket is created
    in the handler. *)
Theorem close_soon_after_open_arms_timer_for_the_rest (now : Z) (w : Worker) :
  online w = true ->
  tabPorts w <> [] ->
  connectedTimestampMs w <> 0 ->
  now - connectedTimestampMs w < MIN_RECONNECTION_INTERVAL_MS ->
  let session := now - connectedTimestampMs w in
  onWsClose now w =
    (set_effects
       (effects w ++ posts (Offline session) None (tabPorts w)
          ++ [SetTimeout (MIN_RECONNECTION_INTERVAL_MS - session)])
       w,
     Normal tt).
Proof.
  intros Hon Htabs Hconn Hsoon session.
  assert ((length (tabPorts w) =? 0)%nat = false) as Hlen.
  { destruct (tabPorts w); [done|reflexivity]. }
  assert (sessionDuration now (connectedTimestampMs w) = session) as Hd.
  { unfold sessionDuration.
    destruct (Z.eqb_spec (connectedTimestampMs w) 0); [done|reflexivity]. }
  unfold onWsClose, bind, gets, broadcast, modify, emit, modify. simpl.
  rewrite Hon. simpl. rewrite Hlen, Hd.
  rewrite Z.gtb_ltb.
  destruct (Z.ltb_spec 0 (MIN_RECONNECTION_INTERVAL_MS - session)); [|lia].
  destruct w; simpl. unfold set_effects. simpl. by rewrite <- app_assoc.
Qed.

Lemma close_soon_after_open_arms_timer_for_the_rest_witness :
  let w := set_connectedTimestampMs 1000 two_tabs_open in
  online w = true /\ tabPorts w <> [] /\ connectedTimestampMs w <> 0 /\
  1500 - connectedTimestampMs w < MIN_RECONNECTION_INTERVAL_MS /\
  effects (state_of (onWsClose 1500 w))
  = [PostMessage 1%nat (Offline 500); PostMessage 2%nat (Offline 500);
     SetTimeout 59500].
Proof.
  intros w.
  assert (tabPorts w <> []) as Htabs by discriminate.
  assert (connectedTimestampMs w <> 0) as Hconn by discriminate.
  assert (1500 - connectedTimestampMs w < MIN_RECONNECTION_INTERVAL_MS) as Hsoon
    by reflexivity.
  split; [reflexivity|]. split; [exact Htabs|]. split; [exact Hconn|].
  split; [exact Hsoon|].
  rewrite (close_soon_after_open_arms_timer_for_the_rest 1500 w eq_refl Htabs Hconn Hsoon).
  reflexivity.
Defined.

(** ** Detaching while other tabs stay *)

(** When tabs remain after a detach, the port is closed and taken off the
    list and nothing else happens: the socket is not closed. *)
Theorem detach_with_tabs_left_keeps_socket (port : KiteMessagePort) (w : Worker) :
  ports_delete port (tabPorts w) <> [] ->
  onTabDisconnected port w =
    (set_tabPorts (ports_delete port (tabPorts w))
       (set_effects (effects w ++ [PortClose port]) w),
     Normal tt).
Proof.
  intros Hleft.
  unfold onTabDisconnected, bind, gets, modify, emit, modify, when, ret. simpl.
  destruct (ports_delete port (tabPorts w)) as [|p ps] eqn:Hp; [done|].
  reflexivity.
Qed.

Lemma detach_with_tabs_left_keeps_socket_witness :
  ports_delete 1%nat (tabPorts two_tabs_open) <> [] /\
  tabPorts (state_of (onTabDisconnected 1%nat two_tabs_open)) = [2%nat] /\
  ws (state_of (onTabDisconnected 1%nat two_tabs_open)) = Some open_socket /\
  effects (state_of (onTabDisconnected 1%nat two_tabs_open)) = [PortClose 1%nat].
Proof.
  assert (ports_delete 1%nat (tabPorts two_tabs_open) <> []) as Hleft
    by (vm_compute; discriminate).
  split; [exact Hleft|].
  rewrite (detach_with_tabs_left_keeps_socket 1%nat two_tabs_open Hleft).
  split; [reflexivity|]. split; reflexivity.
Defined.

(** When the last tab detaches while a socket is held, the handler asks
    the socket to close with code 1001, which is no code a script may
    close with (1000 and 3000 to 4999 are): the call throws
    InvalidAccessError.  The port was closed and taken off the list
    before; the socket is neither closed nor forgotten. *)
Theorem last_detach_is_refused_and_keeps_the_socket (port : KiteMessagePort)
    (w : Worker) (s : WebSocket) :
  ws w = Some s ->
  ports_delete port (tabPorts w) = [] ->
  onTabDisconnected port w =
    (set_tabPorts [] (set_effects (effects w ++ [PortClose port]) w),
     Throw "InvalidAccessError").
Proof.
  intros Hws Hlast.
  unfold onTabDisconnected, ws_close, bind, gets, emit, modify, when, assert,
    throw. simpl.
  rewrite Hlast. simpl. by rewrite Hws.
Qed.

Lemma last_detach_is_refused_and_keeps_the_socket_witness :
  let w := set_tabPorts [1%nat] two_tabs_open in
  let result := onTabDisconnected 1%nat w in
  ws w = Some open_socket /\
  completion_of result = Throw "InvalidAccessError" /\
  ws (state_of result) = Some open_socket /\
  effects (state_of result) = [PortClose 1%nat].
Proof.
  intros w result. split; [reflexivity|]. subst result.
  rewrite (last_detach_is_refused_and_keeps_the_socket 1%nat w open_socket
             eq_refl eq_refl).
  repeat split.
Defined.

(** ** Offline and back *)

Lemma run_app a b : forall w, run w (a ++ b) = run (run w a) b.
Proof. induction a as [|[now ev] a IH]; intros w; simpl; [done|apply IH]. Qed.

Lemma all_received_fields msgs :
  forall w,
    let w' := all_received msgs w in
    ws w' = ws w /\ online w' = online w /\ joinChannel w' = joinChannel w /\
    tabPorts w' = tabPorts w /\
    reconnectionAttempts w' = reconnectionAttempts w /\
    connectedTimestampMs w' = connectedTimestampMs w /\
    messageHistory w' = messageHistory w ++ map snd msgs /\
    outgoingQueue w' = outgoingQueue w ++ map (fun pm => envelope_of (snd pm)) msgs /\
    effects w' = effects w ++ told msgs (tabPorts w).
Proof.
  induction msgs as [|[port m] msgs IH]; intros w; simpl.
  - by rewrite !app_nil_r.
  - destruct (IH (received m port w))
      as (Hws & Hon & Hj & Htabs & Hn & Hc & Hh & Hq & He).
    unfold all_received in *. simpl in *.
    rewrite Hws, Hon, Hj, Htabs, Hn, Hc, Hh, Hq, He.
    by rewrite <- !app_assoc.
Qed.

Lemma run_offline_sends msgs :
  forall w,
    ws w = None -> online w = false ->
    run w (tab_sends msgs) = all_received msgs w.
Proof.
  induction msgs as [|[port m] msgs IH]; intros w Hws Hoff; [done|].
  change (run w (tab_sends ((port, m) :: msgs)))
    with (run (state_of (onTabMessage port (Content m) w)) (tab_sends msgs)).
  rewrite (content_idle m port w) by (by rewrite Hws).
  apply IH; done.
Qed.

(** Messages sent while the network is down go out after it is back.
    Let a join be stored and a tab be attached.  The network goes down,
    the tabs send the messages [msgs], not none, the network comes back
    and the socket created then opens.  While the network is down every
    message is appended to the history, posted to the other tabs and
    queued, and nothing else happens.  Coming back creates exactly one
    socket, and when it opens the worker writes to it the join, then what
    was queued before and the envelopes of [msgs], in order, and posts
    ONLINE; the queue is empty. *)
Theorem queued_while_offline_is_written_after_reconnect (w : Worker)
    (j : JoinChannel) (msgs : list (KiteMessagePort * ContentMsg))
    (back opened : Z) :
  joinChannel w = Some j ->
  tabPorts w <> [] ->
  msgs <> [] ->
  let attempt := reconnectionAttempts w in
  let w' := run w (offline_then_back w msgs back opened) in
  ws w' = Some {| wsId := attempt; wsUrl := endpoint j; readyState := OPEN |} /\
  online w' = true /\
  reconnectionAttempts w' = S attempt /\
  connectedTimestampMs w' = opened /\
  messageHistory w' = messageHistory w ++ map snd msgs /\
  outgoingQueue w' = [] /\
  effects w' =
    effects w ++ offline_close w ++ told msgs (tabPorts w)
      ++ [WsNew attempt (endpoint j); WsSend attempt (Join j)]
      ++ map (WsSend attempt)
             (outgoingQueue w ++ map (fun pm => envelope_of (snd pm)) msgs)
      ++ posts Online None (tabPorts w).
Proof.
  intros Hj Htabs Hmsgs attempt w'.
  set (w1 := set_ws None
               (set_effects (effects w ++ offline_close w) (set_online false w))).
  set (w2 := all_received msgs w1).
  destruct (all_received_fields msgs w1)
    as (Hws & Hon & Hjc & Htp & Hn & Hc & Hh & Hq & He).
  fold w2 in Hws, Hon, Hjc, Htp, Hn, Hc, Hh, Hq, He.
  simpl in Hws, Hon, Hjc, Htp, Hn, Hc, Hh, Hq, He.
  set (sock := connecting attempt j).
  set (w3 := set_ws (Some sock)
               (set_effects (effects w2 ++ [WsNew attempt (endpoint j)])
                  (set_reconnectionAttempts (S attempt) (set_online true w2)))).
  set (opened_sock := {| wsId := attempt; wsUrl := endpoint j; readyState := OPEN |}).
  set (w4 := set_ws (Some opened_sock) w3).
  assert (state_of (onOnline w2) = w3) as Honline.
  { rewrite onOnline_result. rewrite Hjc, Hj, Htp, Hq, Hn. simpl.
    assert ((length (tabPorts w) =? 0)%nat = false) as ->.
    { destruct (tabPorts w); [done|reflexivity]. }
    assert ((0 <? length (outgoingQueue w
                            ++ map (fun pm => envelope_of (snd pm)) msgs))%nat = true)
      as ->.
    { destruct msgs as [|pm msgs']; [done|].
      rewrite length_app. simpl. apply Nat.ltb_lt. lia. }
    reflexivity. }
  assert (browser_sets attempt OPEN w3 = w4) as Hbrowser.
  { unfold browser_sets, w3. simpl. by rewrite Nat.eqb_refl. }
  assert (w' =
          state_of (onWsOpen opened w4)) as ->.
  { subst w'. unfold offline_then_back.
    change (run w ((0, NetOffline) :: tab_sends msgs
                     ++ [(back, NetOnline);
                         (opened, SocketOpen (reconnectionAttempts w))]))
      with (run (state_of (onOffline w))
              (tab_sends msgs
                 ++ [(back, NetOnline); (opened, SocketOpen attempt)])).
    rewrite onOffline_result. fold w1.
    rewrite run_app. simpl state_of.
    rewrite (run_offline_sends msgs w1) by done. fold w2.
    change (run w2 [(back, NetOnline); (opened, SocketOpen attempt)])
      with (state_of
              ((modify (browser_sets attempt OPEN) ;; onWsOpen opened)
                 (state_of (onOnline w2)))).
    rewrite Honline. unfold bind at 1. simpl. by rewrite Hbrowser. }
  rewrite (onWsOpen_result opened w4 opened_sock j eq_refl eq_refl);
    [|simpl; by rewrite Hjc].
  simpl. rewrite Hh, Hq, He, Htp.
  split; [reflexivity|]. split; [reflexivity|]. split; [reflexivity|].
  split; [reflexivity|]. split; [reflexivity|]. split; [reflexivity|].
  rewrite <- !app_assoc. simpl. reflexivity.
Qed.

Lemma queued_while_offline_is_written_after_reconnect_witness :
  let msgs := [(1%nat, text_msg "m2" "there"); (2%nat, file_msg "f2" "b.png")] in
  let w' := run two_tabs_open (offline_then_back two_tabs_open msgs 10 20) in
  joinChannel two_tabs_open = Some cfg_lazy /\
  tabPorts two_tabs_open <> [] /\
  msgs <> [] /\
  outgoingQueue w' = [] /\
  reconnectionAttempts w' = 2%nat /\
  envelope_frames (effects w')
  = [Content (text_msg "m1" "hi"); UploadMsg sample_upload;
     Content (text_msg "m2" "there");
     UploadMsg {| up_messageId := "f2"; fileName := "b.png";
                  fileType := "image/png"; fileSize := 10 |}].
Proof.
  intros msgs w'.
  assert (tabPorts two_tabs_open <> []) as Htabs by discriminate.
  assert (msgs <> []) as Hmsgs by discriminate.
  split; [reflexivity|]. split; [exact Htabs|]. split; [exact Hmsgs|].
  destruct (queued_while_offline_is_written_after_reconnect two_tabs_open cfg_lazy
              msgs 10 20 eq_refl Htabs Hmsgs)
    as (_ & _ & Hn & _ & _ & Hq & He).
  split; [exact Hq|]. split; [exact Hn|].
  fold w' in He. rewrite He. vm_compute. reflexivity.
Defined.

(** ** Frames never drive the connection *)

Lemma forallb_to_tabs_posts msg exclude ports :
  forallb to_tabs_only (posts msg exclude ports) = true.
Proof.
  unfold posts. induction (filter _ ports) as [|p ps IH]; [done|exact IH].
Qed.

(** Whatever frame the backend sends and whatever message the codec
    decodes it to, handling it writes nothing to a socket, creates and
    closes no socket, arms no timer, and leaves the socket variable, the
    stored join, the tabs, the online flag, the clock reading and the
    attempt counter as they were; all it does besides the history is
    posting to tabs, and for a binary reference the dropped rejection.
    No envelope is put on the queue or taken off it, and a frame that is
    not an Ack leaves the queue as it was.  An ERROR frame changes
    nothing and reaches no tab (it is only written to the console). *)
Theorem frames_leave_the_connection_alone (Raw : Type)
    (decode : Raw -> KiteMsg) (asP : Raw -> ContentMsg) (asB : Raw -> BinMsg)
    (asA : Raw -> MsgAck) (asE : Raw -> ErrorResponse) (payload : Raw)
    (w : Worker) :
  let result := deliver Raw decode asP asB asA asE payload w in
  let w' := state_of result in
  ws w' = ws w /\ joinChannel w' = joinChannel w /\
  tabPorts w' = tabPorts w /\
  online w' = online w /\ connectedTimestampMs w' = connectedTimestampMs w /\
  reconnectionAttempts w' = reconnectionAttempts w /\
  (exists extra,
      effects w' = effects w ++ extra /\ forallb to_tabs_only extra = true) /\
  length (outgoingQueue w') = length (outgoingQueue w) /\
  (msgType (decode payload) <> ACK -> outgoingQueue w' = outgoingQueue w) /\
  (msgType (decode payload) = ERROR -> w' = w).
Proof.
  unfold deliver, onWsMessage.
  destruct (msgType (decode payload)) eqn:Htag; simpl;
    try (repeat (split; [reflexivity|]); split;
         [exists []; by rewrite app_nil_r|done]).
  - repeat (split; [reflexivity|]). split; [|done].
    eexists. split; [reflexivity|]. apply forallb_to_tabs_posts.
  - repeat (split; [reflexivity|]). split; [|done].
    eexists. split; [reflexivity|]. reflexivity.
  - unfold onMessageAck, bind, gets, modify, broadcast, modify, ret, state_of,
      completion_of. simpl.
    destruct (findLast _ (messageHistory w)) as [[i msg]|]; simpl;
      (repeat (split; [reflexivity|]); split; [|done];
       eexists; split; [reflexivity|]; apply forallb_to_tabs_posts).
Qed.

Lemma dialled_app a b : dialled (a ++ b) = dialled a ++ dialled b.
Proof. unfold dialled. apply flat_map_app. Qed.

Lemma dialled_posts msg exclude ports : dialled (posts msg exclude ports) = [].
Proof.
  unfold posts. induction (filter _ ports) as [|p ps IH]; [done|exact IH].
Qed.

Lemma frame_dials_nothing data w :
  let w' := state_of (step 0 (SocketMessage data) w) in
  joinChannel w' = joinChannel w /\
  exists extra, effects w' = effects w ++ extra /\ dialled extra = [].
Proof.
  simpl. unfold deliver, onWsMessage.
  destruct (msgType (decoded data)); simpl;
    try (split; [reflexivity|]; exists []; by rewrite app_nil_r).
  - split; [reflexivity|]. eexists. split; [reflexivity|]. apply dialled_posts.
  - split; [reflexivity|]. eexists. split; [reflexivity|]. reflexivity.
  - unfold onMessageAck, bind, gets, modify, broadcast, modify, ret, state_of.
    simpl.
    destruct (findLast _ (messageHistory w)) as [[i msg]|]; simpl;
      (split; [reflexivity|]; eexists; split; [reflexivity|]; apply dialled_posts).
Qed.

(** ** Acks that match nothing *)

Lemma findLast_not_found {A} (pred : A -> bool) (l : list A) :
  (forall x, x ∈ l -> pred x = false) -> findLast pred l = None.
Proof.
  induction l as [|a l IH]; intros Hall; simpl; [done|].
  rewrite IH by (intros x Hx; apply Hall; by apply list_elem_of_further).
  by rewrite (Hall a) by apply list_elem_of_here.
Qed.

(** An Ack whose local id no history entry carries leaves the history
    untouched and is still posted to every tab; the handler returns. *)
Theorem unmatched_ack_is_forwarded_and_changes_nothing (a : MsgAck) (w : Worker) :
  ack_messageId a ∉ map messageId (messageHistory w) ->
  onMessageAck a w =
    (set_effects (effects w ++ posts (Ack a) None (tabPorts w)) w, Normal tt).
Proof.
  intros Hnot.
  unfold onMessageAck, bind, gets, modify, broadcast, modify, ret. simpl.
  rewrite findLast_not_found; [done|].
  intros m Hm. apply String.eqb_neq. intros Heq. apply Hnot.
  rewrite <- Heq. apply list_elem_of_fmap. by exists m.
Qed.

Lemma unmatched_ack_is_forwarded_and_changes_nothing_witness :
  let a := {| ack_messageId := "zz"; destiationMessageId := "C"; ack_timestamp := 5 |} in
  (ack_messageId a ∉ map messageId (messageHistory one_unacked)) /\
  messageHistory (state_of (onMessageAck a one_unacked)) = [text_msg "L" "hi"] /\
  effects (state_of (onMessageAck a one_unacked)) = [PostMessage 7%nat (Ack a)].
Proof.
  intros a.
  assert (ack_messageId a ∉ map messageId (messageHistory one_unacked)) as Hnot.
  { simpl. intros H. apply elem_of_cons in H as [H|H]; [discriminate H|].
    by apply elem_of_nil in H. }
  split; [exact Hnot|].
  rewrite (unmatched_ack_is_forwarded_and_changes_nothing a one_unacked Hnot).
  split; reflexivity.
Defined.

(** ** One endpoint for every socket *)

Lemma dials_stored_same w w' extra :
  joinChannel w' = joinChannel w ->
  effects w' = effects w ++ extra -> dialled extra = [] ->
  dials_stored w -> dials_stored w'.
Proof.
  intros Hj Heff Hextra Hw ep.
  rewrite Heff, dialled_app, Hextra, app_nil_r, Hj. apply Hw.
Qed.

Lemma dials_modify g :
  (forall w, joinChannel (g w) = joinChannel w /\ effects (g w) = effects w) ->
  keeps dials_stored (modify g).
Proof.
  intros Hg. apply keeps_modify. intros w Hw. destruct (Hg w) as [Hj Heff].
  apply (dials_stored_same w (g w) []); try done. by rewrite app_nil_r.
Qed.

Lemma dials_emit e :
  match e with WsNew _ _ => False | _ => True end -> keeps dials_stored (emit e).
Proof.
  intros He. apply keeps_modify. intros w Hw.
  apply (dials_stored_same w _ [e]); try done. by destruct e.
Qed.

Lemma dials_broadcast msg exclude : keeps dials_stored (broadcast msg exclude).
Proof.
  apply keeps_modify. intros w Hw.
  apply (dials_stored_same w _ (posts msg exclude (tabPorts w))); try done.
  apply dialled_posts.
Qed.

Lemma dials_send payload : keeps dials_stored (send payload).
Proof.
  intros w Hw.
  destruct (ws w) as [s|] eqn:Hws.
  - destruct (is_open s) eqn:Hopen.
    + rewrite (send_open payload w s Hws Hopen).
      by apply (dials_stored_same w _ [WsSend (wsId s) payload]).
    + destruct (send_not_open payload w) as [x Hx]; [by rewrite Hws|].
      by rewrite Hx.
  - destruct (send_not_open payload w) as [x Hx]; [by rewrite Hws|].
    by rewrite Hx.
Qed.

Lemma dials_triggerWsConnection : keeps dials_stored triggerWsConnection.
Proof.
  intros w Hw.
  unfold triggerWsConnection, bind, gets, modify, emit, modify, throw, state_of.
  simpl. destruct (joinChannel w) as [j|] eqn:Hj; simpl.
  - intros ep. simpl. rewrite dialled_app. simpl. rewrite Hj.
    intros Hep. apply elem_of_app in Hep as [Hep|Hep].
    + destruct (Hw ep Hep) as (cfg & Hcfg & Hend). rewrite Hj in Hcfg.
      exists cfg. by split.
    + apply list_elem_of_singleton in Hep. subst ep. by exists j.
  - intros ep. simpl. rewrite Hj. intros Hep.
    destruct (Hw ep Hep) as (cfg & Hcfg & _). congruence.
Qed.

Create HintDb dials.
#[local] Hint Resolve keeps_ret keeps_throw keeps_gets keeps_assert
  dials_broadcast dials_send dials_triggerWsConnection : dials.
#[local] Hint Extern 1 (keeps dials_stored (emit _)) =>
  apply dials_emit; exact Logic.I : dials.

Ltac dials_step :=
  first
    [ solve [auto with dials]
    | apply keeps_bind; [|intros ?]
    | apply keeps_when
    | apply dials_modify; intros ?; split; reflexivity
    | match goal with
      | |- keeps _ (match ?x with _ => _ end) => destruct x
      | |- keeps _ (if ?x then _ else _) => destruct x
      | |- keeps _ (let _ := _ in _) => cbv zeta
      end ].
Ltac dials := repeat dials_step.

Lemma dials_flushLoop n : keeps dials_stored (flushLoop send n).
Proof.
  induction n as [|n IH]; intros w Hw; simpl; [done|].
  destruct (outgoingQueue w) as [|payload rest]; [done|].
  assert (keeps dials_stored (send payload ;; modify shift ;; flushLoop send n))
    as Hbody.
  { dials; apply IH. }
  exact (Hbody w Hw).
Qed.
#[local] Hint Resolve dials_flushLoop : dials.

Lemma dials_browser_sets id rs : keeps dials_stored (modify (browser_sets id rs)).
Proof.
  apply dials_modify. intros w. unfold browser_sets.
  destruct (ws w) as [s|]; [|done]. by destruct (wsId s =? id)%nat.
Qed.
#[local] Hint Resolve dials_browser_sets : dials.

(** A join keeps the endpoint that is stored. *)
Lemma dials_onJoinChannel j : keeps dials_stored (onJoinChannel j).
Proof.
  intros w Hw. unfold onJoinChannel. unfold bind at 1. simpl.
  set (current := match joinChannel w with Some c => c | None => j end).
  set (merged := with_eagerlyConnect
                   (js_or (eagerlyConnect current) (eagerlyConnect j)) current).
  unfold bind at 1. simpl.
  assert (dials_stored (set_joinChannel (Some merged) w)) as Hmerged.
  { intros ep Hep. simpl in *. destruct (Hw ep Hep) as (cfg & Hcfg & Hend).
    exists merged. split; [done|]. subst merged current. by rewrite Hcfg. }
  assert (keeps dials_stored
            (assert (String.eqb (endpoint merged) (endpoint j)) conflict_message ;;
             cur <- gets ws ;;
             when (match cur with
                   | None => truthy (eagerlyConnect merged)
                   | Some _ => false
                   end) triggerWsConnection)) as Hrest by dials.
  exact (Hrest _ Hmerged).
Qed.
#[local] Hint Resolve dials_onJoinChannel : dials.

Lemma step_dials now ev : keeps dials_stored (step now ev).
Proof.
  destruct ev as [port|port payload| | |id|id|id| |data]; simpl.
  - unfold onTabConnected. dials.
  - destruct payload; simpl; auto with dials.
    + destruct (body m).
      * unfold onPlaintextMessage, flush_or_connect, flushQueue, flushQueue_with.
        dials.
      * unfold onFileMessage, flush_or_connect, flushQueue, flushQueue_with.
        dials.
    + unfold onTabDisconnected, ws_close. dials.
  - unfold onOnline. dials.
  - unfold onOffline, ws_close. dials.
  - unfold onWsOpen, flushQueue, flushQueue_with. dials.
  - unfold onWsClose. dials.
  - unfold onWsError. dials.
  - dials.
  - intros w Hw.
    destruct (frame_dials_nothing data w)
      as (Hj & extra & Heff & Hextra).
    by apply (dials_stored_same w _ extra).
Qed.

Lemma run_dials trace : forall w, dials_stored w -> dials_stored (run w trace).
Proof.
  induction trace as [|[now ev] trace IH]; intros w Hw; simpl; [done|].
  apply IH. by apply step_dials.
Qed.

(** Every socket the worker ever creates, the first and each reconnection,
    is created for the endpoint of the first join of the run: a later
    join for another endpoint never redirects the connection. *)
Theorem every_socket_dials_the_first_join (navigatorOnLine : bool)
    (trace : list (Z * Event)) (ep : string) :
  ep ∈ dialled (effects (run (created navigatorOnLine) trace)) ->
  exists opening rest,
    joinsOf trace = opening :: rest /\ ep = endpoint opening.
Proof.
  intros Hep.
  assert (dials_stored (created navigatorOnLine)) as Hstart.
  { intros e He. by apply elem_of_nil in He. }
  destruct (run_dials trace _ Hstart ep Hep) as (cfg & Hcfg & Hend).
  pose proof (run_first trace (created navigatorOnLine) eq_refl) as Hfirst.
  destruct (joinsOf trace) as [|opening rest]; [congruence|].
  destruct Hfirst as (flag & Hstored & _).
  exists opening, rest. split; [done|].
  rewrite Hstored in Hcfg. inversion Hcfg; subst. done.
Qed.

Lemma every_socket_dials_the_first_join_witness :
  dialled (effects (run (created true) two_endpoints_asked))
  = ["wss://chat.example/ws?c=support"; "wss://chat.example/ws?c=support"] /\
  exists opening rest,
    joinsOf two_endpoints_asked = opening :: rest /\
    "wss://chat.example/ws?c=support" = endpoint opening.
Proof.
  assert (dialled (effects (run (created true) two_endpoints_asked))
          = ["wss://chat.example/ws?c=support"; "wss://chat.example/ws?c=support"])
    as Hd by (vm_compute; reflexivity).
  split; [exact Hd|].
  apply (every_socket_dials_the_first_join true two_endpoints_asked).
  rewrite Hd. apply list_elem_of_here.
Defined.

(** ** The timeline container *)

Section TimelineFacts.

Import Timeline.

Context {calendar : Calendar}.

Lemma findLast_app {A} (pred : A -> bool) (a b : list A) :
  findLast pred (a ++ b) =
  match findLast pred b with
  | Some (i, y) => Some ((length a + i)%nat, y)
  | None => findLast pred a
  end.
Proof.
  induction a as [|x a IH]; simpl.
  - by destruct (findLast pred b) as [[i y]|].
  - rewrite IH. by destruct (findLast pred b) as [[i y]|].
Qed.

Lemma findLast_undivided (tail : list SlotElement) :
  undivided tail = true -> findLast isDivider tail = None.
Proof.
  unfold undivided in *.
  intros Hfree. apply findLast_not_found. intros el Hel.
  rewrite forallb_forall in Hfree.
  apply list_elem_of_In in Hel. specialize (Hfree el Hel).
  unfold notDivider in Hfree. by destruct (isDivider el).
Qed.

(** What the method computes, read off the split at the last divider. *)
Lemma appendDivider_split now current (head tail : list SlotElement) :
  endsWithDivider current head -> undivided tail = true ->
  appendDivider now (head ++ tail) = head ++ insertDivider now current tail.
Proof.
  intros Hhead Hfree. unfold appendDivider, findLastIndex.
  rewrite findLast_app, (findLast_undivided tail Hfree).
  destruct Hhead as [[-> ->]|[before ->]].
  - by simpl.
  - rewrite findLast_app. simpl. rewrite Nat.add_0_r.
    replace (Z.to_nat (Z.of_nat (length before) + 1))
      with (length (before ++ [Divider current]))
      by (rewrite length_app; simpl; lia).
    rewrite take_app_length, drop_app_length.
    replace (Z.of_nat (length before) <? 0)%Z with false
      by (symmetry; apply Z.ltb_ge; lia).
    rewrite Nat2Z.id, <- !app_assoc. simpl.
    rewrite list_lookup_middle by done.
    by destruct current.
Qed.

Lemma insertDivider_same now current (same tail : list SlotElement) :
  forallb (fun el => sameDate current (formatted now el)) same = true ->
  insertDivider now current (same ++ tail) = same ++ insertDivider now current tail.
Proof.
  induction same as [|el same IH]; intros Hsame; simpl in *; [done|].
  apply andb_prop in Hsame as [Hel Hrest]. by rewrite Hel, IH.
Qed.

(** Two moments that date the elements alike give the same result. *)
Lemma insertDivider_alike now clock current (els : list SlotElement) :
  datedAlike now [clock] els ->
  insertDivider clock current els = insertDivider now current els.
Proof.
  induction els as [|el els IH]; intros Halike; simpl; [done|].
  rewrite (Halike clock el) by (apply list_elem_of_here).
  rewrite IH; [done|].
  intros c e Hc He. apply Halike; [done|by apply list_elem_of_further].
Qed.

Lemma endsWithDivider_exists (els : list SlotElement) :
  exists current head tail,
    els = head ++ tail /\ endsWithDivider current head /\ undivided tail = true.
Proof.
  induction els as [|el els (current & head & tail & -> & Hhead & Hfree)].
  - exists None, [], []. split; [done|]. split; [by left|done].
  - destruct Hhead as [[-> ->]|[before ->]].
    + destruct el as [date|stamp].
      * exists date, [Divider date], tail. split; [done|].
        split; [right; by exists []|done].
      * exists None, [], (Timestamped stamp :: tail). split; [done|].
        split; [by left|done].
    + exists current, (el :: before ++ [Divider current]), tail.
      split; [done|]. split; [right; by exists (el :: before)|done].
Qed.

Lemma timestamped_app (a b : list SlotElement) :
  timestamped (a ++ b) = timestamped a ++ timestamped b.
Proof. unfold timestamped. apply List.filter_app. Qed.

Lemma timestamped_undivided (tail : list SlotElement) :
  undivided tail = true -> timestamped tail = tail.
Proof.
  unfold undivided, timestamped.
  induction tail as [|el tail IH]; simpl; intros Hfree; [done|].
  apply andb_prop in Hfree as [Hel Htail]. by rewrite Hel, IH.
Qed.

Lemma appendDivider_alike now clock (els : list SlotElement) :
  datedAlike now [clock] (timestamped els) ->
  appendDivider clock els = appendDivider now els.
Proof.
  destruct (endsWithDivider_exists els) as (current & head & tail & -> & Hhead & Hfree).
  intros Halike.
  rewrite !(appendDivider_split _ current) by done.
  rewrite (insertDivider_alike now clock); [done|].
  intros c el Hc Hel. apply Halike; [done|].
  rewrite timestamped_app, (timestamped_undivided tail Hfree).
  apply elem_of_app. by right.
Qed.

Lemma dateAtEnd_app current (a b : list SlotElement) :
  dateAtEnd current (a ++ b) = dateAtEnd (dateAtEnd current a) b.
Proof.
  revert current. induction a as [|[date|stamp] a IH]; intros current; simpl; auto.
Qed.

Lemma dateAtEnd_undivided current (tail : list SlotElement) :
  undivided tail = true -> dateAtEnd current tail = current.
Proof.
  unfold undivided in *.
  induction tail as [|[date|stamp] tail IH]; simpl; intros Hfree; auto.
  discriminate Hfree.
Qed.

Lemma dateAtEnd_head start current (head : list SlotElement) :
  endsWithDivider current head -> start = None -> dateAtEnd start head = current.
Proof.
  intros [[-> ->]|[before ->]] ->; [done|].
  by rewrite dateAtEnd_app.
Qed.

Lemma wellDated_app now current (a b : list SlotElement) :
  wellDated now current (a ++ b) =
  wellDated now current a && wellDated now (dateAtEnd current a) b.
Proof.
  revert current. induction a as [|[date|stamp] a IH]; intros current; simpl; auto.
  by rewrite IH, andb_assoc.
Qed.

Lemma wellDated_undivided now current (tail : list SlotElement) :
  undivided tail = true ->
  wellDated now current tail
  = forallb (fun el => sameDate current (formatted now el)) tail.
Proof.
  unfold undivided in *.
  induction tail as [|[date|stamp] tail IH]; simpl; intros Hfree; auto.
  - discriminate Hfree.
  - by rewrite IH.
Qed.

Lemma sameDate_refl date : sameDate (Some date) date = true.
Proof. apply String.eqb_refl. Qed.

Lemma undivided_app (a b : list SlotElement) :
  undivided a = true -> undivided b = true -> undivided (a ++ b) = true.
Proof. unfold undivided. intros Ha Hb. by rewrite forallb_app, Ha, Hb. Qed.

Lemma slotchanges_last clocks clock (els : list SlotElement) :
  slotchanges (clocks ++ [clock]) els = appendDivider clock (slotchanges clocks els).
Proof.
  revert els. induction clocks as [|c clocks IH]; intros els; [done|].
  simpl. by rewrite IH.
Qed.

Lemma slotchanges_stable clocks (els : list SlotElement) :
  (forall clock, clock ∈ clocks -> appendDivider clock els = els) ->
  slotchanges clocks els = els.
Proof.
  induction clocks as [|c clocks IH]; intros Hstable; [done|]. simpl.
  rewrite (Hstable c) by apply list_elem_of_here.
  apply IH. intros clock Hclock. apply Hstable. by apply list_elem_of_further.
Qed.

Lemma datedAlike_part now clocks clocks' (els els' : list SlotElement) :
  datedAlike now clocks els ->
  (forall clock, clock ∈ clocks' -> clock ∈ clocks) ->
  (forall el, el ∈ els' -> el ∈ els) ->
  datedAlike now clocks' els'.
Proof. intros Halike Hc He clock el Hclock Hel. apply Halike; auto. Qed.

(** The slot changes insert one divider at each change of date. *)
Lemma slotchanges_divided now (tail : list SlotElement) :
  forall clocks current head same,
    endsWithDivider current head ->
    undivided same = true ->
    forallb (fun el => sameDate current (formatted now el)) same = true ->
    undivided tail = true ->
    (length tail <= length clocks)%nat ->
    datedAlike now clocks (same ++ tail) ->
    slotchanges clocks (head ++ same ++ tail)
    = head ++ same ++ divided now current tail.
Proof.
  induction tail as [|el rest IH];
    intros clocks current head same Hhead Hu Hsame Hfree Hn Halike.
  - simpl. apply slotchanges_stable. intros clock Hclock.
    rewrite (appendDivider_split clock current)
      by (done || by apply undivided_app).
    rewrite (insertDivider_alike now clock).
    + by rewrite insertDivider_same by done.
    + apply (datedAlike_part now clocks _ (same ++ [])); [done| |done].
      intros c Hc. apply list_elem_of_singleton in Hc. by subst c.
  - pose proof Hfree as Hfree'.
    unfold undivided in Hfree. simpl in Hfree.
    apply andb_prop in Hfree as [Hel Hrest]. simpl.
    destruct (sameDate current (formatted now el)) eqn:Hdate.
    + replace (same ++ el :: rest) with ((same ++ [el]) ++ rest)
        by by rewrite <- app_assoc.
      rewrite (IH clocks current head (same ++ [el])); try done.
      * by rewrite <- app_assoc.
      * apply undivided_app; [done|]. unfold undivided. simpl. by rewrite Hel.
      * rewrite forallb_app, Hsame. simpl. by rewrite Hdate.
      * simpl in Hn. lia.
      * by rewrite <- app_assoc.
    + destruct clocks as [|clock clocks]; [simpl in Hn; lia|].
      change (slotchanges (clock :: clocks) ?x)
        with (slotchanges clocks (appendDivider clock x)).
      rewrite (appendDivider_split clock current);
        [|done|by apply undivided_app].
      rewrite (insertDivider_alike now clock).
      2:{ apply (datedAlike_part now (clock :: clocks) _ (same ++ el :: rest));
            [done| |done].
          intros c Hc. apply list_elem_of_singleton in Hc. subst c.
          apply list_elem_of_here. }
      rewrite insertDivider_same by done. simpl. rewrite Hdate.
      replace (head ++ same ++ Divider (Some (formatted now el)) :: el :: rest)
        with (((head ++ same) ++ [Divider (Some (formatted now el))])
                ++ [el] ++ rest)
        by (rewrite <- !app_assoc; done).
      rewrite (IH clocks (Some (formatted now el))); try done.
      * by rewrite <- !app_assoc.
      * right. by exists (head ++ same).
      * unfold undivided. simpl. by rewrite Hel.
      * simpl. by rewrite String.eqb_refl.
      * simpl in Hn. lia.
      * apply (datedAlike_part now (clock :: clocks) _ (same ++ el :: rest));
          [done| |].
        -- intros c Hc. by apply list_elem_of_further.
        -- intros e He. apply elem_of_app. by right.
Qed.

Lemma timestamped_divided now current (tail : list SlotElement) :
  undivided tail = true -> timestamped (divided now current tail) = tail.
Proof.
  unfold undivided in *.
  revert current. induction tail as [|el rest IH]; intros current Hfree; [done|].
  simpl in Hfree. apply andb_prop in Hfree as [Hel Hrest]. simpl.
  destruct (sameDate current (formatted now el)); unfold timestamped in *; simpl;
    rewrite Hel, IH; done.
Qed.

Lemma wellDated_divided now current (tail : list SlotElement) :
  undivided tail = true -> wellDated now current (divided now current tail) = true.
Proof.
  unfold undivided in *.
  revert current. induction tail as [|el rest IH]; intros current Hfree; [done|].
  simpl in Hfree. apply andb_prop in Hfree as [Hel Hrest]. simpl.
  destruct (sameDate current (formatted now el)) eqn:Hdate.
  - destruct el as [date|stamp]; [discriminate Hel|]. simpl in *.
    by rewrite Hdate, IH.
  - destruct el as [date|stamp]; [discriminate Hel|]. simpl.
    rewrite String.eqb_refl. by apply IH.
Qed.

(** One appended element needs one slot change at most. *)
Lemma appendDivider_appended now (els : list SlotElement) stamp :
  wellDated now None els = true ->
  let el := Timestamped stamp in
  let after := appendDivider now (els ++ [el]) in
  (after = els ++ [el] \/ after = els ++ [Divider (Some (formatted now el)); el]) /\
  wellDated now None after = true /\ appendDivider now after = after.
Proof.
  intros Hdated el after.
  destruct (endsWithDivider_exists els) as (current & head & tail & -> & Hhead & Hfree).
  rewrite wellDated_app, (dateAtEnd_head None current head Hhead eq_refl) in Hdated.
  apply andb_prop in Hdated as [Hdhead Hdtail].
  rewrite wellDated_undivided in Hdtail by done.
  assert (after = head ++ tail ++ insertDivider now current [el]) as Hafter.
  { subst after. rewrite <- app_assoc.
    rewrite (appendDivider_split now current) by (done || by apply undivided_app).
    by rewrite insertDivider_same by done. }
  assert (wellDated now None (head ++ tail) = true) as Hboth.
  { rewrite wellDated_app, (dateAtEnd_head None current head Hhead eq_refl), Hdhead.
    by rewrite wellDated_undivided by done. }
  assert (dateAtEnd None (head ++ tail) = current) as Hend.
  { by rewrite dateAtEnd_app, (dateAtEnd_head None current head Hhead eq_refl),
      dateAtEnd_undivided by done. }
  simpl in Hafter. destruct (sameDate current (formatted now el)) eqn:Hdate.
  - split; [left; by rewrite Hafter, <- app_assoc|].
    split.
    + rewrite Hafter, app_assoc, wellDated_app, Hboth, Hend. simpl.
      change (formatDate _) with (formatted now el). by rewrite Hdate.
    + rewrite Hafter at 1.
      rewrite (appendDivider_split now current)
        by (done || by apply undivided_app).
      rewrite insertDivider_same by done. simpl.
      change (formatDate _) with (formatted now el). by rewrite Hdate.
  - split; [right; by rewrite Hafter, <- app_assoc|].
    split.
    + rewrite Hafter, app_assoc, wellDated_app, Hboth. simpl.
      change (formatDate _) with (formatted now el). by rewrite String.eqb_refl.
    + rewrite Hafter at 1.
      replace (head ++ tail ++ [Divider (Some (formatted now el)); el])
        with (((head ++ tail) ++ [Divider (Some (formatted now el))]) ++ [el])
        by (rewrite <- !app_assoc; done).
      rewrite (appendDivider_split now (Some (formatted now el)));
        [|right; by exists (head ++ tail)|done].
      simpl. change (formatDate _) with (formatted now el).
      rewrite String.eqb_refl. by rewrite Hafter, <- !app_assoc.
Qed.

(** An element without a timestamp is dated by the call that looks at
    it: under a divider it is left alone exactly while the calls read the
    divider's date. *)
Lemma untimed_element_is_dated_by_the_call (date : string) (clock : Date) :
  appendDivider clock [Divider (Some date); Timestamped None]
  = if String.eqb date (formatDate clock)
    then [Divider (Some date); Timestamped None]
    else [Divider (Some date); Divider (Some (formatDate clock)); Timestamped None].
Proof.
  change [Divider (Some date); Timestamped None]
    with ([Divider (Some date)] ++ [Timestamped None]) at 1.
  rewrite (appendDivider_split clock (Some date) [Divider (Some date)]
             [Timestamped None]); [|right; by exists []|done].
  simpl. unfold formatted. simpl. by destruct (String.eqb date (formatDate clock)).
Qed.

(** Mixin: one call inserts one divider at most, directly before an
    element that stands after the last divider and whose date is not that
    divider's; every element stays where it was. *)
Theorem appendDivider_inserts_one_divider_at_most (now : Date)
    (els : list SlotElement) :
  appendDivider now els = els \/
  exists before el after,
    els = before ++ el :: after /\
    appendDivider now els
    = before ++ Divider (Some (formatted now el)) :: el :: after /\
    undivided (el :: after) = true /\
    dateAtEnd None before <> Some (formatted now el) /\
    wellDated now (dateAtEnd None before) (el :: after) = false.
Proof.
  destruct (endsWithDivider_exists els) as (current & head & tail & -> & Hhead & Hfree).
  rewrite (appendDivider_split now current) by done.
  assert (forall rest,
            undivided rest = true ->
            insertDivider now current rest = rest \/
            exists same' el after,
              rest = same' ++ el :: after /\
              insertDivider now current rest
              = same' ++ Divider (Some (formatted now el)) :: el :: after /\
              undivided (el :: after) = true /\ undivided same' = true /\
              sameDate current (formatted now el) = false) as Hscan.
  { unfold undivided.
    intros rest. induction rest as [|el rest IH]; intros Hrest; [by left|].
    simpl in Hrest. apply andb_prop in Hrest as [Hel Hrest]. simpl.
    destruct (sameDate current (formatted now el)) eqn:Hdate.
    - destruct (IH Hrest) as [->|(same' & el' & after & -> & -> & Hu & Hs & Hd)];
        [by left|].
      right. exists (el :: same'), el', after. repeat split; try done.
      simpl. by rewrite Hel.
    - right. exists [], el, rest. repeat split; try done.
      simpl. by rewrite Hel. }
  destruct (Hscan tail Hfree)
    as [->|(same & el & after & -> & -> & Hu & Hs & Hd)]; [by left|].
  right. exists (head ++ same), el, after.
  assert (dateAtEnd None (head ++ same) = current) as Hend.
  { by rewrite dateAtEnd_app, (dateAtEnd_head None current head Hhead eq_refl),
      dateAtEnd_undivided by done. }
  rewrite Hend. repeat split; try by rewrite <- app_assoc.
  - done.
  - intros ->. by rewrite sameDate_refl in Hd.
  - unfold undivided in Hu. simpl in Hu. apply andb_prop in Hu as [Hel _].
    destruct el as [date|stamp]; [discriminate Hel|]. simpl in *.
    by rewrite Hd.
Qed.

(** Mixin: let the slot consist of a part that is empty or ends with a
    divider, followed by elements with no divider among them, and let
    slot changes be handled
    at least as often as there are such elements, at moments that date
    these elements as [now] does (as all moments do when every element
    has a timestamp, and as the moments of one day do in any case).  Then
    the slot is settled: a further call at [now] changes nothing, the
    part up to the last divider and the elements are as they were, in
    order, and every element after that divider stands, read at [now],
    under a divider of its own date. *)
Theorem slotchanges_settle_into_a_dated_timeline (now : Date) (clocks : list Date)
    (head tail : list SlotElement) :
  (head = [] \/ exists before date, head = before ++ [Divider date]) ->
  undivided tail = true ->
  (length tail <= length clocks)%nat ->
  datedAlike now clocks tail ->
  let settled := slotchanges clocks (head ++ tail) in
  appendDivider now settled = settled /\
  exists tail',
    settled = head ++ tail' /\ timestamped tail' = tail /\
    wellDated now (dateAtEnd None head) tail' = true.
Proof.
  intros Hhead Hfree Hlen Halike settled.
  assert (exists current, endsWithDivider current head) as [current Hcur].
  { destruct Hhead as [->|(before & date & ->)].
    - exists None. by left.
    - exists date. right. by exists before. }
  assert (forall clocks',
            (length tail <= length clocks')%nat ->
            datedAlike now clocks' tail ->
            slotchanges clocks' (head ++ tail) = head ++ divided now current tail)
    as Hrounds.
  { intros clocks' Hn Ha.
    exact (slotchanges_divided now tail clocks' current head [] Hcur eq_refl eq_refl
             Hfree Hn Ha). }
  split.
  - subst settled. rewrite <- slotchanges_last.
    rewrite (Hrounds (clocks ++ [now])), (Hrounds clocks); try done.
    + rewrite length_app. simpl. lia.
    + intros clock el Hclock Hel. apply elem_of_app in Hclock as [Hclock|Hclock].
      * by apply Halike.
      * apply list_elem_of_singleton in Hclock. by subst clock.
  - exists (divided now current tail). subst settled. rewrite Hrounds by done.
    split; [done|]. split; [by apply timestamped_divided|].
    rewrite (dateAtEnd_head None current head Hcur eq_refl).
    by apply wellDated_divided.
Qed.

(** Mixin: let elements be appended one at a time to an empty slot, each
    slot change handled once, at moments that date the appended elements
    as [now] does (as all moments do when every element has a timestamp,
    and as the moments of one day do in any case).  Then every element
    stands, read at [now], under a divider of its own date, a further
    call at [now] leaves the slot alone, and the elements are the
    appended ones in order. *)
Theorem appended_elements_are_always_dated (now : Date)
    (arrivals : list (Date * option Timestamp)) :
  datedAlike now (map fst arrivals)
    (map (fun arrival => Timestamped (snd arrival)) arrivals) ->
  let els := appended arrivals in
  wellDated now None els = true /\ appendDivider now els = els /\
  timestamped els = map (fun arrival => Timestamped (snd arrival)) arrivals.
Proof.
  unfold appended.
  assert (forall start,
            wellDated now None start = true ->
            datedAlike now (map fst arrivals)
              (timestamped start
                 ++ map (fun arrival => Timestamped (snd arrival)) arrivals) ->
            let els := fold_left
                         (fun els arrival =>
                            appendDivider (fst arrival)
                              (els ++ [Timestamped (snd arrival)]))
                         arrivals start in
            wellDated now None els = true /\
            (appendDivider now start = start -> appendDivider now els = els) /\
            timestamped els
            = timestamped start
                ++ map (fun arrival => Timestamped (snd arrival)) arrivals) as Hfold.
  { induction arrivals as [|[clock stamp] arrivals IH]; intros start Hdated Halike;
      simpl.
    - by rewrite app_nil_r.
    - assert (appendDivider clock (start ++ [Timestamped stamp])
              = appendDivider now (start ++ [Timestamped stamp])) as Hsame.
      { apply appendDivider_alike. intros c el Hc Hel.
        apply list_elem_of_singleton in Hc. subst c.
        apply Halike; [apply list_elem_of_here|].
        rewrite timestamped_app in Hel. simpl in Hel.
        apply elem_of_app in Hel as [Hel|Hel]; apply elem_of_app;
          [by left|right].
        apply list_elem_of_singleton in Hel. subst el. apply list_elem_of_here. }
      rewrite Hsame.
      destruct (appendDivider_appended now start stamp Hdated) as (Hshape & Hd & Hs).
      assert (timestamped (appendDivider now (start ++ [Timestamped stamp]))
              = timestamped start ++ [Timestamped stamp]) as Hkept.
      { destruct Hshape as [-> | ->]; by rewrite timestamped_app. }
      destruct (IH (appendDivider now (start ++ [Timestamped stamp])) Hd)
        as (Hd' & Hs' & Ht').
      { rewrite Hkept, <- app_assoc. simpl.
        apply (datedAlike_part now _ _ _ _ Halike); [|done].
        intros c Hc. by apply list_elem_of_further. }
      split; [done|]. split; [by intros _; apply Hs'|].
      rewrite Ht', Hkept, <- app_assoc. done. }
  intros Halike. destruct (Hfold [] eq_refl Halike) as (Hd & Hs & Ht).
  split; [done|]. split; [by apply Hs|done].
Qed.

End TimelineFacts.

Lemma slotchanges_settle_into_a_dated_timeline_witness :
  let settled :=
    Timeline.slotchanges ([5; 5; 6] : list (@Timeline.Date hours))
      (first_day_divided ++ three_undivided) in
  settled = first_day_divided ++
            [Timeline.Timestamped (Some 3); Timeline.Divider (Some "day 2");
             Timeline.Timestamped (Some 30); Timeline.Timestamped (Some 31)] /\
  Timeline.appendDivider (40 : @Timeline.Date hours) settled = settled.
Proof.
  split; [vm_compute; reflexivity|].
  apply (slotchanges_settle_into_a_dated_timeline (40 : @Timeline.Date hours)
           [5; 5; 6] first_day_divided three_undivided).
  - right. by exists (take 2 first_day_divided), (Some "day 1").
  - reflexivity.
  - simpl. lia.
  - intros clock el Hclock Hel.
    repeat (apply elem_of_cons in Hel as [->|Hel]; [reflexivity|]).
    by apply elem_of_nil in Hel.
Defined.

Lemma appended_elements_are_always_dated_witness :
  Timeline.appended three_arrivals =
    [Timeline.Divider (Some "day 1"); Timeline.Timestamped (Some 3);
     Timeline.Timestamped None; Timeline.Divider (Some "day 2");
     Timeline.Timestamped (Some 40)] /\
  Timeline.wellDated (8 : @Timeline.Date hours) None
    (Timeline.appended three_arrivals) = true.
Proof.
  split; [vm_compute; reflexivity|].
  apply (appended_elements_are_always_dated (8 : @Timeline.Date hours)
           three_arrivals).
  intros clock el Hclock Hel. simpl in Hclock, Hel.
  repeat (apply elem_of_cons in Hclock as [->|Hclock];
          [repeat (apply elem_of_cons in Hel as [->|Hel]; [reflexivity|]);
           by apply elem_of_nil in Hel|]).
  by apply elem_of_nil in Hclock.
Defined.

(** ** The chat element *)

Section ElementFacts.

Import Element.

Variable defaultPrevented : ChatEvent -> bool.

Lemma follows_refl k k' :
  dispatched k' = dispatched k -> open k' = open k -> follows defaultPrevented k k'.
Proof. intros Hd Ho. exists []. by rewrite app_nil_r. Qed.

Lemma follows_trans k1 k2 k3 :
  follows defaultPrevented k1 k2 -> follows defaultPrevented k2 k3 ->
  follows defaultPrevented k1 k3.
Proof.
  intros (new1 & Hd1 & Ho1) (new2 & Hd2 & Ho2). exists (new1 ++ new2).
  by rewrite Hd2, Hd1, Ho2, Ho1, fold_left_app, app_assoc.
Qed.

Lemma show_follows k : follows defaultPrevented k (show defaultPrevented k).
Proof.
  unfold show. destruct (open k) eqn:Hopen; [by apply follows_refl|].
  exists [ShowEvent]. simpl. rewrite Hopen.
  by destruct (defaultPrevented ShowEvent).
Qed.

Lemma hide_follows k : follows defaultPrevented k (hide defaultPrevented k).
Proof.
  unfold hide. destruct (open k) eqn:Hopen; [|by apply follows_refl].
  exists [HideEvent]. simpl. rewrite Hopen.
  by destruct (defaultPrevented HideEvent).
Qed.

Lemma appendMsg_follows randomId now msg k :
  follows defaultPrevented k (appendMsg defaultPrevented randomId now msg k).
Proof.
  unfold appendMsg.
  eapply follows_trans; [|apply show_follows]. by apply follows_refl.
Qed.

Lemma dispatchMsg_follows detail k :
  follows defaultPrevented k (fst (_dispatchMsg defaultPrevented detail k)).
Proof. exists [SendEvent detail]. by simpl. Qed.

Lemma sendText_follows randomId now k :
  follows defaultPrevented k (_sendText defaultPrevented randomId now k).
Proof.
  unfold _sendText.
  destruct (0 <? String.length (textarea k))%nat; [|by apply follows_refl].
  set (message := {| messageId := Some randomId; timestamp := Some now;
                     status := Some unknown; content := Text (textarea k) |}).
  pose proof (dispatchMsg_follows message k) as Hsend.
  unfold _dispatchMsg in *. simpl in Hsend.
  destruct (negb (defaultPrevented (SendEvent message))); [|done].
  eapply follows_trans; [exact Hsend|].
  eapply follows_trans; [apply (appendMsg_follows randomId now message)|].
  by apply follows_refl.
Qed.

Lemma sendFile_follows files :
  forall k, follows defaultPrevented k (_sendFile defaultPrevented files k).
Proof.
  unfold _sendFile.
  induction files as [|[[file randomId] now] files IH]; intros k; simpl;
    [by apply follows_refl|].
  eapply follows_trans; [|apply IH].
  set (message := {| messageId := Some randomId; timestamp := Some now;
                     status := Some unknown; content := Attached file |}).
  pose proof (dispatchMsg_follows message k) as Hsend.
  unfold _dispatchMsg in *. simpl in Hsend.
  destruct (negb (defaultPrevented (SendEvent message))); [|done].
  eapply follows_trans; [exact Hsend|]. apply appendMsg_follows.
Qed.

Lemma act_follows a k :
  writesOpen a = false -> follows defaultPrevented k (act defaultPrevented a k).
Proof.
  intros Hwrites.
  destruct a as [value|randomId now|key ctrlKey randomId now|files| |target selected
                | |randomId now msg| | |value]; simpl.
  - by apply follows_refl.
  - apply sendText_follows.
  - unfold _handleKeyUp. destruct (String.eqb key "Enter" && ctrlKey);
      [apply sendText_follows|by apply follows_refl].
  - apply sendFile_follows.
  - unfold _toggleOpen. destruct (open k); [apply hide_follows|apply show_follows].
  - unfold onMsgSelected. destruct target as [id|]; [|by apply follows_refl].
    destruct selected; by apply follows_refl.
  - by apply follows_refl.
  - apply appendMsg_follows.
  - apply show_follows.
  - apply hide_follows.
  - discriminate Hwrites.
Qed.

Lemma show_draft k : draft (show defaultPrevented k) = draft k.
Proof.
  unfold show. destruct (open k); [done|]. simpl.
  by destruct (defaultPrevented ShowEvent).
Qed.

Lemma hide_draft k : draft (hide defaultPrevented k) = draft k.
Proof.
  unfold hide. destruct (open k); [|done]. simpl.
  by destruct (defaultPrevented HideEvent).
Qed.

Lemma appendMsg_draft randomId now msg k :
  draft (appendMsg defaultPrevented randomId now msg k) = draft k.
Proof. unfold appendMsg. by rewrite show_draft. Qed.

Lemma sendFile_draft files :
  forall k, draft (_sendFile defaultPrevented files k) = draft k.
Proof.
  unfold _sendFile.
  induction files as [|[[file randomId] now] files IH]; intros k; simpl; [done|].
  etrans; [apply IH|]. unfold _dispatchMsg.
  destruct (negb (defaultPrevented _)); [|done]. by rewrite appendMsg_draft.
Qed.

Lemma sendText_selected randomId now k :
  selectedMessages (_sendText defaultPrevented randomId now k) = selectedMessages k.
Proof.
  unfold _sendText. destruct (0 <? String.length (textarea k))%nat; [|done].
  unfold _dispatchMsg. destruct (negb (defaultPrevented _)); [|done]. simpl.
  pose proof (appendMsg_draft randomId now
    {| messageId := Some randomId; timestamp := Some now;
       status := Some unknown; content := Text (textarea k) |}
    (dispatchEvent (SendEvent {| messageId := Some randomId; timestamp := Some now;
       status := Some unknown; content := Text (textarea k) |}) k)) as Hdraft.
  unfold draft in Hdraft. by inversion Hdraft.
Qed.

Lemma sendText_enabled randomId now k :
  sendEnabled k = (0 <? String.length (textarea k))%nat ->
  let k' := _sendText defaultPrevented randomId now k in
  sendEnabled k' = (0 <? String.length (textarea k'))%nat.
Proof.
  intros Hk. unfold _sendText.
  destruct (0 <? String.length (textarea k))%nat eqn:Hlen; simpl;
    [|by rewrite Hk, Hlen].
  unfold _dispatchMsg. destruct (negb (defaultPrevented _)); simpl; [done|].
  by rewrite Hk, Hlen.
Qed.

Lemma includes_app id a b : includes id (a ++ b) = includes id a || includes id b.
Proof. unfold includes. apply existsb_app. Qed.

Lemma includes_filter id target ids :
  includes id (List.filter (fun other => negb (String.eqb target other)) ids)
  = if String.eqb target id then false else includes id ids.
Proof.
  unfold includes. induction ids as [|other ids IH]; simpl.
  - by destruct (String.eqb target id).
  - destruct (String.eqb target other) eqn:Hother; simpl.
    + rewrite IH. destruct (String.eqb target id) eqn:Hid; [done|].
      apply String.eqb_eq in Hother. subst other.
      rewrite String.eqb_sym, Hid. done.
    + rewrite IH. destruct (String.eqb target id) eqn:Hid; [|done].
      apply String.eqb_eq in Hid. subst id. by rewrite Hother.
Qed.

(** Element: a text that no listener vetoes is dispatched once, shown as
    the last child with the id and the date it was sent with, and the
    draft is cleared with the send control disabled; the element is open
    afterwards unless a listener vetoes the show event, which is
    dispatched only if the element was closed. *)
Theorem sent_text_is_shown_and_the_draft_cleared (randomId : string) (now : Z)
    (k : KiteChatElement) :
  let message := {| messageId := Some randomId; timestamp := Some now;
                    status := Some unknown; content := Text (textarea k) |} in
  textarea k <> "" ->
  defaultPrevented (SendEvent message) = false ->
  let k' := _sendText defaultPrevented randomId now k in
  textarea k' = "" /\ sendEnabled k' = false /\
  messageElements k' =
    messageElements k ++
    [{| el_messageId := randomId; el_timestamp := now;
        el_status := Some unknown; el_content := Text (textarea k) |}] /\
  selectedMessages k' = selectedMessages k /\
  dispatched k' =
    dispatched k ++ SendEvent message :: (if open k then [] else [ShowEvent]) /\
  open k' = open k || negb (defaultPrevented ShowEvent).
Proof.
  intros message Hdraft Hsend k'. subst k'. unfold _sendText.
  destruct (textarea k) as [|c rest] eqn:Htext; [done|]. simpl.
  fold message. unfold _dispatchMsg. rewrite Hsend. simpl.
  unfold appendMsg, show. simpl.
  destruct (open k) eqn:Hopen; simpl;
    [|destruct (defaultPrevented ShowEvent); simpl];
    rewrite ?Hopen, <- ?app_assoc; done.
Qed.

(** Element: with an empty textarea nothing happens at all; a text whose
    send event a listener vetoes is dispatched and nothing else: it is
    not shown, the draft stays, the element does not open. *)
Theorem empty_or_vetoed_text_is_not_shown (randomId : string) (now : Z)
    (k : KiteChatElement) :
  let message := {| messageId := Some randomId; timestamp := Some now;
                    status := Some unknown; content := Text (textarea k) |} in
  textarea k = "" \/ defaultPrevented (SendEvent message) = true ->
  _sendText defaultPrevented randomId now k =
    set_dispatched
      (dispatched k ++
       if String.eqb (textarea k) "" then [] else [SendEvent message]) k.
Proof.
  intros message Hcase. unfold _sendText.
  destruct (textarea k) as [|c rest] eqn:Htext; simpl.
  - rewrite app_nil_r. by destruct k.
  - destruct Hcase as [Hnil|Hveto]; [done|].
    unfold message in Hveto. unfold _dispatchMsg. by rewrite Hveto.
Qed.

(** Element: over every run of actions the send control is enabled
    exactly when the textarea holds a text: typing maintains it, a sent
    text clears both, a vetoed one leaves both. *)
Theorem send_control_follows_the_textarea (k : KiteChatElement)
    (actions : list Action) :
  sendEnabled k = (0 <? String.length (textarea k))%nat ->
  let k' := acts defaultPrevented k actions in
  sendEnabled k' = (0 <? String.length (textarea k'))%nat.
Proof.
  revert k. induction actions as [|a actions IH]; intros k Hk; [done|].
  simpl. apply IH.
  assert (forall k1, draft k1 = draft k ->
            sendEnabled k1 = (0 <? String.length (textarea k1))%nat) as Hsame.
  { intros k1 Hdraft. unfold draft in Hdraft. inversion Hdraft as [[Ht He Hs]].
    by rewrite He, Ht. }
  destruct a as [value|randomId now|key ctrlKey randomId now|files| |target selected
                | |randomId now msg| | |value]; simpl.
  - done.
  - by apply sendText_enabled.
  - unfold _handleKeyUp. destruct (String.eqb key "Enter" && ctrlKey);
      [by apply sendText_enabled|done].
  - apply Hsame, sendFile_draft.
  - unfold _toggleOpen. destruct (open k); apply Hsame; [apply hide_draft|apply show_draft].
  - unfold onMsgSelected. destruct target as [id|]; [|done]. by destruct selected.
  - done.
  - apply Hsame, appendMsg_draft.
  - apply Hsame, show_draft.
  - apply Hsame, hide_draft.
  - done.
Qed.

(** Element: over every run of actions in which the page does not write
    the property [open] itself, a listener can follow [open] from the
    events alone: the element opens with each show event and closes with
    each hide event that is not vetoed, and never otherwise.  (A write of
    the property changes [open] and dispatches nothing.) *)
Theorem open_follows_the_dispatched_events (k : KiteChatElement)
    (actions : list Action) :
  existsb writesOpen actions = false ->
  exists new,
    dispatched (acts defaultPrevented k actions) = dispatched k ++ new /\
    open (acts defaultPrevented k actions)
    = fold_left (heard defaultPrevented) new (open k).
Proof.
  intros Hwrites.
  change (follows defaultPrevented k (acts defaultPrevented k actions)).
  revert k. induction actions as [|a actions IH]; intros k;
    [by apply follows_refl|].
  simpl in Hwrites. apply orb_false_elim in Hwrites as [Ha Hrest].
  simpl. eapply follows_trans; [by apply act_follows|by apply IH].
Qed.

(** Element: over every run of actions an id is selected exactly when
    the last [select] event of a child with this id said so and the
    delete control was not used since; nothing else selects or
    unselects. *)
Theorem selection_is_the_last_choice (id : string) (k : KiteChatElement)
    (actions : list Action) :
  includes id (selectedMessages (acts defaultPrevented k actions))
  = fold_left (chosen id) actions (includes id (selectedMessages k)).
Proof.
  revert k. induction actions as [|a actions IH]; intros k; [done|].
  simpl. rewrite IH. f_equal.
  assert (forall k1, draft k1 = draft k ->
            includes id (selectedMessages k1) = includes id (selectedMessages k))
    as Hsame.
  { intros k1 Hdraft. unfold draft in Hdraft. inversion Hdraft as [[Ht He Hs]].
    by rewrite Hs. }
  destruct a as [value|randomId now|key ctrlKey randomId now|files| |target selected
                | |randomId now msg| | |value]; simpl.
  - done.
  - by rewrite sendText_selected.
  - unfold _handleKeyUp. destruct (String.eqb key "Enter" && ctrlKey);
      [by rewrite sendText_selected|done].
  - apply Hsame, sendFile_draft.
  - unfold _toggleOpen. destruct (open k); apply Hsame; [apply hide_draft|apply show_draft].
  - unfold onMsgSelected. destruct target as [target|]; [|done].
    destruct selected; simpl.
    + rewrite includes_app. unfold includes at 2. simpl.
      rewrite orb_false_r, (String.eqb_sym id target).
      destruct (String.eqb target id); [apply orb_true_r|apply orb_false_r].
    + apply includes_filter.
  - done.
  - apply Hsame, appendMsg_draft.
  - apply Hsame, show_draft.
  - apply Hsame, hide_draft.
  - done.
Qed.

End ElementFacts.

Lemma sent_text_is_shown_and_the_draft_cleared_witness :
  let k' := Element._sendText no_veto "m1" 5 draft_hello in
  Element.textarea k' = "" /\ Element.open k' = true /\
  Element.dispatched k' =
    [Element.SendEvent
       {| Element.messageId := Some "m1"; Element.timestamp := Some 5;
          Element.status := Some unknown; Element.content := Element.Text "hello" |};
     Element.ShowEvent].
Proof.
  destruct (sent_text_is_shown_and_the_draft_cleared no_veto "m1" 5 draft_hello)
    as (Htext & _ & _ & _ & Hevents & Hopen); [done|reflexivity|].
  split; [exact Htext|]. split; [exact Hopen|exact Hevents].
Defined.

Lemma empty_or_vetoed_text_is_not_shown_witness :
  Element._sendText veto_send "m1" 5 draft_hello =
  Element.set_dispatched
    [Element.SendEvent
       {| Element.messageId := Some "m1"; Element.timestamp := Some 5;
          Element.status := Some unknown; Element.content := Element.Text "hello" |}]
    draft_hello.
Proof.
  rewrite (empty_or_vetoed_text_is_not_shown veto_send "m1" 5 draft_hello);
    [reflexivity|by right].
Defined.

Lemma open_follows_the_dispatched_events_witness :
  let actions :=
    [Element.TypeText "hello"; Element.ClickSend "m1" 5; Element.ClickToggle;
     Element.CallShow] in
  let k' := Element.acts no_veto Element.created actions in
  Element.dispatched k' =
    [Element.SendEvent
       {| Element.messageId := Some "m1"; Element.timestamp := Some 5;
          Element.status := Some unknown; Element.content := Element.Text "hello" |};
     Element.ShowEvent; Element.HideEvent; Element.ShowEvent] /\
  Element.open k' = true /\
  exists new,
    Element.dispatched k' = Element.dispatched Element.created ++ new /\
    Element.open k'
    = fold_left (Element.heard no_veto) new (Element.open Element.created).
Proof.
  split; [reflexivity|]. split; [reflexivity|].
  apply (open_follows_the_dispatched_events no_veto Element.created
           [Element.TypeText "hello"; Element.ClickSend "m1" 5;
            Element.ClickToggle; Element.CallShow]).
  reflexivity.
Defined.

Lemma send_control_follows_the_textarea_witness :
  let k' :=
    Element.acts veto_send Element.created
      [Element.TypeText "hello"; Element.ClickSend "m1" 5; Element.ClickToggle] in
  Element.textarea k' = "hello" /\ Element.sendEnabled k' = true.
Proof.
  split; [reflexivity|].
  rewrite (send_control_follows_the_textarea veto_send Element.created
             [Element.TypeText "hello"; Element.ClickSend "m1" 5; Element.ClickToggle]);
    reflexivity.
Defined.

(** ** The tabs among themselves *)

Section ChannelFacts.

Import Channel.

Variable endpointAccepted : bool.

Lemma count_app {A} (pred : A -> bool) (a b : list A) :
  count pred (a ++ b) = (count pred a + count pred b)%nat.
Proof. unfold count. by rewrite List.filter_app, length_app. Qed.

Lemma tasks_cons t ts k :
  tasks endpointAccepted k (t :: ts)
  = tasks endpointAccepted (task endpointAccepted t k) ts.
Proof. done. Qed.

Lemma tasks_app ts1 ts2 k :
  tasks endpointAccepted k (ts1 ++ ts2)
  = tasks endpointAccepted (tasks endpointAccepted k ts1) ts2.
Proof. unfold tasks. apply fold_left_app. Qed.

Lemma count_cons {A} (pred : A -> bool) (x : A) (l : list A) :
  count pred (x :: l) = ((if pred x then 1 else 0) + count pred l)%nat.
Proof. unfold count. simpl. by destruct (pred x). Qed.

Lemma count_nil {A} (pred : A -> bool) : count pred [] = 0%nat.
Proof. done. Qed.

Ltac counting := rewrite ?count_app, ?count_cons, ?count_nil; simpl.

Lemma count_disarmed c id pending :
  (count (waiting c) (disarmed id pending) <= count (waiting c) pending)%nat.
Proof.
  unfold count, disarmed. induction pending as [|timer pending IH]; simpl; [done|].
  destruct (negb (fst timer =? id)%nat); simpl;
    destruct (waiting c timer); simpl; lia.
Qed.

Lemma count_armed c id pending :
  armed id pending = Some c ->
  (S (count (waiting c) (disarmed id pending)) <= count (waiting c) pending)%nat.
Proof.
  unfold armed, count, disarmed.
  induction pending as [|[other c'] pending IH]; simpl; [done|].
  destruct (other =? id)%nat eqn:Hid; simpl.
  - intros [= ->].
    assert (waiting c (other, c) = true) as -> by by destruct c.
    simpl. pose proof (count_disarmed c id pending) as Hle.
    unfold count, disarmed in Hle. lia.
  - intros Hfind. specialize (IH Hfind).
    destruct (waiting c (other, c')); simpl; lia.
Qed.

(** Every socket was announced, and every announcement joined. *)
Lemma task_announced t k :
  announced k -> announced (task endpointAccepted t k).
Proof.
  unfold announced. intros [Hsockets Hannounced].
  destruct t as [|type|id]; simpl.
  - unfold initClient. simpl. counting. lia.
  - destruct type; simpl; try done.
    + destruct (connectionTimeout k) as [id|]; [|done]. simpl. counting.
      pose proof (count_disarmed ConnectIfIdle id (timers k)).
      pose proof (count_disarmed Announce id (timers k)).
      lia.
    + unfold disconnect. destruct (kiteWebsocket k); simpl; [|done].
      counting. lia.
  - destruct (armed id (timers k)) as [[|]|] eqn:Harmed; [| |done].
    + simpl. counting.
      pose proof (count_armed Announce id (timers k) Harmed).
      pose proof (count_disarmed ConnectIfIdle id (timers k)).
      lia.
    + simpl.
      pose proof (count_armed ConnectIfIdle id (timers k) Harmed).
      pose proof (count_disarmed Announce id (timers k)).
      destruct (kiteWebsocket k); simpl; [lia|].
      unfold connect. destruct endpointAccepted; simpl; counting; lia.
Qed.

(** Nothing is pending: whatever comes, short of [initClient], the tab
    announces nothing and creates no socket. *)
Lemma tasks_idle ts :
  forall k,
    timers k = [] -> forallb (fun t => negb (isInit t)) ts = true ->
    let k' := tasks endpointAccepted k ts in
    timers k' = [] /\
    count (posted CONNECTED) (did k') = count (posted CONNECTED) (did k) /\
    count created (did k') = count created (did k) /\
    (kiteWebsocket k' = true -> kiteWebsocket k = true).
Proof.
  induction ts as [|t ts IH]; intros k Hnone Hts; [done|].
  simpl in Hts. apply andb_prop in Hts as [Ht Hts].
  cbv zeta. rewrite tasks_cons.
  assert (let k1 := task endpointAccepted t k in
          timers k1 = [] /\
          count (posted CONNECTED) (did k1) = count (posted CONNECTED) (did k) /\
          count created (did k1) = count created (did k) /\
          (kiteWebsocket k1 = true -> kiteWebsocket k = true)) as (H1 & H2 & H3 & H4).
  { destruct t as [|type|id]; simpl; [done| |by rewrite Hnone].
    destruct type; simpl; try done.
    - destruct (connectionTimeout k) as [id|]; [|done]. simpl.
      rewrite Hnone. counting.
      repeat split; try lia. done.
    - unfold disconnect. destruct (kiteWebsocket k); simpl; [|done].
      counting. repeat split; try lia. done. }
  destruct (IH _ H1 Hts) as (H1' & H2' & H3' & H4').
  split; [done|]. split; [by rewrite H2'|]. split; [by rewrite H3'|].
  intros Hon. by apply H4, H4'.
Qed.

(** What messages of other tabs do while one timer may be pending. *)
Lemma tasks_messages ts :
  forall k id c,
    connectionTimeout k = Some id ->
    timers k = [(id, c)] \/ timers k = [] ->
    forallb isMessage ts = true ->
    let k' := tasks endpointAccepted k ts in
    connectionTimeout k' = Some id /\ nextTimer k' = nextTimer k /\
    (timers k' = timers k \/ timers k' = []) /\
    (forallb isOtherMessage ts = true -> timers k' = timers k) /\
    count (posted CONNECTED) (did k') = count (posted CONNECTED) (did k) /\
    count created (did k') = count created (did k) /\
    (kiteWebsocket k' = true -> kiteWebsocket k = true).
Proof.
  induction ts as [|t ts IH]; intros k id c Hfield Htimers Hts.
  - simpl. repeat split; try done. by left.
  - simpl in Hts. apply andb_prop in Hts as [Ht Hts].
    cbv zeta. rewrite tasks_cons.
    destruct t as [|type|due]; try discriminate Ht.
    change (task endpointAccepted (ChannelMessage type) k)
      with (onChannelMessage type k).
    assert (let k1 := onChannelMessage type k in
            connectionTimeout k1 = Some id /\ nextTimer k1 = nextTimer k /\
            (timers k1 = timers k \/ timers k1 = []) /\
            (isOtherMessage (ChannelMessage type) = true -> timers k1 = timers k) /\
            count (posted CONNECTED) (did k1) = count (posted CONNECTED) (did k) /\
            count created (did k1) = count created (did k) /\
            (kiteWebsocket k1 = true -> kiteWebsocket k = true))
      as (G1 & G2 & G3 & G4 & G5 & G6 & G7).
    { destruct type; simpl; try (repeat split; try done; by left).
      - rewrite Hfield. simpl. counting.
        repeat split; try done; try lia.
        right. destruct Htimers as [-> | ->]; simpl; [|done].
        by rewrite Nat.eqb_refl.
      - unfold disconnect. destruct (kiteWebsocket k); simpl.
        + counting.
          repeat split; try done; try lia. by left.
        + repeat split; try done. by left. }
    assert (timers (onChannelMessage type k) = [(id, c)] \/
            timers (onChannelMessage type k) = []) as Hnext.
    { destruct G3 as [-> | ->]; [done|by right]. }
    destruct (IH _ id c G1 Hnext Hts) as (K1 & K2 & K3 & K4 & K5 & K6 & K7).
    split; [done|]. split; [by rewrite K2|].
    split.
    { destruct K3 as [K3|K3]; [|by right]. rewrite K3. exact G3. }
    split.
    { intros Hquiet. apply andb_prop in Hquiet as [Hq Hqs].
      by rewrite (K4 Hqs), (G4 Hq). }
    split; [by rewrite K5|]. split; [by rewrite K6|].
    intros Hon. by apply G7, K7.
Qed.



(** Tab: on a tab with no timer pending, when between [initClient] and
    its timer nothing is handled but messages of other tabs that are no
    joins, the tab posts [CONNECTED] once when the timer is due and, when
    the timer that this schedules is due, holds a socket, unless it had
    none then and its endpoint is refused, in which case it has created
    one in vain; this is so whatever the other tabs post between the two
    timers, a join included: once announced, the takeover is not
    cancelled any more.  No timer is pending afterwards, and one socket
    at most was created. *)
Theorem unheard_tab_announces_and_connects (k : KiteChat)
    (heard later : list Task) :
  timers k = [] ->
  forallb isOtherMessage heard = true ->
  forallb isMessage later = true ->
  let id := nextTimer k in
  let k' :=
    tasks endpointAccepted k
      (InitClient :: heard ++ Due id :: later ++ [Due (S id)]) in
  (kiteWebsocket k' = true \/
   (endpointAccepted = false /\
    count created (did k') = S (count created (did k)))) /\
  timers k' = [] /\
  count (posted CONNECTED) (did k') = S (count (posted CONNECTED) (did k)) /\
  (count created (did k') <= S (count created (did k)))%nat.
Proof.
  intros Hnone Hheard Hlater id k'. subst k'.
  rewrite tasks_cons, tasks_app, tasks_cons, tasks_app, tasks_cons.
  change (task endpointAccepted InitClient k) with (initClient k).
  change (tasks endpointAccepted ?x []) with x.
  set (k1 := initClient k).
  assert (connectionTimeout k1 = Some id) as Hfield by done.
  assert (timers k1 = [(id, Announce)]) as Htimers.
  { subst k1. unfold initClient. simpl. by rewrite Hnone. }
  assert (count (posted CONNECTED) (did k1) = count (posted CONNECTED) (did k) /\
          count created (did k1) = count created (did k) /\
          nextTimer k1 = S id) as (J1 & J2 & J3).
  { subst k1. unfold initClient. simpl. counting. repeat split; lia. }
  assert (forallb isMessage heard = true) as Hmessages.
  { clear -Hheard. induction heard as [|t heard IH]; [done|].
    simpl in *. apply andb_prop in Hheard as [Ht Hts].
    rewrite (IH Hts), andb_true_r. by destruct t as [|[]|]. }
  destruct (tasks_messages heard k1 id Announce Hfield (or_introl Htimers) Hmessages)
    as (K1 & K2 & _ & K4 & K5 & K6 & _).
  specialize (K4 Hheard).
  set (k2 := tasks endpointAccepted k1 heard) in *.
  set (k3 := task endpointAccepted (Due id) k2).
  assert (connectionTimeout k3 = Some id /\
          timers k3 = [(S id, ConnectIfIdle)] /\
          count (posted CONNECTED) (did k3) = S (count (posted CONNECTED) (did k)) /\
          count created (did k3) = count created (did k))
    as (Hfield3 & Htimers3 & Hposted & Hcreated).
  { subst k3. simpl. rewrite K4, Htimers. unfold armed. simpl.
    rewrite Nat.eqb_refl. simpl. rewrite K1, K2, J3. counting.
    repeat split; try done; lia. }
  assert (forall k3,
            connectionTimeout k3 = Some id ->
            timers k3 = [(S id, ConnectIfIdle)] ->
            let k4 := tasks endpointAccepted k3 later in
            timers k4 = [(S id, ConnectIfIdle)] /\
            count (posted CONNECTED) (did k4) = count (posted CONNECTED) (did k3) /\
            count created (did k4) = count created (did k3)) as Hlate.
  { clear -Hlater. induction later as [|t later IH]; intros k3 Hfield3 Htimers3;
      [done|].
    simpl in Hlater. apply andb_prop in Hlater as [Ht Hts].
    cbv zeta. rewrite tasks_cons.
    destruct t as [|type|due]; try discriminate Ht.
    change (task endpointAccepted (ChannelMessage type) k3)
      with (onChannelMessage type k3).
    assert (let k4 := onChannelMessage type k3 in
            connectionTimeout k4 = Some id /\
            timers k4 = [(S id, ConnectIfIdle)] /\
            count (posted CONNECTED) (did k4) = count (posted CONNECTED) (did k3) /\
            count created (did k4) = count created (did k3))
      as (G1 & G2 & G3 & G4).
    { destruct type; simpl; try done.
      - rewrite Hfield3. unfold clearTimeout.
        cbn [connectionTimeout timers did]. rewrite Htimers3.
        assert (disarmed id [(S id, ConnectIfIdle)] = [(S id, ConnectIfIdle)])
          as ->.
        { unfold disarmed. cbn [List.filter fst].
          assert ((S id =? id)%nat = false) as -> by (apply Nat.eqb_neq; lia).
          done. }
        counting. repeat split; try done; lia.
      - unfold disconnect. destruct (kiteWebsocket k3); simpl; [|done].
        counting. repeat split; try done; lia. }
    destruct (IH Hts _ G1 G2) as (I1 & I2 & I3).
    split; [done|]. split; [by rewrite I2|by rewrite I3]. }
  destruct (Hlate k3 Hfield3 Htimers3) as (L1 & L2 & L3).
  set (k4 := tasks endpointAccepted k3 later) in *.
  simpl. rewrite L1. unfold armed. simpl. rewrite Nat.eqb_refl. simpl.
  destruct (kiteWebsocket k4) eqn:Hheld; simpl.
  - rewrite L2, L3, Hposted, Hcreated.
    split; [by left|]. repeat split; try done. lia.
  - unfold connect. destruct endpointAccepted; simpl; counting;
      rewrite ?L2, L3, ?Hposted, Hcreated.
    + split; [by left|]. repeat split; try done; lia.
    + split; [right; split; [done|lia]|]. repeat split; try done; lia.
Qed.

End ChannelFacts.


Lemma unheard_tab_announces_and_connects_witness :
  let k' :=
    Channel.tasks true Channel.constructed
      [Channel.InitClient; Channel.ChannelMessage CONNECTED; Channel.Due 1%nat;
       Channel.ChannelMessage JOIN; Channel.Due 2%nat] in
  Channel.did k' =
    [Channel.PostMessage JOIN; Channel.SetTimeout 1 Channel.Announce 1000;
     Channel.PostMessage CONNECTED; Channel.SetTimeout 2 Channel.ConnectIfIdle 0;
     Channel.ClearTimeout 1; Channel.NewKiteWebsocket; Channel.KiteJoin] /\
  Channel.kiteWebsocket k' = true.
Proof.
  split; [vm_compute; reflexivity|].
  destruct (unheard_tab_announces_and_connects true Channel.constructed
              [Channel.ChannelMessage CONNECTED] [Channel.ChannelMessage JOIN]
              eq_refl eq_refl eq_refl)
    as [[Hheld|[Hrefused _]] _]; [exact Hheld|discriminate Hrefused].
Defined.

(** ** Listeners that are bound where they are registered *)

Section ListenerFacts.

Import Listeners.

Lemma registered_fresh next listeners :
  bound_before next listeners -> registered next listeners = false.
Proof.
  unfold bound_before, registered. induction 1 as [|f fs Hf _ IH]; [done|].
  simpl. rewrite IH, orb_false_r. apply Nat.eqb_neq. lia.
Qed.

(** A function bound for the call is no registered listener. *)
Lemma removeEventListener_fresh next listeners :
  bound_before next listeners -> removeEventListener next listeners = listeners.
Proof.
  unfold bound_before, removeEventListener. induction 1 as [|f fs Hf _ IH]; [done|].
  simpl. rewrite IH.
  assert ((f =? next)%nat = false) as -> by (apply Nat.eqb_neq; lia). done.
Qed.

Lemma addEventListener_fresh next listeners :
  bound_before next listeners -> addEventListener next listeners = listeners ++ [next].
Proof. intros Hb. unfold addEventListener. by rewrite registered_fresh. Qed.

Lemma bound_before_later next later listeners :
  (next <= later)%nat -> bound_before next listeners -> bound_before later listeners.
Proof.
  unfold bound_before. intros Hle Hb. eapply Forall_impl; [exact Hb|].
  simpl. intros f Hf. lia.
Qed.

Lemma bound_before_added next listeners :
  bound_before next listeners -> bound_before (S next) (listeners ++ [next]).
Proof.
  intros Hb. apply Forall_app. split.
  - by apply (bound_before_later next); [lia|].
  - apply Forall_singleton. lia.
Qed.

(** Anchor controller: [hostDisconnected] removes no listener.  After
    whatever sequence of the four host callbacks, the window holds one
    [resize] listener for every [hostConnected] so far, all different,
    so that one resize positions the popover once for each time the host
    was ever connected. *)
Theorem resize_listeners_pile_up (cbs : list Callback) :
  let c := calls constructed cbs in
  length (resize c) = length (List.filter isHostConnected cbs) /\
  NoDup (resize c).
Proof.
  assert (forall c,
            bound_before (nextBound c) (resize c) -> NoDup (resize c) ->
            let c' := calls c cbs in
            length (resize c')
            = (length (resize c) + length (List.filter isHostConnected cbs))%nat /\
            NoDup (resize c')) as Hrun.
  { induction cbs as [|cb cbs IH]; intros c Hb Hnd; simpl; [split; [lia|done]|].
    assert (bound_before (nextBound (call cb c)) (resize (call cb c)) /\
            NoDup (resize (call cb c)) /\
            length (resize (call cb c))
            = (length (resize c) + if isHostConnected cb then 1 else 0)%nat)
      as (Hb' & Hnd' & Hlen).
    { destruct cb; simpl.
      - rewrite addEventListener_fresh by done. split; [|split].
        + apply (bound_before_later (S (nextBound c))); [lia|].
          by apply bound_before_added.
        + apply NoDup_app. split; [done|]. split; [|apply NoDup_singleton].
          intros f Hf Hnew. apply list_elem_of_singleton in Hnew. subst f.
          unfold bound_before in Hb. rewrite Forall_forall in Hb.
          specialize (Hb _ Hf). lia.
        + rewrite length_app. simpl. lia.
      - unfold hostUpdate. destruct (popoverElement c); simpl;
          (split; [done|split; [done|lia]]).
      - split; [done|split; [done|lia]].
      - rewrite removeEventListener_fresh by done.
        split; [by apply (bound_before_later (nextBound c)); [lia|]|].
        split; [done|lia]. }
    destruct (IH _ Hb' Hnd') as [Hlen' Hnd''].
    split; [|done]. rewrite Hlen', Hlen.
    destruct (isHostConnected cb); simpl; lia. }
  destruct (Hrun constructed) as [Hlen Hnd]; [by constructor|by constructor|].
  split; [|done]. by rewrite Hlen.
Qed.

(** Timeline container: [disconnectedCallback] removes no listener.
    After whatever sequence of [firstUpdated] and [disconnectedCallback]
    the slot holds one [slotchange] listener for every [firstUpdated]:
    slot changes are handled on after the element was disconnected. *)
Theorem slotchange_listener_outlives_disconnect (cbs : list SlotCallback) :
  let s := slotCalls {| slotchange := []; slotNextBound := 0%nat |} cbs in
  length (slotchange s) = length (List.filter isFirstUpdated cbs).
Proof.
  assert (forall s,
            bound_before (slotNextBound s) (slotchange s) ->
            length (slotchange (slotCalls s cbs))
            = (length (slotchange s) + length (List.filter isFirstUpdated cbs))%nat)
    as Hrun.
  { induction cbs as [|cb cbs IH]; intros s Hb; simpl; [lia|].
    destruct cb; simpl.
    - rewrite IH; simpl.
      + rewrite addEventListener_fresh by done. rewrite length_app. simpl. lia.
      + rewrite addEventListener_fresh by done. by apply bound_before_added.
    - rewrite IH; simpl.
      + by rewrite removeEventListener_fresh by done.
      + rewrite removeEventListener_fresh by done.
        by apply (bound_before_later (slotNextBound s)); [lia|]. }
  simpl. rewrite Hrun; [done|by constructor].
Qed.

Lemma clicked_requests p :
  bound_before (pageNextBound p) (click p) ->
  let p' := clicked p in
  click p' = click p /\
  permissionRequests p' = (permissionRequests p + length (click p))%nat /\
  bound_before (pageNextBound p') (click p').
Proof.
  intros Hb. unfold clicked.
  assert (forall snapshot q,
            bound_before (pageNextBound q) (click q) ->
            Forall (fun f => registered f (click q) = true) snapshot ->
            let q' := fold_left
                        (fun p f => if registered f (click p)
                                    then handleUserInteraction p else p)
                        snapshot q in
            click q' = click q /\
            permissionRequests q' = (permissionRequests q + length snapshot)%nat /\
            bound_before (pageNextBound q') (click q')) as Hloop.
  { induction snapshot as [|f fs IH]; intros q Hq Hall; simpl;
      [split; [done|split; [lia|done]]|].
    apply Forall_cons in Hall as [Hf Hfs]. rewrite Hf.
    assert (click (handleUserInteraction q) = click q) as Hsame.
    { simpl. by apply removeEventListener_fresh. }
    destruct (IH (handleUserInteraction q)) as (H1 & H2 & H3).
    - rewrite Hsame. simpl. by apply (bound_before_later (pageNextBound q)); [lia|].
    - by rewrite Hsame.
    - split; [by rewrite H1|]. split; [rewrite H2; simpl; lia|done]. }
  apply Hloop; [done|].
  apply Forall_forall. intros f Hf. unfold registered.
  apply existsb_exists. exists f. split; [by apply list_elem_of_In|].
  apply Nat.eqb_refl.
Qed.

(** Tab: [handleUserInteraction] does not remove itself.  With [chats]
    instances of [KiteChat] on a page, each of [clicks] clicks asks for
    the notification permission [chats] times, the last click as the
    first. *)
Theorem every_click_requests_permission (chats clicks : nat) :
  permissionRequests (visited chats clicks) = (clicks * chats)%nat /\
  length (click (visited chats clicks)) = chats.
Proof.
  unfold visited.
  set (start := {| click := []; permissionRequests := 0; pageNextBound := 0%nat |}).
  assert (let p := Nat.iter chats listenForClick start in
          bound_before (pageNextBound p) (click p) /\
          length (click p) = chats /\ permissionRequests p = 0%nat)
    as (Hb & Hlen & Hreq).
  { induction chats as [|chats (Hb & Hlen & Hreq)]; [by repeat constructor|].
    simpl. rewrite addEventListener_fresh by done.
    split; [by apply bound_before_added|].
    split; [rewrite length_app; simpl; lia|done]. }
  set (p := Nat.iter chats listenForClick start) in *.
  assert (let q := Nat.iter clicks clicked p in
          bound_before (pageNextBound q) (click q) /\
          click q = click p /\
          permissionRequests q = (clicks * chats)%nat) as (_ & Hclick & Hall).
  { induction clicks as [|clicks (Hq & Hsame & Hcount)]; [by simpl|].
    simpl. destruct (clicked_requests _ Hq) as (H1 & H2 & H3).
    split; [done|]. split; [by rewrite H1|].
    rewrite H2, Hcount, Hsame, Hlen. lia. }
  split; [done|]. by rewrite Hclick.
Qed.

End ListenerFacts.
